(** * Updatebot: the upstream-commit reconciliation and the Taskcluster client

    A shallow embedding of [components/scmprovider.py] and
    [apis/taskcluster.py], followed by the properties of the design
    document that concern them.

    Layout: the Python primitives the two files rely on ([Py]), the model
    of [scmprovider.py] ([SCM]), the model of [taskcluster.py]
    ([Taskcluster], [TaskclusterRest]); then the lemmas, in the same
    order, and further properties of the two files. *)

From Stdlib Require Import String Ascii List ZArith Lia Bool DecimalString.
Import ListNotations.

Set Warnings "-register-all".

Open Scope string_scope.
Open Scope list_scope.

(** String concatenation gets its own symbol, so that [++] is always the
    list append. *)
Infix "+:+" := String.append (at level 60, right associativity).

(* ================================================================== *)
(** * Part I: definitions                                              *)
(* ================================================================== *)

(** ** Python primitives *)

Module Py.

(** A [str] is modelled by [string]; each character stands for the code
    point of the same number (below 256). *)

Definition TAB : ascii := "009"%char.
Definition LF : ascii := "010"%char.

(** [str.isspace] on one code point: U+0009..U+000D, U+001C..U+0020,
    U+0085 and U+00A0 are the whitespace code points below 256. *)
Definition isspace (c : ascii) : bool :=
  let n := nat_of_ascii c in
  (((9 <=? n) && (n <=? 13)) || ((28 <=? n) && (n <=? 32))
   || (n =? 133) || (n =? 160))%nat.

(** Truth value of a [str]: the empty string is false. *)
Definition truthy (s : string) : bool :=
  match s with EmptyString => false | String _ _ => true end.

Definition snoc (s : string) (c : ascii) : string := s +:+ String c "".

(** [s.split()]: the maximal runs of non-whitespace characters of [s], in
    order.  [cur] is the run being read. *)
Fixpoint split_ws_from (cur : string) (s : string) : list string :=
  match s with
  | EmptyString => if truthy cur then [cur] else []
  | String c s' =>
      if isspace c
      then (if truthy cur then cur :: split_ws_from "" s'
            else split_ws_from "" s')
      else split_ws_from (snoc cur c) s'
  end.

Definition split_ws (s : string) : list string := split_ws_from "" s.

(** [s.split(sep)] for a separator of one character: always at least one
    field. *)
Fixpoint split_on (sep : ascii) (s : string) : list string :=
  match s with
  | EmptyString => [""]
  | String c s' =>
      if Ascii.eqb c sep then "" :: split_on sep s'
      else match split_on sep s' with
           | [] => [String c ""]
           | field :: fields => String c field :: fields
           end
  end.

Fixpoint lstrip (s : string) : string :=
  match s with
  | EmptyString => ""
  | String c s' => if isspace c then lstrip s' else s
  end.

Fixpoint rstrip (s : string) : string :=
  match s with
  | EmptyString => ""
  | String c s' =>
      let r := rstrip s' in
      if isspace c && negb (truthy r) then "" else String c r
  end.

(** [s.strip()] *)
Definition strip (s : string) : string := rstrip (lstrip s).

(** [s.replace(old, new)], every non-overlapping occurrence from the left.
    For an empty [old] Python inserts [new] before every character and at
    the end. *)
Fixpoint drop (n : nat) (s : string) : string :=
  match n, s with
  | S n', String _ s' => drop n' s'
  | _, _ => s
  end.

Fixpoint replace_fuel (fuel : nat) (old new s : string) : string :=
  match fuel with
  | O => s
  | S fuel' =>
      match s with
      | EmptyString => ""
      | String c s' =>
          if String.prefix old s
          then new +:+ replace_fuel fuel' old new (drop (String.length old) s)
          else String c (replace_fuel fuel' old new s')
      end
  end.

Fixpoint intersperse (new s : string) : string :=
  match s with
  | EmptyString => new
  | String c s' => new +:+ String c (intersperse new s')
  end.

Definition replace (old new s : string) : string :=
  if truthy old then replace_fuel (String.length s) old new s
  else intersperse new s.

(** [x in xs] for a list of strings. *)
Definition contains (x : string) (xs : list string) : bool :=
  existsb (String.eqb x) xs.

(** [str(n)] for an [int]. *)
Definition str_of_int (n : Z) : string :=
  NilZero.string_of_int (Z.to_int n).

(** [repr(s)] for a [str], and [str(xs)] for a list of [str]. *)
Definition hex_digit (n : nat) : ascii :=
  ascii_of_nat (if (n <? 10)%nat then 48 + n else 87 + n).

Definition printable (c : ascii) : bool :=
  let n := nat_of_ascii c in
  (((32 <=? n) && (n <? 127)) || ((161 <=? n) && negb (n =? 173)))%nat.

Definition has_char (c : ascii) (s : string) : bool :=
  existsb (Ascii.eqb c) (list_ascii_of_string s).

Definition BACKSLASH : ascii := "092"%char.
Definition QUOTE : ascii := "039"%char.
Definition DQUOTE : ascii := "034"%char.

Definition repr_char (quote c : ascii) : string :=
  if Ascii.eqb c quote || Ascii.eqb c BACKSLASH
  then String BACKSLASH (String c "")
  else if Ascii.eqb c TAB then String BACKSLASH "t"
  else if Ascii.eqb c LF then String BACKSLASH "n"
  else if Ascii.eqb c "013"%char then String BACKSLASH "r"
  else if printable c then String c ""
  else
    let n := nat_of_ascii c in
    String BACKSLASH
      (String "x" (String (hex_digit (n / 16)) (String (hex_digit (n mod 16)) ""))).

Definition repr (s : string) : string :=
  let quote :=
    if has_char QUOTE s && negb (has_char DQUOTE s) then DQUOTE else QUOTE in
  String quote
    (String.concat "" (map (repr_char quote) (list_ascii_of_string s)))
  +:+ String quote "".

Definition str_of_list (xs : list string) : string :=
  "[" +:+ String.concat ", " (map repr xs) +:+ "]".

(** [needle in haystack] for two strings. *)
Fixpoint substring_of (needle haystack : string) : bool :=
  String.prefix needle haystack ||
  match haystack with
  | EmptyString => false
  | String _ h' => substring_of needle h'
  end.

(** [xs[i:]] *)
Definition slice_from {A} (i : Z) (xs : list A) : list A :=
  let n := Z.of_nat (length xs) in
  let start := if (i <? 0)%Z then Z.max 0 (n + i) else i in
  skipn (Z.to_nat start) xs.

(** Exceptions.  The ones the two files raise themselves, the ones the
    interpreter raises on a failed subscript or attribute access, and the
    ones that come from the collaborators. *)
Inductive Exn : Type :=
| Exception (msg : string)
| ExceptionFrom (msg : string) (cause : Exn)   (* [raise Exception(msg) from cause] *)
| AssertionError (msg : string)
| IndexError
| KeyError (key : string)
| TypeError
| AttributeError (name : string)
| ValueError                          (* a body that is not JSON *)
| CommandError (detail : string)      (* raised by the command provider *)
| ConnectionError.                    (* raised by [requests] *)

Inductive Result (A : Type) : Type :=
| Ok (a : A)
| Raise (e : Exn).
Arguments Ok {A} a.
Arguments Raise {A} e.

(** [xs[i]] *)
Definition index {A} (xs : list A) (i : nat) : Result A :=
  match nth_error xs i with
  | Some x => Ok x
  | None => Raise IndexError
  end.

(** State and exceptions: a computation maps the state before to the state
    after and either a value or the exception it raised. *)
Definition M (St A : Type) : Type := St -> St * Result A.

Definition ret {St A} (a : A) : M St A := fun s => (s, Ok a).

Definition raise {St A} (e : Exn) : M St A := fun s => (s, Raise e).

Definition bind {St A B} (m : M St A) (f : A -> M St B) : M St B :=
  fun s =>
    match m s with
    | (s', Ok a) => f a s'
    | (s', Raise e) => (s', Raise e)
    end.

Definition lift {St A} (r : Result A) : M St A := fun s => (s, r).

(** [try: body finally: cleanup] *)
Definition try_finally {St A} (body : M St A) (cleanup : M St unit) : M St A :=
  fun s =>
    let (s1, r) := body s in
    match cleanup s1 with
    | (s2, Ok _) => (s2, r)
    | (s2, Raise e) => (s2, Raise e)
    end.

(** [try: body except Exception as e: raise handler(e)] *)
Definition try_except {St A} (body : M St A) (handler : Exn -> Exn) : M St A :=
  fun s =>
    match body s with
    | (s', Ok a) => (s', Ok a)
    | (s', Raise e) => (s', Raise (handler e))
    end.

(** [for x in xs: body(x)] *)
Fixpoint for_each {St A} (xs : list A) (body : A -> M St unit) : M St unit :=
  match xs with
  | [] => ret tt
  | x :: xs' => bind (body x) (fun _ => for_each xs' body)
  end.

(** [[f(x) for x in xs]] *)
Fixpoint comprehension {St A B} (xs : list A) (f : A -> M St B) : M St (list B) :=
  match xs with
  | [] => ret []
  | x :: xs' =>
      bind (f x) (fun y =>
      bind (comprehension xs' f) (fun ys => ret (y :: ys)))
  end.

(** *** Vocabulary of the statements *)

(** Every character of [s] satisfies [p]. *)
Fixpoint all_chars (p : ascii -> bool) (s : string) : Prop :=
  match s with
  | EmptyString => True
  | String c s' => p c = true /\ all_chars p s'
  end.

Definition nonspace (c : ascii) : bool := negb (isspace c).

(** The text whose lines are [ls], each ended by a line feed. *)
Fixpoint unlines (ls : list string) : string :=
  match ls with
  | [] => ""
  | l :: ls' => l +:+ String LF (unlines ls')
  end.

(** The exceptions a computation can raise. *)
Definition raises_only {St A} (P : Exn -> Prop) (m : M St A) : Prop :=
  forall s s' e, m s = (s', Raise e) -> P e.

(** A relation that holds between the state before and the state after. *)
Definition preserves {St A} (R : St -> St -> Prop) (m : M St A) : Prop :=
  forall s, R s (fst (m s)).

End Py.

Notation "x <- m ;; k" := (Py.bind m (fun x => k))
  (at level 61, m at next level, right associativity).
Notation "m ;;; k" := (Py.bind m (fun _ => k))
  (at level 61, right associativity).

(** ** components/logging.py *)

Module Logging.

(** Modelled from the spec: [components/logging.py] is not part of the
    sources; these are the levels the two providers log at.  Its
    [logEntryExit] decorators only add log lines and are left out. *)
Inductive LogLevel : Type := Debug | Info | Error.

End Logging.

(** ** components/scmprovider.py *)

Module SCM.
Import Py Logging.

(** *** class Commit *)

(** [summary], [description] and [revision_link] are attributes that
    [__init__] does not create: [None] stands for "absent". *)
Record Commit : Type := mkCommit {
  revision : string;
  author_date : string;
  commit_date : string;
  files_modified : list string;
  files_added : list string;
  files_deleted : list string;
  files_other : list string;
  summary : option string;
  description : option string;
  revision_link : option string
}.

(** [Commit.__init__] (lines 15-24). *)
Definition Commit__init__ (pretty_line : string) : Result Commit :=
  let parts := split_on "|" pretty_line in
  match index parts 0 with
  | Raise e => Raise e
  | Ok revision =>
      match index parts 1 with
      | Raise e => Raise e
      | Ok author_date =>
          match index parts 2 with
          | Raise e => Raise e
          | Ok commit_date =>
              Ok (mkCommit revision author_date commit_date
                    [] [] [] [] None None None)
          end
      end
  end.

(** The values a [Commit] can be compared with. *)
Inductive Value : Type :=
| VCommit (c : Commit)
| VNone
| VBool (b : bool)
| VInt (n : Z)
| VStr (s : string)
| VList (xs : list Value).

Definition isinstance_Commit (v : Value) : bool :=
  match v with VCommit _ => true | _ => false end.

(** [Commit.__eq__] (lines 49-52). *)
Definition Commit__eq__ (self : Commit) (other : Value) : bool :=
  match other with
  | VCommit other => String.eqb (revision self) (revision other)
  | _ => false
  end.

(** [Commit.__str__] (lines 54-55). *)
Definition Commit__str__ (self : Commit) : string :=
  "Commit: " +:+ revision self.

(** [xs == ys] on two lists of commits: same length and equal elements. *)
Fixpoint commits_eq (xs ys : list Commit) : bool :=
  match xs, ys with
  | [], [] => true
  | x :: xs', y :: ys' => Commit__eq__ x (VCommit y) && commits_eq xs' ys'
  | _, _ => false
  end.

(** *** The collaborators *)

(** What a command leaves behind: its decoded standard output, or the
    failure the command provider raises.  The output is taken to be text:
    the [UnicodeDecodeError] that [decode] raises on other bytes is
    outside the model. *)
Inductive Completed : Type :=
| Stdout (out : string)
| Failed (detail : string).

(** [INeedsCommandProvider]: [self.run(argv)] acts on the world outside
    (the checkout, the network) and answers from it. *)
Class CommandProvider (World : Type) : Type :=
  run_command : World -> list string -> World * Completed.

(** [tempfile.mkdtemp()] *)
Class TempFiles (World : Type) : Type :=
  mkdtemp : World -> World * string.

Inductive Event : Type :=
| Ran (argv : list string)
| Logged (msg : string) (level : LogLevel)
| Removed (dir : string).

Record State (World : Type) : Type := mkState {
  world : World;
  cwd : string;
  events : list Event           (* oldest first *)
}.
Arguments mkState {World} _ _ _.
Arguments world {World} _.
Arguments cwd {World} _.
Arguments events {World} _.

(** Modelled from the spec: the library, task and job records are inputs
    declared outside the sources; these are the fields the provider reads. *)
Record Library : Type := mkLibrary {
  name : string;
  lib_revision : string;
  repo_url : string
}.

Record Task : Type := mkTask { branch : option string }.

Record Job : Type := mkJob { version : string; bugzilla_id : Z }.

Section Provider.
Context {World : Type} `{CommandProvider World} `{TempFiles World}.

Definition Run (A : Type) : Type := M (State World) A.

(** [self.run(argv).stdout.decode()] *)
Definition run (argv : list string) : Run string :=
  fun s =>
    let (w, completed) := run_command (world s) argv in
    let s' := mkState w (cwd s) (events s ++ [Ran argv]) in
    match completed with
    | Stdout out => (s', Ok out)
    | Failed detail => (s', Raise (CommandError detail))
    end.

(** [self.logger.log(msg, level=level)] *)
Definition log (msg : string) (level : LogLevel) : Run unit :=
  fun s => (mkState (world s) (cwd s) (events s ++ [Logged msg level]), Ok tt).

(** [os.getcwd], [os.chdir], [tempfile.mkdtemp] and [shutil.rmtree]: the
    file system is taken to be in order, so that these do not fail. *)
Definition os_getcwd : Run string := fun s => (s, Ok (cwd s)).

Definition os_chdir (dir : string) : Run unit :=
  fun s => (mkState (world s) dir (events s), Ok tt).

Definition tempfile_mkdtemp : Run string :=
  fun s =>
    let (w, dir) := mkdtemp (world s) in
    (mkState w (cwd s) (events s), Ok dir).

Definition shutil_rmtree (dir : string) : Run unit :=
  fun s => (mkState (world s) (cwd s) (events s ++ [Removed dir]), Ok tt).

(** *** Commit.populate_details *)

(** A method of [Commit] runs on the provider's state and on [self]:
    what it has done to [self] stays done when it raises. *)
Definition Method (A : Type) : Type := M (State World * Commit) A.

Definition self_get : Method Commit := fun sc => (sc, Ok (snd sc)).

Definition self_set (f : Commit -> Commit) : Method unit :=
  fun sc => ((fst sc, f (snd sc)), Ok tt).

Definition calling {A} (m : Run A) : Method A :=
  fun sc => let (s', r) := m (fst sc) in ((s', snd sc), r).

Definition append_modified (f : string) (c : Commit) : Commit :=
  mkCommit (revision c) (author_date c) (commit_date c)
    (files_modified c ++ [f]) (files_added c) (files_deleted c)
    (files_other c) (summary c) (description c) (revision_link c).

Definition append_added (f : string) (c : Commit) : Commit :=
  mkCommit (revision c) (author_date c) (commit_date c)
    (files_modified c) (files_added c ++ [f]) (files_deleted c)
    (files_other c) (summary c) (description c) (revision_link c).

Definition append_deleted (f : string) (c : Commit) : Commit :=
  mkCommit (revision c) (author_date c) (commit_date c)
    (files_modified c) (files_added c) (files_deleted c ++ [f])
    (files_other c) (summary c) (description c) (revision_link c).

Definition append_other (f : string) (c : Commit) : Commit :=
  mkCommit (revision c) (author_date c) (commit_date c)
    (files_modified c) (files_added c) (files_deleted c)
    (files_other c ++ [f]) (summary c) (description c) (revision_link c).

Definition set_summary (v : string) (c : Commit) : Commit :=
  mkCommit (revision c) (author_date c) (commit_date c)
    (files_modified c) (files_added c) (files_deleted c)
    (files_other c) (Some v) (description c) (revision_link c).

Definition set_description (v : string) (c : Commit) : Commit :=
  mkCommit (revision c) (author_date c) (commit_date c)
    (files_modified c) (files_added c) (files_deleted c)
    (files_other c) (summary c) (Some v) (revision_link c).

Definition set_revision_link (v : string) (c : Commit) : Commit :=
  mkCommit (revision c) (author_date c) (commit_date c)
    (files_modified c) (files_added c) (files_deleted c)
    (files_other c) (summary c) (description c) (Some v).

(** The body of the loop over [files_changed] (lines 31-43). *)
Definition record_changed_file (f : string) : Method unit :=
  let f := strip f in
  if negb (truthy f) then ret tt
  else
    let parts := split_on TAB f in
    p0 <- lift (index parts 0) ;;
    if String.eqb p0 "M" then
      p1 <- lift (index parts 1) ;; self_set (append_modified p1)
    else if String.eqb p0 "A" then
      p1 <- lift (index parts 1) ;; self_set (append_added p1)
    else if String.eqb p0 "D" then
      p1 <- lift (index parts 1) ;; self_set (append_deleted p1)
    else
      p1 <- lift (index parts 1) ;; self_set (append_other (p0 +:+ " " +:+ p1)).

(** [Commit.populate_details] (lines 26-47). *)
Definition populate_details : Method unit :=
  self <- self_get ;;
  let rev_range := [revision self +:+ "^"; revision self] in
  out <- calling (run (["git"; "diff"; "--name-status"] ++ rev_range)) ;;
  let files_changed := split_ws out in
  for_each files_changed record_changed_file ;;;
  self <- self_get ;;
  out <- calling (run ["git"; "log"; "--pretty=%s"; "-1"; revision self]) ;;
  self_set (set_summary out) ;;;
  self <- self_get ;;
  out <- calling (run ["git"; "log"; "--pretty=%b"; "-1"; revision self]) ;;
  self_set (set_description out) ;;;
  self <- self_get ;;
  self_set (set_revision_link
              ("https://chromium.googlesource.com/angle/angle" +:+ "/+/"
               +:+ revision self)).

(** [c.populate_details(self.run)], seen from the provider: the commit
    as the call leaves it. *)
Definition populated (c : Commit) : Run Commit :=
  fun s =>
    match populate_details (s, c) with
    | (sc, Ok _) => (fst sc, Ok (snd sc))
    | (sc, Raise e) => (fst sc, Raise e)
    end.

(** *** class SCMProvider *)

(** [SCMProvider._commits_since] (lines 181-187). *)
Definition _commits_since (revision : string) : Run (list Commit) :=
  ret_ <- run ["git"; "log"; "--pretty=%H|%ai|%ci"; revision +:+ "..HEAD"] ;;
  let commits := map strip (split_ws ret_) in
  let commits := rev commits in
  comprehension (filter truthy commits) (fun c => lift (Commit__init__ c)).

(** [SCMProvider._print_differing_commit_lists] (lines 189-197). *)
Definition _print_differing_commit_lists
    (list_a : list Commit) (list_a_name : string)
    (list_b : list Commit) (list_b_name : string)
    (problem : string) : Run unit :=
  log (problem +:+ ".") Error ;;;
  log (list_a_name +:+ " (" +:+ str_of_int (Z.of_nat (length list_a)) +:+ ")") Error ;;;
  for_each list_a (fun c => log ("  - " +:+ Commit__str__ c) Error) ;;;
  log (list_b_name +:+ " (" +:+ str_of_int (Z.of_nat (length list_b)) +:+ ")") Error ;;;
  for_each list_b (fun c => log ("  - " +:+ Commit__str__ c) Error) ;;;
  raise (Exception problem).

(** Step 0 inside the [try] (lines 84-87): clone, and check the branch
    out when the task names one. *)
Definition clone_and_checkout (library : Library) (task : Task) : Run unit :=
  run ["git"; "clone"; repo_url library; "."] ;;;
  match branch task with
  | Some b =>
      if truthy b then run ["git"; "checkout"; b] ;;; ret tt else ret tt
  | None => ret tt
  end.

(** Step 1, the two queries (lines 97-102): the current branch and the
    branches that contain the library's revision. *)
Definition branches (library : Library) : Run (string * list string) :=
  out <- run ["git"; "rev-parse"; "--abbrev-ref"; "HEAD"] ;;
  let current_branch := strip out in
  log ("Our current branch is " +:+ current_branch +:+ ".") Debug ;;;
  ret_ <- run ["git"; "branch"; "--contains"; lib_revision library] ;;
  let containing_branches :=
    map (fun line => strip (replace "*" "" line)) (split_ws ret_) in
  log ("Containing branches are " +:+ str_of_list containing_branches +:+ ".")
    Debug ;;;
  ret (current_branch, containing_branches).

Definition not_contained_message (revision current_branch : string) : string :=
  "The current revision " +:+ revision
  +:+ " is not contained in the current branch " +:+ current_branch +:+ ".".

(** Step 1, the test (lines 104-109). *)
Definition require_containment (library : Library)
    (current_branch : string) (containing_branches : list string) : Run unit :=
  if negb (contains current_branch containing_branches) then
    log ("Current Branch: " +:+ current_branch) Error ;;;
    log ("Branches (" +:+ str_of_int (Z.of_nat (length containing_branches))
         +:+ "):") Error ;;;
    for_each containing_branches (fun b => log ("  - " +:+ b) Error) ;;;
    raise (Exception (not_contained_message (lib_revision library) current_branch))
  else ret tt.

(** Steps 0 to 2 (lines 84-112): up to [all_new_upstream_commits]. *)
Definition all_new_upstream_commits (library : Library) (task : Task)
  : Run (list Commit) :=
  clone_and_checkout library task ;;;
  bs <- branches library ;;
  require_containment library (fst bs) (snd bs) ;;;
  _commits_since (lib_revision library).

(** Steps 3 and 4, the classification (lines 119-140). *)
Definition most_recent_job_newer_than_library_rev
    (all_library_jobs : list Job) (all_new_upstream_commits : list Commit)
  : Run bool :=
  match all_library_jobs with
  | most_recent_job :: _ =>
      let newer :=
        contains (version most_recent_job)
                 (map revision all_new_upstream_commits) in
      (if newer
       then log "The most recent job we have run is for a revision still upstream and not in the mozilla repo." Debug
       else log "The most recent job we have run is older than the current revision in the mozilla repo." Debug) ;;;
      ret newer
  | [] =>
      log "We've never run a job for this library before." Debug ;;;
      ret false
  end.

Definition offsetIndex (all_new unseen : list Commit) : Z :=
  Z.of_nat (length all_new) - Z.of_nat (length unseen).

(** Step 5 (lines 155-163). *)
Definition check_strict_ordered_subset
    (all_new_upstream_commits unseen_new_upstream_commits : list Commit)
  : Run unit :=
  let offsetIndex :=
    offsetIndex all_new_upstream_commits unseen_new_upstream_commits in
  let len_all := Z.of_nat (length all_new_upstream_commits) in
  log ("The first unseen upstream commit is offset " +:+ str_of_int offsetIndex
       +:+ " entries into the " +:+ str_of_int len_all
       +:+ " upstream commits.") Debug ;;;
  (if negb (offsetIndex =? len_all)%Z then ret tt
   else raise (AssertionError "Somehow the offset index is the length of the array even though we checked the length already")) ;;;
  let error_func :=
    _print_differing_commit_lists
      all_new_upstream_commits "all_new_upstream_commits"
      unseen_new_upstream_commits "unseen_new_upstream_commits" in
  (if (offsetIndex <? 0)%Z
   then error_func "There are more unseen upstream commits than new upstream commits??"
   else ret tt) ;;;
  (if negb (commits_eq (slice_from offsetIndex all_new_upstream_commits)
                       unseen_new_upstream_commits)
   then error_func "unseen_new_upstream_commits is not a strict ordered subset of all_new_upstream_commits"
   else ret tt).

(** Step 6 (line 171). *)
Definition populate_all (commits : list Commit) : Run (list Commit) :=
  comprehension commits populated.

(** Steps 2 (the empty case) to 6 (lines 113-171). *)
Definition unseen_upstream_commits (library : Library)
    (all_library_jobs : list Job) (all_new_upstream_commits : list Commit)
  : Run (list Commit) :=
  match all_new_upstream_commits with
  | [] =>
      log ("Checking for updates to " +:+ name library
           +:+ " but no new upstream commits were found from our current in-tree revision "
           +:+ lib_revision library +:+ ".") Info ;;;
      ret []
  | _ :: _ =>
      newer <- most_recent_job_newer_than_library_rev
                 all_library_jobs all_new_upstream_commits ;;
      if newer then
        match all_library_jobs with
        | [] => raise (AttributeError "version")
        | most_recent_job :: _ =>
            unseen_new_upstream_commits <-
              _commits_since (version most_recent_job) ;;
            match unseen_new_upstream_commits with
            | [] =>
                log ("Already processed revision " +:+ version most_recent_job
                     +:+ " in bug " +:+ str_of_int (bugzilla_id most_recent_job))
                  Info ;;;
                ret []
            | _ :: _ =>
                check_strict_ordered_subset
                  all_new_upstream_commits unseen_new_upstream_commits ;;;
                populate_all unseen_new_upstream_commits
            end
        end
      else populate_all all_new_upstream_commits
  end.

(** [SCMProvider.check_for_update] (lines 62-179). *)
Definition check_for_update (library : Library) (task : Task)
    (all_library_jobs : list Job) : Run (list Commit) :=
  original_dir <- os_getcwd ;;
  tmpdirname <- tempfile_mkdtemp ;;
  os_chdir tmpdirname ;;;
  try_finally
    (all_new <- all_new_upstream_commits library task ;;
     unseen_upstream_commits library all_library_jobs all_new)
    (os_chdir original_dir ;;; shutil_rmtree tmpdirname).

(** *** Vocabulary of the statements *)

(** The state in which the [try] block starts: a fresh directory has
    been made and entered. *)
Definition entered (s : State World) : State World :=
  let (w, dir) := mkdtemp (world s) in mkState w dir (events s).

(** The state the [finally] block leaves, when the [try] block ended in
    [s]: back in the directory of [s0], the fresh one removed. *)
Definition cleaned_up (s0 s : State World) : State World :=
  mkState (world s) (cwd s0) (events s ++ [Removed (cwd (entered s0))]).

(** The commands that fetch a commit range, and their number in a
    history. *)
Definition is_commits_since (argv : list string) : bool :=
  match argv with
  | [a; b; c; _] =>
      String.eqb a "git" && String.eqb b "log"
      && String.eqb c "--pretty=%H|%ai|%ci"
  | _ => false
  end.

Definition is_fetch (e : Event) : bool :=
  match e with
  | Ran argv => is_commits_since argv
  | _ => false
  end.

Definition fetches (evs : list Event) : nat := length (filter is_fetch evs).

Definition same_fetches (s s' : State World) : Prop :=
  fetches (events s') = fetches (events s).

(** [c'] is the commit [c], whatever details it has got since. *)
Definition same_commit (c c' : Commit) : Prop :=
  revision c' = revision c /\ author_date c' = author_date c
  /\ commit_date c' = commit_date c.

(** A field of a log line that holds no whitespace and no bar. *)
Definition clean_field (s : string) : Prop :=
  all_chars (fun c => nonspace c && negb (Ascii.eqb c "|")) s.

(** A log entry [(revision, author date, commit date)], the line that
    [git log --pretty=%H|%ai|%ci] prints for it, and the commit made of it. *)
Definition clean_entry (entry : string * string * string) : Prop :=
  let '(revision, author_date, commit_date) := entry in
  clean_field revision /\ clean_field author_date /\ clean_field commit_date.

Definition entry_line (entry : string * string * string) : string :=
  let '(revision, author_date, commit_date) := entry in
  revision +:+ "|" +:+ author_date +:+ "|" +:+ commit_date.

Definition entry_commit (entry : string * string * string) : Commit :=
  let '(revision, author_date, commit_date) := entry in
  mkCommit revision author_date commit_date [] [] [] [] None None None.

(** The two problems step 5 reports. *)
Definition more_unseen_message : string :=
  "There are more unseen upstream commits than new upstream commits??".

Definition not_subset_message : string :=
  "unseen_new_upstream_commits is not a strict ordered subset of all_new_upstream_commits".

(** What lines 132-140 decide. *)
Definition newer_than_library_rev (all_library_jobs : list Job)
    (all_new_upstream_commits : list Commit) : bool :=
  match all_library_jobs with
  | most_recent_job :: _ =>
      contains (version most_recent_job) (map revision all_new_upstream_commits)
  | [] => false
  end.

(** The line that reports an already processed revision (line 148). *)
Definition already_processed_message (most_recent_job : Job) : string :=
  "Already processed revision " +:+ version most_recent_job
  +:+ " in bug " +:+ str_of_int (bugzilla_id most_recent_job).

(** What can go wrong once the branch is known to contain the revision: a
    command fails, a log line has fewer than three fields, or step 5
    reports a problem. *)
Definition reconciliation_error (e : Exn) : Prop :=
  e = IndexError \/ (exists detail, e = CommandError detail)
  \/ e = Exception more_unseen_message \/ e = Exception not_subset_message.

(** Everything [check_for_update] can raise. *)
Definition check_for_update_error (e : Exn) : Prop :=
  reconciliation_error e
  \/ exists revision current_branch,
       e = Exception (not_contained_message revision current_branch).

End Provider.

End SCM.

(** ** apis/taskcluster.py *)

Module Taskcluster.
Import Py Logging.

(** We want to run tests a total of four times (lines 16-17). *)
Definition TRIGGER_TOTAL : Z := 4.

(** A decoded JSON document, as [r.json()] hands it over (numbers are
    integers here; an object lists its keys in order, each once). *)
Inductive Json : Type :=
| JNull
| JBool (b : bool)
| JInt (n : Z)
| JStr (s : string)
| JArr (items : list Json)
| JObj (fields : list (string * Json)).

Fixpoint assoc {A} (key : string) (fields : list (string * A)) : option A :=
  match fields with
  | [] => None
  | (k, v) :: fields' => if String.eqb key k then Some v else assoc key fields'
  end.

(** [repr(j)] and [str(j)] *)
Fixpoint json_repr (j : Json) : string :=
  match j with
  | JNull => "None"
  | JBool b => if b then "True" else "False"
  | JInt n => str_of_int n
  | JStr s => repr s
  | JArr items => "[" +:+ String.concat ", " (map json_repr items) +:+ "]"
  | JObj fields =>
      "{" +:+ String.concat ", "
                (map (fun kv => repr (fst kv) +:+ ": " +:+ json_repr (snd kv)) fields)
      +:+ "}"
  end.

Definition json_str (j : Json) : string :=
  match j with
  | JStr s => s
  | _ => json_repr j
  end.

(** [j[key]] for a [str] key. *)
Definition getitem (j : Json) (key : string) : Result Json :=
  match j with
  | JObj fields =>
      match assoc key fields with
      | Some v => Ok v
      | None => Raise (KeyError key)
      end
  | _ => Raise TypeError
  end.

(** [j[i]] for an [int] index that is not negative. *)
Definition getitem_at (j : Json) (i : nat) : Result Json :=
  match j with
  | JArr items => index items i
  | JStr s => index (map (fun c => JStr (String c "")) (list_ascii_of_string s)) i
  | JObj _ => Raise (KeyError (str_of_int (Z.of_nat i)))
  | _ => Raise TypeError
  end.

(** [for x in j] *)
Definition iterate (j : Json) : Result (list Json) :=
  match j with
  | JArr items => Ok items
  | JObj fields => Ok (map (fun kv => JStr (fst kv)) fields)
  | JStr s => Ok (map (fun c => JStr (String c "")) (list_ascii_of_string s))
  | _ => Raise TypeError
  end.

(** [s == j] for a [str] [s]. *)
Definition str_eq (s : string) (j : Json) : bool :=
  match j with
  | JStr s' => String.eqb s s'
  | _ => false
  end.

(** Modelled from the spec: [components/utilities.py] is not part of the
    sources; a [Struct] carries the named properties of one job as its
    attributes.  The attributes are listed in the order they were set. *)
Definition Struct : Type := list (string * Json).

(** [d[key] = value] *)
Fixpoint dict_set (key : string) (value : Json) (d : Struct) : Struct :=
  match d with
  | [] => [(key, value)]
  | (k, v) :: d' =>
      if String.eqb key k then (k, value) :: d'
      else (k, v) :: dict_set key value d'
  end.

(** [obj.name] *)
Definition getattr (obj : Struct) (name : string) : Result Json :=
  match assoc name obj with
  | Some v => Ok v
  | None => Raise (AttributeError name)
  end.

(** One page of [api/jobs/], with the fields the provider reads and the
    types Treeherder gives them.  [next] is [None] when the field is
    missing or null. *)
Record JobsPage : Type := mkJobsPage {
  results : list (list Json);
  job_property_names : list string;
  next : option string
}.

(** An HTTP response: [json] is [None] when [r.json()] raises. *)
Record Response (Body : Type) : Type := mkResponse {
  status_code : Z;
  text : string;
  json : option Body
}.
Arguments mkResponse {Body} _ _ _.
Arguments status_code {Body} _.
Arguments text {Body} _.
Arguments json {Body} _.

Inductive Event : Type :=
| Get (url : string) (headers : list (string * string))
| Post (url : string) (data : string)
| Logged (msg : string) (level : LogLevel).

(** The services answer the requests in the order they are made: [jobs]
    are the responses of [api/jobs/] still to come, [others] those of
    every other endpoint.  A request that finds nothing left fails in
    [requests]. *)
Record State : Type := mkState {
  jobs : list (Response JobsPage);
  others : list (Response Json);
  events : list Event           (* oldest first *)
}.

Definition Run (A : Type) : Type := M State A.

(** [jsone.render], [json.dumps] and [urllib.parse.quote_plus] are
    libraries from outside the repository: they are parameters here. *)
Class Libraries : Type := {
  jsone_render : Json -> Json -> Result Json;
  json_dumps : Json -> string;
  quote_plus : string -> string
}.

(** [self], as [__init__] sets it up (lines 21-33). *)
Record TaskclusterProvider : Type := mkProvider {
  url_treeherder : string;
  url_taskcluster : string;
  HEADERS : list (string * string)
}.

Definition TaskclusterProvider__init__ (config : list (string * string))
  : TaskclusterProvider :=
  let url_treeherder := "https://treeherder.mozilla.org/" in
  let url_taskcluster := "https://firefox-ci-tc.services.mozilla.com/" in
  let url_treeherder :=
    match assoc "url_treeherder" config with
    | Some v => v
    | None => url_treeherder
    end in
  let url_taskcluster :=
    match assoc "url_taskcluster" config with
    | Some v => v
    | None => url_taskcluster
    end in
  mkProvider url_treeherder url_taskcluster [("User-Agent", "Updatebot")].

Section Provider.
Context `{Libraries}.
Variable self : TaskclusterProvider.

Definition log (msg : string) (level : LogLevel) : Run unit :=
  fun s => (mkState (jobs s) (others s) (events s ++ [Logged msg level]), Ok tt).

(** [requests.get(url, headers=self.HEADERS)] *)
Definition requests_get (url : string) : Run (Response Json) :=
  fun s =>
    let evs := events s ++ [Get url (HEADERS self)] in
    match others s with
    | r :: rest => (mkState (jobs s) rest evs, Ok r)
    | [] => (mkState (jobs s) [] evs, Raise ConnectionError)
    end.

(** [requests.post(url, data=data)] *)
Definition requests_post (url data : string) : Run (Response Json) :=
  fun s =>
    let evs := events s ++ [Post url data] in
    match others s with
    | r :: rest => (mkState (jobs s) rest evs, Ok r)
    | [] => (mkState (jobs s) [] evs, Raise ConnectionError)
    end.

(** [TaskclusterProvider._transform_job_list] (lines 60-68). *)
Fixpoint fill_struct (property_names : list string) (i : nat)
    (j : list Json) (d : Struct) : Result Struct :=
  match property_names with
  | [] => Ok d
  | property_name :: rest =>
      match index j i with
      | Ok v => fill_struct rest (S i) j (dict_set property_name v d)
      | Raise e => Raise e
      end
  end.

Fixpoint _transform_job_list (property_names : list string)
    (job_list : list (list Json)) : Result (list Struct) :=
  match job_list with
  | [] => Ok []
  | j :: job_list' =>
      match fill_struct property_names 0 j [] with
      | Raise e => Raise e
      | Ok d =>
          match _transform_job_list property_names job_list' with
          | Raise e => Raise e
          | Ok new_job_list => Ok (d :: new_job_list)
          end
      end
  end.

(** The comparison of a later page's property names with the ones
    already held (lines 130-134): [indices] are the values of [i] still to
    go. *)
Fixpoint compare_each (property_names later : list string)
    (job_details_url : string) (indices : list nat) : Result unit :=
  match indices with
  | [] => Ok tt
  | i :: indices' =>
      if negb (length property_names =? length later)%nat then
        Raise (Exception
          ("The first j['job_property_names'] was "
           +:+ str_of_int (Z.of_nat (length property_names))
           +:+ " elements long, but a subsequant one was "
           +:+ str_of_int (Z.of_nat (length later))
           +:+ " for url " +:+ job_details_url))
      else
        match index property_names i, index later i with
        | Ok a, Ok b =>
            if negb (String.eqb a b) then
              Raise (Exception
                ("Property name " +:+ a +:+ " (index "
                 +:+ str_of_int (Z.of_nat i) +:+ ") doesn't match " +:+ b))
            else compare_each property_names later job_details_url indices'
        | Raise e, _ => Raise e
        | _, Raise e => Raise e
        end
  end.

Definition compare_property_names (property_names later : list string)
    (job_details_url : string) : Result unit :=
  compare_each property_names later job_details_url
    (seq 0 (length property_names)).

(** The [while] loop over the pages (lines 118-136).  It follows the
    responses of [api/jobs/] that are still to come. *)
Fixpoint job_pages (pending : list (Response JobsPage)) (push_id : string)
    (job_details_url : string) (job_list : list (list Json))
    (property_names : list string) (evs : list Event)
  : list (Response JobsPage) * list Event
    * Result (list (list Json) * list string) :=
  let evs :=
    evs ++ [Logged ("Requesting push id " +:+ push_id +:+ " from "
                    +:+ job_details_url) Info;
            Get job_details_url (HEADERS self)] in
  match pending with
  | [] => ([], evs, Raise ConnectionError)
  | r :: pending' =>
      match json r with
      | None =>
          (pending', evs,
           Raise (Exception
             ("Could not parse the result of the jobs list as json. Url: "
              +:+ job_details_url +:+ " Response:" +:+ String LF (text r))))
      | Some j =>
          let job_list := job_list ++ results j in
          let checked :=
            match property_names with
            | [] => Ok (job_property_names j)
            | _ :: _ =>
                match compare_property_names property_names
                        (job_property_names j) job_details_url with
                | Ok _ => Ok property_names
                | Raise e => Raise e
                end
            end in
          match checked with
          | Raise e => (pending', evs, Raise e)
          | Ok property_names =>
              match next j with
              | Some next_url =>
                  if truthy next_url
                  then job_pages pending' push_id next_url job_list
                         property_names evs
                  else (pending', evs, Ok (job_list, property_names))
              | None => (pending', evs, Ok (job_list, property_names))
              end
          end
      end
  end.

(** [TaskclusterProvider.get_job_details] (lines 98-142). *)
Definition get_job_details (revision : string) : Run (list Struct) :=
  let push_list_url :=
    url_treeherder self +:+ "api/project/try/push/?revision=" +:+ revision in
  log ("Requesting revision " +:+ revision +:+ " from " +:+ push_list_url) Info ;;;
  r <- requests_get push_list_url ;;
  push_list <-
    match json r with
    | Some j => ret j
    | None =>
        raise (Exception
          ("Could not parse the result of the push_list as json. Url: "
           +:+ push_list_url +:+ " Response:" +:+ String LF (text r)))
    end ;;
  push_id <-
    try_except
      (results <- lift (getitem push_list "results") ;;
       first <- lift (getitem_at results 0) ;;
       lift (getitem first "id"))
      (ExceptionFrom
         ("Could not find the expected ['results'][0]['id'] from " +:+ text r)) ;;
  let job_details_url :=
    url_treeherder self +:+ "api/jobs/?push_id=" +:+ json_str push_id in
  fetched <-
    try_except
      (fun s =>
         let '(pending, evs, fetched) :=
           job_pages (jobs s) (json_str push_id) job_details_url [] []
             (events s) in
         (mkState pending (others s) evs, fetched))
      (ExceptionFrom
         ("Could not obtain all the job results for push id "
          +:+ json_str push_id)) ;;
  lift (_transform_job_list (snd fetched) (fst fetched)).

(** The first job of the list whose type is the decision task
    (lines 166-170). *)
Fixpoint find_decision_task (job_list : list Struct) : Result (option Struct) :=
  match job_list with
  | [] => Ok None
  | j :: job_list' =>
      match getattr j "job_type_name" with
      | Raise e => Raise e
      | Ok job_type_name =>
          if str_eq "Gecko Decision Task" job_type_name then Ok (Some j)
          else find_decision_task job_list'
      end
  end.

(** The first action called [retrigger-multiple] (lines 182-186). *)
Fixpoint find_retrigger_action (actions : list Json) : Result (option Json) :=
  match actions with
  | [] => Ok None
  | a :: actions' =>
      match getitem a "name" with
      | Raise e => Raise e
      | Ok a_name =>
          if str_eq "retrigger-multiple" a_name then Ok (Some a)
          else find_retrigger_action actions'
      end
  end.

(** [[i.job_type_name for i in retrigger_list]] (line 190). *)
Fixpoint job_type_names (retrigger_list : list Struct) : Result (list Json) :=
  match retrigger_list with
  | [] => Ok []
  | i :: retrigger_list' =>
      match getattr i "job_type_name" with
      | Raise e => Raise e
      | Ok job_type_name =>
          match job_type_names retrigger_list' with
          | Raise e => Raise e
          | Ok names => Ok (job_type_name :: names)
          end
      end
  end.

(** The context of the template (lines 191-195). *)
Definition retrigger_context (taskGroupId : Json) (retrigger_tasks : list Json)
  : Json :=
  JObj [("taskGroupId", taskGroupId);
        ("taskId", JNull);
        ("input",
         JObj [("requests",
                JArr [JObj [("tasks", JArr retrigger_tasks);
                            ("times", JInt (TRIGGER_TOTAL - 1))]])])].

(** [quote_plus(j)]: only a [str] can be quoted. *)
Definition quoted (j : Json) : Result string :=
  match j with
  | JStr s => Ok (quote_plus s)
  | _ => Raise TypeError
  end.

(** [TaskclusterProvider.retrigger_jobs] (lines 163-214). *)
Definition retrigger_jobs (job_list retrigger_list : list Struct) : Run Json :=
  decision_task <- lift (find_decision_task job_list) ;;
  match decision_task with
  | None => raise (AssertionError "")
  | Some decision_task =>
      task_id <- lift (getattr decision_task "task_id") ;;
      let artifact_url :=
        url_taskcluster self +:+ "api/queue/v1/task/" +:+ json_str task_id
        +:+ "/runs/0/artifacts/public/actions.json" in
      r <- requests_get artifact_url ;;
      actions <-
        match json r with
        | Some j => ret j
        | None =>
            raise (Exception
              ("Could not parse the result of the actions.json artifact as json. Url: "
               +:+ artifact_url +:+ " Response:" +:+ String LF (text r)))
        end ;;
      actions_list <- lift (getitem actions "actions") ;;
      actions_list <- lift (iterate actions_list) ;;
      retrigger_action <- lift (find_retrigger_action actions_list) ;;
      match retrigger_action with
      | None => raise (AssertionError "")
      | Some retrigger_action =>
          retrigger_tasks <- lift (job_type_names retrigger_list) ;;
          hookPayload <- lift (getitem retrigger_action "hookPayload") ;;
          decision <- lift (getitem hookPayload "decision") ;;
          action <- lift (getitem decision "action") ;;
          taskGroupId <- lift (getitem action "taskGroupId") ;;
          let context := retrigger_context taskGroupId retrigger_tasks in
          template <- lift (getitem retrigger_action "hookPayload") ;;
          payload <- lift (jsone_render template context) ;;
          let payload := replace "\n" " " (json_dumps payload) in
          hookGroupId <- lift (getitem retrigger_action "hookGroupId") ;;
          hookGroupId <- lift (quoted hookGroupId) ;;
          hookId <- lift (getitem retrigger_action "hookId") ;;
          hookId <- lift (quoted hookId) ;;
          let trigger_url :=
            url_taskcluster self +:+ "api/hooks/v1/hooks/" +:+ hookGroupId
            +:+ "/" +:+ hookId +:+ "/trigger" in
          log ("Issuing a retrigger to " +:+ trigger_url) Info ;;;
          r <- requests_post trigger_url payload ;;
          try_except
            (if (status_code r =? 200)%Z then
               output <-
                 match json r with
                 | Some j => ret j
                 | None => raise ValueError
                 end ;;
               status <- lift (getitem output "status") ;;
               taskId <- lift (getitem status "taskId") ;;
               log ("Succeeded, the decision taskid is " +:+ json_str taskId)
                 Info ;;;
               status <- lift (getitem output "status") ;;
               lift (getitem status "taskId")
             else
               raise (Exception
                 ("Task retrigger did not complete successfully, status code is "
                  +:+ str_of_int (status_code r) +:+ String LF (String LF (text r)))))
            (ExceptionFrom
               ("Task retrigger did not complete successfully (exception raised during processing), response is"
                +:+ String LF (text r)))
      end
  end.

(** *** Vocabulary of the statements *)

Definition is_post (e : Event) : bool :=
  match e with
  | Post _ _ => true
  | _ => false
  end.

(** The number of POST requests in a history. *)
Definition posts (evs : list Event) : nat := length (filter is_post evs).

(** What a context asks for: the tasks and the number of times of its
    only request. *)
Definition repeat_request (context : Json) : Result (Json * Json) :=
  match getitem context "input" with
  | Raise e => Raise e
  | Ok input =>
      match getitem input "requests" with
      | Ok (JArr [request]) =>
          match getitem request "tasks", getitem request "times" with
          | Ok tasks, Ok times => Ok (tasks, times)
          | Raise e, _ => Raise e
          | _, Raise e => Raise e
          end
      | Ok _ => Raise TypeError
      | Raise e => Raise e
      end
  end.

(** The steps before the request (lines 166-202) all succeed on [s] and
    build the request to [trigger_url] with the body [data]: the decision
    task is in the job list, the service answers with an action catalogue
    that has an action called [retrigger-multiple], and the template, which
    is the [hookPayload] of that action, renders in the context of
    lines 191-195 for the type names of [retrigger_list]. *)
Definition trigger_request (job_list retrigger_list : list Struct) (s : State)
    (trigger_url data : string) : Prop :=
  exists decision_task task_id r rest actions actions_json actions_list
         retrigger_action retrigger_tasks template decision action taskGroupId
         payload hookGroupId quotedGroupId hookId quotedId,
    find_decision_task job_list = Ok (Some decision_task)
    /\ getattr decision_task "task_id" = Ok task_id
    /\ others s = r :: rest
    /\ json r = Some actions
    /\ getitem actions "actions" = Ok actions_json
    /\ iterate actions_json = Ok actions_list
    /\ find_retrigger_action actions_list = Ok (Some retrigger_action)
    /\ job_type_names retrigger_list = Ok retrigger_tasks
    /\ getitem retrigger_action "hookPayload" = Ok template
    /\ getitem template "decision" = Ok decision
    /\ getitem decision "action" = Ok action
    /\ getitem action "taskGroupId" = Ok taskGroupId
    /\ jsone_render template (retrigger_context taskGroupId retrigger_tasks)
       = Ok payload
    /\ data = replace "\n" " " (json_dumps payload)
    /\ getitem retrigger_action "hookGroupId" = Ok hookGroupId
    /\ quoted hookGroupId = Ok quotedGroupId
    /\ getitem retrigger_action "hookId" = Ok hookId
    /\ quoted hookId = Ok quotedId
    /\ trigger_url
       = url_taskcluster self +:+ "api/hooks/v1/hooks/" +:+ quotedGroupId
         +:+ "/" +:+ quotedId +:+ "/trigger".

(** No POST request is made: the history only grows by other events. *)
Definition posts_nothing {A} (m : Run A) : Prop :=
  forall s, exists evs,
    events (fst (m s)) = events s ++ evs /\ filter is_post evs = [].

(** At most one POST request is made. *)
Definition posts_at_most_once {A} (m : Run A) : Prop :=
  forall s, posts (events (fst (m s))) <= posts (events s) + 1.

(** A call that returns has made exactly one POST request. *)
Definition posts_once_to_return {A} (m : Run A) : Prop :=
  forall s s' a, m s = (s', Ok a) -> posts (events s') = posts (events s) + 1.

(** The property names of the pages the loop gets to see: every response
    up to the first that is not JSON or has no link to a next page. *)
Fixpoint names_seen (pending : list (Response JobsPage)) : list (list string) :=
  match pending with
  | [] => []
  | r :: pending' =>
      match json r with
      | None => []
      | Some j =>
          job_property_names j ::
          match next j with
          | Some next_url => if truthy next_url then names_seen pending' else []
          | None => []
          end
      end
  end.

End Provider.

End Taskcluster.

(** ** The rest of the two files *)

(** The functions that the design document's properties do not reach, and
    the words of their statements.  [build_bug_description] is left out:
    it prints the commits with the interpreter's default [repr], which
    shows where each object lies in memory. *)

(** *** More of Python *)

Module PyMore.
Import Py.

(** [s.count(c)] for one character. *)
Fixpoint count_char (c : ascii) (s : string) : nat :=
  match s with
  | EmptyString => 0
  | String a s' => (if Ascii.eqb a c then 1 else 0) + count_char c s'
  end.

(** [haystack.find(needle)], [None] standing for [-1]. *)
Fixpoint find (needle haystack : string) : option nat :=
  if String.prefix needle haystack then Some 0
  else
    match haystack with
    | EmptyString => None
    | String _ haystack' => option_map S (find needle haystack')
    end.

(** [haystack.index(needle)] *)
Definition str_index (needle haystack : string) : Result nat :=
  match find needle haystack with
  | Some i => Ok i
  | None => Raise ValueError
  end.

(** A text of whitespace only. *)
Definition blank (s : string) : Prop := all_chars isspace s.

End PyMore.

(** *** More words about scmprovider.py *)

Module SCMMore.
Import Py Logging SCM.

Definition is_removal (e : Event) : bool :=
  match e with
  | Removed _ => true
  | _ => false
  end.

(** The number of directories removed in a history. *)
Definition removals (evs : list Event) : nat := length (filter is_removal evs).

Definition same_removals {World} (s s' : State World) : Prop :=
  removals (events s') = removals (events s).

(** At most [k] commit ranges are fetched. *)
Definition fetches_at_most {World A} (k : nat) (m : M (State World) A) : Prop :=
  forall s, fetches (events (fst (m s))) <= fetches (events s) + k.

(** What the steps of a call of [check_for_update] for [library] can
    raise, the commands printing text and the file system being in
    order. *)
Definition update_error (library : Library) (e : Exn) : Prop :=
  e = IndexError
  \/ (exists detail, e = CommandError detail)
  \/ e = Exception more_unseen_message
  \/ e = Exception not_subset_message
  \/ (exists current_branch,
        e = Exception (not_contained_message (lib_revision library) current_branch)).

(** The lines that [_print_differing_commit_lists] logs. *)
Definition differing_lists_lines (list_a : list Commit) (list_a_name : string)
    (list_b : list Commit) (list_b_name : string) (problem : string) : list Event :=
  [Logged (problem +:+ ".") Error;
   Logged (list_a_name +:+ " (" +:+ str_of_int (Z.of_nat (length list_a)) +:+ ")")
     Error]
  ++ map (fun c => Logged ("  - Commit: " +:+ revision c) Error) list_a
  ++ [Logged (list_b_name +:+ " (" +:+ str_of_int (Z.of_nat (length list_b)) +:+ ")")
        Error]
  ++ map (fun c => Logged ("  - Commit: " +:+ revision c) Error) list_b.

End SCMMore.

(** *** More of apis/taskcluster.py *)

Module TaskclusterRest.
Import Py PyMore Logging Taskcluster.

(** submit_to_try *)

Definition TRY_HEADER : string :=
  "Follow the progress of your build on Treeherder:".

Definition TRY_MARKER : string := "#/jobs?repo=try&revision=".

(** The loop over the lines of the output (lines 45-50): what [try_link]
    is when the loop ends. *)
Fixpoint scan_lines (isNext : bool) (lines : list string) : option string :=
  match lines with
  | [] => None
  | l :: lines' =>
      if isNext then Some (strip (replace "remote:" "" l))
      else if substring_of TRY_HEADER l then scan_lines true lines'
      else scan_lines isNext lines'
  end.

Section Try.
Context {World : Type} `{SCM.CommandProvider World}.

(** [TaskclusterProvider.submit_to_try] (lines 37-55); [self.run] is the
    command provider's, as in [scmprovider.py]. *)
Definition submit_to_try (library : SCM.Library) : SCM.Run string :=
  output <- SCM.run ["./mach"; "try"; "auto"] ;;
  let try_link := scan_lines false (split_on LF output) in
  let not_found :=
    Exception ("Could not find the try link in output:" +:+ String LF output) in
  match try_link with
  | None => raise not_found
  | Some try_link =>
      if negb (truthy try_link) || negb (substring_of TRY_MARKER try_link)
      then raise not_found
      else
        i <- lift (str_index TRY_MARKER try_link) ;;
        ret (drop (i + String.length TRY_MARKER) try_link)
  end.

End Try.

(** failure_classifications *)

(** What [self._failure_classifications] can hold: [None], or the table
    from the identifier of a classification to its name. *)
Inductive Classifications : Type :=
| NoTable
| Table (entries : list (Json * Json)).

(** Truth value: [None] and the empty table are false. *)
Definition held (v : Classifications) : bool :=
  match v with
  | NoTable => false
  | Table [] => false
  | Table (_ :: _) => true
  end.

(** [hash(k)] is defined for every JSON value but the lists and objects. *)
Definition hashable (k : Json) : bool :=
  match k with
  | JArr _ | JObj _ => false
  | _ => true
  end.

(** [a == b] on two hashable JSON values; [True] is [1] and [False] is
    [0]. *)
Definition key_eqb (a b : Json) : bool :=
  match a, b with
  | JNull, JNull => true
  | JBool x, JBool y => Bool.eqb x y
  | JInt x, JInt y => Z.eqb x y
  | JBool x, JInt y => Z.eqb (if x then 1 else 0) y
  | JInt x, JBool y => Z.eqb x (if y then 1 else 0)
  | JStr x, JStr y => String.eqb x y
  | _, _ => false
  end.

(** [d[key] = value]: an equal key keeps its place and gets the value. *)
Fixpoint table_set (key value : Json) (d : list (Json * Json)) : list (Json * Json) :=
  match d with
  | [] => [(key, value)]
  | (k, v) :: d' =>
      if key_eqb k key then (k, value) :: d'
      else (k, v) :: table_set key value d'
  end.

(** [d.get(key)] *)
Fixpoint table_get (key : Json) (d : list (Json * Json)) : option Json :=
  match d with
  | [] => None
  | (k, v) :: d' => if key_eqb k key then Some v else table_get key d'
  end.

(** The loop over the classifications (lines 82-83): the value is read
    before the key. *)
Fixpoint fill_table (items : list Json) (d : list (Json * Json))
  : Result (list (Json * Json)) :=
  match items with
  | [] => Ok d
  | f :: items' =>
      match getitem f "name" with
      | Raise e => Raise e
      | Ok f_name =>
          match getitem f "id" with
          | Raise e => Raise e
          | Ok f_id =>
              if hashable f_id then fill_table items' (table_set f_id f_name d)
              else Raise TypeError
          end
      end
  end.

(** The provider with its cache: the second component is the attribute
    [_failure_classifications], [None] once it has been deleted. *)
Definition Provider : Type := (State * option Classifications)%type.

Definition Method (A : Type) : Type := M Provider A.

Definition calling {A} (m : Run A) : Method A :=
  fun p => let (s', r) := m (fst p) in ((s', snd p), r).

(** [self._failure_classifications] *)
Definition attribute : Method Classifications :=
  fun p =>
    match snd p with
    | Some v => (p, Ok v)
    | None => (p, Raise (AttributeError "_failure_classifications"))
    end.

(** [TaskclusterProvider._set_failure_classifications] (lines 87-88). *)
Definition _set_failure_classifications (v : Classifications) : Method unit :=
  fun p => ((fst p, Some v), Ok tt).

(** [TaskclusterProvider._del_failure_classifications] (lines 90-91). *)
Definition _del_failure_classifications : Method unit :=
  fun p =>
    match snd p with
    | Some _ => ((fst p, None), Ok tt)
    | None => (p, Raise (AttributeError "_failure_classifications"))
    end.

Section Queries.
Variable self : TaskclusterProvider.

Definition classifications_url : string :=
  url_treeherder self +:+ "api/failureclassification/".

(** [TaskclusterProvider._get_failure_classifications] (lines 72-85). *)
Definition _get_failure_classifications : Method Classifications :=
  cached <- attribute ;;
  (if negb (held cached) then
     calling (log "Requesting failure classifications" Info) ;;;
     r <- calling (requests_get self classifications_url) ;;
     j <- match json r with
          | Some j => ret j
          | None =>
              raise (Exception
                ("Could not parse the result of the failureclassification request as json. Response:"
                 +:+ String LF (text r)))
          end ;;
     items <- lift (iterate j) ;;
     failureclassifications <- lift (fill_table items []) ;;
     _set_failure_classifications (Table failureclassifications)
   else ret tt) ;;;
  attribute.

(** [TaskclusterProvider.get_push_health] (lines 147-158). *)
Definition get_push_health (revision : string) : Run Json :=
  let push_health_url :=
    url_treeherder self +:+ "api/push/health/?revision=" +:+ revision in
  log ("Requesting push health for revision " +:+ revision +:+ " from "
       +:+ push_health_url) Info ;;;
  r <- requests_get self push_health_url ;;
  match json r with
  | Some push_health => ret push_health
  | None =>
      raise (Exception
        ("Could not parse the result of the push_list as json. Url: "
         +:+ push_health_url +:+ " Response:" +:+ String LF (text r)))
  end.

End Queries.

(** Vocabulary of the statements *)

(** The rows of the pages the loop of [get_job_details] gets to see, page
    after page. *)
Fixpoint rows_seen (pending : list (Response JobsPage)) : list (list Json) :=
  match pending with
  | [] => []
  | r :: pending' =>
      match json r with
      | None => []
      | Some j =>
          results j ++
          match next j with
          | Some next_url => if truthy next_url then rows_seen pending' else []
          | None => []
          end
      end
  end.

(** The pages come to an end: every response the loop gets to see is JSON,
    and one of them has no link to a next page. *)
Fixpoint complete (pending : list (Response JobsPage)) : bool :=
  match pending with
  | [] => false
  | r :: pending' =>
      match json r with
      | None => false
      | Some j =>
          match next j with
          | Some next_url => if truthy next_url then complete pending' else true
          | None => true
          end
      end
  end.

(** [push_list['results'][0]['id']] *)
Definition first_push_id (push_list : Json) : Result Json :=
  match getitem push_list "results" with
  | Raise e => Raise e
  | Ok results =>
      match getitem_at results 0 with
      | Raise e => Raise e
      | Ok first => getitem first "id"
      end
  end.

(** [f] is a classification with the identifier and the name of [entry]. *)
Definition classification (f : Json) (entry : Json * Json) : Prop :=
  getitem f "id" = Ok (fst entry) /\ getitem f "name" = Ok (snd entry).

(** Hashable keys, no two of them equal. *)
Fixpoint distinct_keys (entries : list (Json * Json)) : Prop :=
  match entries with
  | [] => True
  | (k, _) :: entries' =>
      hashable k = true
      /\ Forall (fun entry => key_eqb k (fst entry) = false) entries'
      /\ distinct_keys entries'
  end.

(** A job that has a type name, which is not the decision task's. *)
Definition other_job (j : Struct) : Prop :=
  exists job_type_name,
    getattr j "job_type_name" = Ok job_type_name
    /\ str_eq "Gecko Decision Task" job_type_name = false.

Definition is_get (e : Taskcluster.Event) : bool :=
  match e with
  | Get _ _ => true
  | _ => false
  end.

(** The number of GET requests in a history. *)
Definition gets (evs : list Taskcluster.Event) : nat := length (filter is_get evs).

End TaskclusterRest.

(** ** Scenarios *)

(** The upstream repositories and the histories of the design document's
    scenarios, as collaborators that answer from a table. *)

Module Scenarios.
Import Py Logging SCM.

Fixpoint argv_eqb (a b : list string) : bool :=
  match a, b with
  | [], [] => true
  | x :: a', y :: b' => String.eqb x y && argv_eqb a' b'
  | _, _ => false
  end.

Fixpoint answer (table : list (list string * string)) (argv : list string)
  : Completed :=
  match table with
  | [] => Stdout ""
  | (command, out) :: table' =>
      if argv_eqb command argv then Stdout out else answer table' argv
  end.

(** A command provider that prints what the table says, and nothing for
    any other command. *)
Definition canned (table : list (list string * string)) : CommandProvider unit :=
  fun w argv => (w, answer table argv).

Definition tmp : TempFiles unit := fun w => (w, "/tmp/tmpdir").

Definition lines (ls : list string) : string := unlines ls.

Definition log_since (revision : string) : list string :=
  ["git"; "log"; "--pretty=%H|%ai|%ci"; revision +:+ "..HEAD"].

(** Upstream is [R0 -> R1 -> R2 -> R3] on [main]; [R9] is on [release]
    only.  No commit touches a file. *)
Definition history : list (list string * string) :=
  [ (["git"; "rev-parse"; "--abbrev-ref"; "HEAD"], lines ["main"]);
    (["git"; "branch"; "--contains"; "R0"], lines ["* main"]);
    (["git"; "branch"; "--contains"; "R9"], lines ["  release"; "  staging"]);
    (log_since "R0", lines ["R3|a3|c3"; "R2|a2|c2"; "R1|a1|c1"]);
    (log_since "R1", lines ["R3|a3|c3"; "R2|a2|c2"]);
    (log_since "R3", "") ].

(** The same, after upstream has rewritten [R2]: the commits since [R1]
    are no longer the last of the commits since [R0]. *)
Definition rewritten_history : list (list string * string) :=
  (log_since "R1", lines ["R3|a3|c3"; "R2x|a2|c2"]) :: history.

(** Upstream with one commit after [R0], as [git log] prints it: the
    dates have spaces in them. *)
Definition dated_history : list (list string * string) :=
  [ (log_since "R0",
     lines ["3b1f|2020-01-02 03:04:05 +0000|2020-01-02 03:04:05 +0000"]) ].

Definition start : State unit := mkState tt "/builds/worker" [].

Definition angle (revision : string) : Library :=
  mkLibrary "angle" revision "https://example.org/angle.git".

Definition on_main : Task := mkTask (Some "main").

Definition fetched (revision author_date commit_date : string) : Commit :=
  mkCommit revision author_date commit_date [] [] [] [] None None None.

(** Upstream where the commit [R1] modified one file. *)
Definition one_file_changed : list (list string * string) :=
  [ (["git"; "diff"; "--name-status"; "R1^"; "R1"],
     lines ["M" +:+ String TAB "src/a.c"]) ].

Definition R1 : Commit := fetched "R1" "a1" "c1".
Definition R2 : Commit := fetched "R2" "a2" "c2".
Definition R3 : Commit := fetched "R3" "a3" "c3".

(** The state once the commits since the library's revision are known, and
    the state once the commits since the job's version are known. *)
Definition after_first_fetch (library : Library) : State unit :=
  fst (all_new_upstream_commits (H:=canned history) library on_main
         (entered (H0:=tmp) start)).

Definition after_second_fetch (library : Library) (jobs : list Job)
    (all_new : list Commit) (version : string) : State unit :=
  fst (_commits_since (H:=canned history) version
         (fst (most_recent_job_newer_than_library_rev jobs all_new
                 (after_first_fetch library)))).

(** Stand-ins for the libraries: the rendered payload keeps the template
    and the context side by side. *)
Definition stand_ins : Taskcluster.Libraries :=
  {| Taskcluster.jsone_render template context :=
       Ok (Taskcluster.JObj [("template", template); ("context", context)]);
     Taskcluster.json_dumps := Taskcluster.json_repr;
     Taskcluster.quote_plus s := s |}.

Definition treeherder : Taskcluster.TaskclusterProvider :=
  Taskcluster.TaskclusterProvider__init__ [].

Definition push_list : Taskcluster.Response Taskcluster.Json :=
  Taskcluster.mkResponse 200 "{...}"
    (Some (Taskcluster.JObj
             [("results",
               Taskcluster.JArr [Taskcluster.JObj [("id", Taskcluster.JInt 7)]])])).

Definition page (names : list string) (rows : list (list Taskcluster.Json))
    (next : option string) : Taskcluster.Response Taskcluster.JobsPage :=
  Taskcluster.mkResponse 200 "{...}" (Some (Taskcluster.mkJobsPage rows names next)).

Definition second_page_url : string :=
  "https://treeherder.mozilla.org/api/jobs/?push_id=7&page=2".

(** Two pages; the first has no job and no property name, the second has
    one job and two property names. *)
Definition empty_first_page : Taskcluster.State :=
  Taskcluster.mkState
    [ page [] [] (Some second_page_url);
      page ["id"; "state"]
        [[Taskcluster.JInt 1; Taskcluster.JStr "completed"]] None ]
    [push_list] [].

(** Two pages with the same property names. *)
Definition two_pages : Taskcluster.State :=
  Taskcluster.mkState
    [ page ["id"; "state"]
        [[Taskcluster.JInt 1; Taskcluster.JStr "completed"]] (Some second_page_url);
      page ["id"; "state"]
        [[Taskcluster.JInt 2; Taskcluster.JStr "running"]] None ]
    [push_list] [].

(** Scenario E: the second page has one property name fewer. *)
Definition shorter_second_page : Taskcluster.State :=
  Taskcluster.mkState
    [ page ["id"; "state"]
        [[Taskcluster.JInt 1; Taskcluster.JStr "completed"]] (Some second_page_url);
      page ["id"] [[Taskcluster.JInt 2]] None ]
    [push_list] [].

Definition job (job_type_name task_id : string) : Taskcluster.Struct :=
  [("job_type_name", Taskcluster.JStr job_type_name);
   ("task_id", Taskcluster.JStr task_id)].

Definition actions_json : Taskcluster.Response Taskcluster.Json :=
  Taskcluster.mkResponse 200 "{...}"
    (Some (Taskcluster.JObj
      [("actions",
        Taskcluster.JArr
          [Taskcluster.JObj
             [("name", Taskcluster.JStr "retrigger-multiple");
              ("hookGroupId", Taskcluster.JStr "project-gecko");
              ("hookId", Taskcluster.JStr "in-tree-action");
              ("hookPayload",
               Taskcluster.JObj
                 [("decision",
                   Taskcluster.JObj
                     [("action",
                       Taskcluster.JObj
                         [("taskGroupId", Taskcluster.JStr "TG1")])])])]])])).

Definition triggered : Taskcluster.Response Taskcluster.Json :=
  Taskcluster.mkResponse 200 "{...}"
    (Some (Taskcluster.JObj
      [("status", Taskcluster.JObj [("taskId", Taskcluster.JStr "T99")])])).

(** The services answer with the action catalogue, then with the task
    created for the trigger. *)
Definition taskcluster_up : Taskcluster.State :=
  Taskcluster.mkState [] [actions_json; triggered] [].

(** The classifications of failures, as Treeherder lists them; a service
    with none; a response that is not JSON. *)
Definition classifications : Taskcluster.Response Taskcluster.Json :=
  Taskcluster.mkResponse 200 "[...]"
    (Some (Taskcluster.JArr
      [Taskcluster.JObj [("id", Taskcluster.JInt 1);
                         ("name", Taskcluster.JStr "not classified")];
       Taskcluster.JObj [("id", Taskcluster.JInt 4);
                         ("name", Taskcluster.JStr "intermittent")]])).

Definition no_classification : Taskcluster.Response Taskcluster.Json :=
  Taskcluster.mkResponse 200 "[]" (Some (Taskcluster.JArr [])).

Definition bad_gateway : Taskcluster.Response Taskcluster.Json :=
  Taskcluster.mkResponse 502 "Bad Gateway" None.

(** The services answer with the action catalogue, and refuse the
    trigger. *)
Definition trigger_refused : Taskcluster.State :=
  Taskcluster.mkState [] [actions_json; bad_gateway] [].

(** What [./mach try auto] prints after a push. *)
Definition try_output : string :=
  lines ["remote: View your changes here:";
         "remote:   https://hg.mozilla.org/try/rev/f1d2d2f9";
         "remote: Follow the progress of your build on Treeherder:";
         "remote:   https://treeherder.mozilla.org/#/jobs?repo=try&revision=f1d2d2f9";
         "remote: recorded changegroup in replication log"].

Definition try_pushed : list (list string * string) :=
  [ (["./mach"; "try"; "auto"], try_output) ].

Definition decision_job : Taskcluster.Struct := job "Gecko Decision Task" "D1".
Definition test_job : Taskcluster.Struct := job "test-linux64/opt-mochitest" "J1".

End Scenarios.

(* ================================================================== *)
(** * Part II: properties                                              *)
(* ================================================================== *)

(** ** Python primitives *)

Module PyFacts.
Import Py.

Lemma all_chars_snoc p s c :
  all_chars p s -> p c = true -> all_chars p (snoc s c).
Proof.
  unfold snoc. induction s as [|a s IH]; simpl; intuition.
Qed.

Lemma all_chars_weaken (p q : ascii -> bool) s :
  (forall c, p c = true -> q c = true) -> all_chars p s -> all_chars q s.
Proof.
  intros Hpq. induction s as [|a s IH]; simpl; intuition.
Qed.

Lemma truthy_snoc s c : truthy (snoc s c) = true.
Proof. destruct s; reflexivity. Qed.

(** The fields [split()] returns are not empty and hold no whitespace. *)
Lemma split_ws_from_fields s : forall cur,
  all_chars nonspace cur ->
  Forall (fun t => truthy t = true /\ all_chars nonspace t) (split_ws_from cur s).
Proof.
  induction s as [|c s IH]; intros cur Hcur; simpl.
  - destruct (truthy cur) eqn:E; auto.
  - destruct (isspace c) eqn:Ec.
    + destruct (truthy cur) eqn:E.
      * constructor; [auto|]. apply IH. exact I.
      * apply IH. exact I.
    + apply IH. apply all_chars_snoc; [assumption|].
      unfold nonspace. now rewrite Ec.
Qed.

Lemma split_ws_fields s :
  Forall (fun t => truthy t = true /\ all_chars nonspace t) (split_ws s).
Proof. apply split_ws_from_fields. exact I. Qed.

Lemma lstrip_nonspace s : all_chars nonspace s -> lstrip s = s.
Proof.
  destruct s as [|c s]; simpl; [reflexivity|].
  unfold nonspace. intros [Hc _].
  destruct (isspace c); [discriminate|reflexivity].
Qed.

Lemma rstrip_nonspace s : all_chars nonspace s -> rstrip s = s.
Proof.
  induction s as [|c s IH]; simpl; [reflexivity|].
  unfold nonspace at 1. intros [Hc Hs].
  rewrite (IH Hs). destruct (isspace c); [discriminate|reflexivity].
Qed.

Lemma strip_nonspace s : all_chars nonspace s -> strip s = s.
Proof.
  intros Hs. unfold strip. rewrite (lstrip_nonspace s Hs).
  now apply rstrip_nonspace.
Qed.

(** A string without the separator is a single field. *)
Lemma split_on_absent sep s :
  all_chars (fun c => negb (Ascii.eqb c sep)) s -> split_on sep s = [s].
Proof.
  induction s as [|c s IH]; simpl; [reflexivity|].
  intros [Hc Hs]. rewrite (IH Hs).
  destruct (Ascii.eqb c sep); [discriminate|reflexivity].
Qed.

Lemma append_snoc s c t : snoc s c +:+ t = s +:+ String c t.
Proof. unfold snoc. induction s as [|a s IH]; simpl; [reflexivity|now rewrite IH]. Qed.

(** [split()] reads a run of non-whitespace characters into the field. *)
Lemma split_ws_from_word l : forall cur rest,
  all_chars nonspace l ->
  split_ws_from cur (l +:+ rest) = split_ws_from (cur +:+ l) rest.
Proof.
induction l as [|c l IH]; intros cur rest; simpl.
- intros _. f_equal. induction cur as [|a cur IHc]; simpl; congruence.
- unfold nonspace at 1. intros [Hc Hl].
  destruct (isspace c); [discriminate|].
  rewrite (IH _ _ Hl). now rewrite append_snoc.
Qed.

(** A text whose lines hold no whitespace splits into its lines. *)
Lemma split_ws_unlines ls :
  Forall (fun l => truthy l = true /\ all_chars nonspace l) ls ->
  split_ws (unlines ls) = ls.
Proof.
induction 1 as [|l ls [Hl Hns] _ IH]; [reflexivity|].
unfold split_ws. simpl unlines. rewrite (split_ws_from_word l "" _ Hns).
simpl. rewrite Hl. now f_equal.
Qed.

(** A field without the separator, then the separator. *)
Lemma split_on_field sep x rest :
  all_chars (fun c => negb (Ascii.eqb c sep)) x ->
  split_on sep (x +:+ String sep rest) = x :: split_on sep rest.
Proof.
induction x as [|c x IH]; simpl.
- intros _. now rewrite Ascii.eqb_refl.
- intros [Hc Hx]. rewrite (IH Hx).
  destruct (Ascii.eqb c sep); [discriminate|reflexivity].
Qed.

Lemma truthy_append_bar s t : truthy (s +:+ String "|" t) = true.
Proof. destruct s; reflexivity. Qed.

Lemma all_chars_append p s t :
  all_chars p s -> all_chars p t -> all_chars p (s +:+ t).
Proof. induction s as [|a s IH]; simpl; intuition. Qed.

Lemma nonspace_not_tab c : nonspace c = true -> negb (Ascii.eqb c TAB) = true.
Proof.
  unfold nonspace. destruct (Ascii.eqb_spec c TAB) as [->|]; [|reflexivity].
  discriminate.
Qed.

Lemma prefix_append s t : String.prefix s (s +:+ t) = true.
Proof.
  induction s as [|c s IH]; simpl.
  - now destruct t.
  - destruct (ascii_dec c c); [assumption|contradiction].
Qed.

Lemma substring_of_here s t : substring_of s (s +:+ t) = true.
Proof.
  destruct s as [|c s]; simpl.
  - destruct t; reflexivity.
  - destruct (ascii_dec c c); [|contradiction].
    now rewrite prefix_append.
Qed.

Lemma substring_of_later s pre t :
  substring_of s t = true -> substring_of s (pre +:+ t) = true.
Proof.
  intros Hs. induction pre as [|c pre IH]; simpl; [assumption|].
  rewrite IH. apply orb_true_r.
Qed.

(** [s] occurs in [pre + s + post]. *)
Lemma substring_of_middle s pre post :
  substring_of s (pre +:+ s +:+ post) = true.
Proof. apply substring_of_later, substring_of_here. Qed.

(** *** The state and exception monad *)

Section Combinators.
Context {St : Type}.

Lemma raises_only_ret {A} P (a : A) : raises_only (St:=St) P (ret a).
Proof. intros s s' e [=]. Qed.

Lemma raises_only_raise {A} (P : Exn -> Prop) e :
  P e -> raises_only (St:=St) (A:=A) P (raise e).
Proof. intros He s s' e' [= _ <-]. exact He. Qed.

Lemma raises_only_lift {A} (P : Exn -> Prop) (r : Result A) :
  (forall e, r = Raise e -> P e) -> raises_only (St:=St) P (lift r).
Proof. intros Hr s s' e [= _ ->]. now apply Hr. Qed.

Lemma raises_only_bind {A B} P (m : M St A) (f : A -> M St B) :
  raises_only P m -> (forall a, raises_only P (f a)) ->
  raises_only P (bind m f).
Proof.
  intros Hm Hf s s' e. unfold bind.
  destruct (m s) as [s1 [a|e1]] eqn:E.
  - apply Hf.
  - intros [= _ <-]. exact (Hm _ _ _ E).
Qed.

Lemma raises_only_for_each {A} P (xs : list A) (body : A -> M St unit) :
  (forall x, raises_only P (body x)) -> raises_only P (for_each xs body).
Proof.
  intros Hbody. induction xs as [|x xs IH]; simpl.
  - apply raises_only_ret.
  - apply raises_only_bind; auto.
Qed.

Lemma raises_only_comprehension {A B} P (xs : list A) (f : A -> M St B) :
  (forall x, raises_only P (f x)) -> raises_only P (comprehension xs f).
Proof.
  intros Hf. induction xs as [|x xs IH]; simpl.
  - apply raises_only_ret.
  - apply raises_only_bind; [auto|]. intros y.
    apply raises_only_bind; [exact IH|]. intros ys. apply raises_only_ret.
Qed.

Lemma raises_only_try_finally {A} P (body : M St A) (cleanup : M St unit) :
  raises_only P body -> raises_only P cleanup ->
  raises_only P (try_finally body cleanup).
Proof.
  intros Hb Hc s s' e. unfold try_finally.
  destruct (body s) as [s1 r] eqn:Eb.
  destruct (cleanup s1) as [s2 [u|e2]] eqn:Ec.
  - intros [= _ ->]. exact (Hb _ _ _ Eb).
  - intros [= _ <-]. exact (Hc _ _ _ Ec).
Qed.

Lemma raises_only_weaken {A} (P Q : Exn -> Prop) (m : M St A) :
  (forall e, P e -> Q e) -> raises_only P m -> raises_only Q m.
Proof. intros HPQ Hm s s' e E. exact (HPQ _ (Hm _ _ _ E)). Qed.

Variable R : St -> St -> Prop.
Hypothesis R_refl : forall s, R s s.
Hypothesis R_trans : forall s1 s2 s3, R s1 s2 -> R s2 s3 -> R s1 s3.

Lemma preserves_ret {A} (a : A) : preserves R (ret a).
Proof. intros s. apply R_refl. Qed.

Lemma preserves_raise {A} e : preserves (A:=A) R (raise e).
Proof. intros s. apply R_refl. Qed.

Lemma preserves_lift {A} (r : Result A) : preserves R (lift r).
Proof. intros s. apply R_refl. Qed.

Lemma preserves_bind {A B} (m : M St A) (f : A -> M St B) :
  preserves R m -> (forall a, preserves R (f a)) -> preserves R (bind m f).
Proof.
  intros Hm Hf s. unfold bind. specialize (Hm s).
  destruct (m s) as [s1 [a|e]]; simpl in *.
  - eapply R_trans; [exact Hm|]. apply Hf.
  - exact Hm.
Qed.

Lemma preserves_for_each {A} (xs : list A) (body : A -> M St unit) :
  (forall x, preserves R (body x)) -> preserves R (for_each xs body).
Proof.
  intros Hbody. induction xs as [|x xs IH]; simpl.
  - apply preserves_ret.
  - apply preserves_bind; auto.
Qed.

Lemma preserves_comprehension {A B} (xs : list A) (f : A -> M St B) :
  (forall x, preserves R (f x)) -> preserves R (comprehension xs f).
Proof.
  intros Hf. induction xs as [|x xs IH]; simpl.
  - apply preserves_ret.
  - apply preserves_bind; [auto|]. intros y.
    apply preserves_bind; [exact IH|]. intros ys. apply preserves_ret.
Qed.

End Combinators.

Lemma bind_assoc {St A B C} (m : M St A) (f : A -> M St B) (g : B -> M St C) s :
  bind (bind m f) g s = bind m (fun a => bind (f a) g) s.
Proof. unfold bind. destruct (m s) as [s1 [a|e]]; reflexivity. Qed.

Lemma bind_ok {St A B} (m : M St A) (f : A -> M St B) s s1 a :
  m s = (s1, Ok a) -> bind m f s = f a s1.
Proof. intros E. unfold bind. now rewrite E. Qed.

Lemma bind_ok_inv {St A B} (m : M St A) (f : A -> M St B) s s' b :
  bind m f s = (s', Ok b) ->
  exists s1 a, m s = (s1, Ok a) /\ f a s1 = (s', Ok b).
Proof.
unfold bind. destruct (m s) as [s1 [a|e]]; [|discriminate].
intros E. now exists s1, a.
Qed.

(** A comprehension of results that are all there. *)
Lemma comprehension_lift_ok {St A B} (f : A -> Result B) (g : A -> B) xs :
  Forall (fun x => f x = Ok (g x)) xs ->
  forall s : St, comprehension xs (fun x => lift (f x)) s = (s, Ok (map g xs)).
Proof.
induction 1 as [|x xs Hx _ IH]; intros s; [reflexivity|].
simpl. unfold bind at 1. unfold lift at 1. rewrite Hx.
unfold bind at 1. now rewrite IH.
Qed.

(** A comprehension returns one value for each element. *)
Lemma comprehension_length {St A B} (xs : list A) (f : A -> M St B) :
  forall s s' ys, comprehension xs f s = (s', Ok ys) -> length ys = length xs.
Proof.
  induction xs as [|x xs IH]; simpl; intros s s' ys.
  - intros [= _ <-]. reflexivity.
  - unfold bind at 1. destruct (f x s) as [s1 [y|e]]; [|discriminate].
    unfold bind at 1. destruct (comprehension xs f s1) as [s2 [ys'|e]] eqn:E;
      [|discriminate].
    intros [= _ <-]. simpl. f_equal. exact (IH _ _ _ E).
Qed.

(** What holds between each element and its value holds between the lists. *)
Lemma comprehension_Forall2 {St A B} (Q : A -> B -> Prop)
    (xs : list A) (f : A -> M St B) :
  (forall x s s' y, f x s = (s', Ok y) -> Q x y) ->
  forall s s' ys, comprehension xs f s = (s', Ok ys) -> Forall2 Q xs ys.
Proof.
  intros Hf. induction xs as [|x xs IH]; simpl; intros s s' ys.
  - intros [= _ <-]. constructor.
  - unfold bind at 1. destruct (f x s) as [s1 [y|e]] eqn:Ex; [|discriminate].
    unfold bind at 1. destruct (comprehension xs f s1) as [s2 [ys'|e]] eqn:E;
      [|discriminate].
    intros [= _ <-]. constructor; [exact (Hf _ _ _ _ Ex)|exact (IH _ _ _ E)].
Qed.

End PyFacts.

(** ** components/scmprovider.py *)

Module SCMFacts.
Import Py PyFacts Logging SCM.

(** *** Commit *)

(** C9.  Two commits are equal exactly when their revisions are: the
    dates, the file lists, the summary and the description play no part.
    A commit is never equal to a value that is not a commit. *)
Theorem Commit_eq_iff_revision :
  (forall a b : Commit,
      Commit__eq__ a (VCommit b) = true <-> revision a = revision b)
  /\ (forall (a : Commit) (v : Value),
        isinstance_Commit v = false -> Commit__eq__ a v = false).
Proof.
  split.
  - intros a b. simpl. apply String.eqb_eq.
  - intros a [b| |b|n|s|xs]; simpl; intros E; try reflexivity; discriminate.
Qed.

Lemma commits_eq_map_revision xs : forall ys,
  commits_eq xs ys = true <-> map revision xs = map revision ys.
Proof.
  induction xs as [|x xs IH]; intros [|y ys]; simpl; split; intros E;
    try reflexivity; try discriminate.
  - apply andb_true_iff in E as [Ex Exs].
    apply String.eqb_eq in Ex. apply IH in Exs. congruence.
  - injection E as Ex Exs. apply andb_true_iff. split.
    + now apply String.eqb_eq.
    + now apply IH.
Qed.

Lemma Commit__init__raises pretty_line e :
  Commit__init__ pretty_line = Raise e -> e = IndexError.
Proof.
  unfold Commit__init__, index.
  destruct (nth_error _ 0); [|now intros [= <-]].
  destruct (nth_error _ 1); [|now intros [= <-]].
  destruct (nth_error _ 2); [discriminate|now intros [= <-]].
Qed.

Section Facts.
Context {World : Type} `{CommandProvider World} `{TempFiles World}.

(** *** populate_details *)

(** A field that [split()] returned holds no tab, so [split("\t")]
    leaves it whole and [parts[1]] does not exist: the loop body raises
    before it touches the commit. *)
Lemma record_changed_file_raises f (sc : State World * Commit) :
  truthy f = true -> all_chars nonspace f ->
  record_changed_file f sc = (sc, Raise IndexError).
Proof.
  intros Hf Hns. unfold record_changed_file.
rewrite (strip_nonspace f Hns), Hf.
rewrite (split_on_absent TAB f)
  by (eapply all_chars_weaken; [apply nonspace_not_tab|exact Hns]).
unfold bind, lift, index. simpl.
destruct (String.eqb f "M"); [reflexivity|].
destruct (String.eqb f "A"); [reflexivity|].
destruct (String.eqb f "D"); reflexivity.
Qed.

Lemma for_each_changed_file out (sc : State World * Commit) :
  for_each (split_ws out) record_changed_file sc
  = (sc, match split_ws out with [] => Ok tt | _ :: _ => Raise IndexError end).
Proof.
  pose proof (split_ws_fields out) as Hfields.
  destruct (split_ws out) as [|f fs]; [reflexivity|].
  inversion Hfields as [|? ? [Hf Hns] _]; subst.
  simpl. unfold bind. now rewrite record_changed_file_raises.
Qed.

(** What [populate_details] does, case by case: the diff fails; the diff
    lists something; the summary fails; the description fails; all three
    commands answer and the diff lists nothing. *)
Lemma populate_details_cases (s : State World) (c : Commit) :
  populate_details (s, c) =
  match run (["git"; "diff"; "--name-status"] ++ [revision c +:+ "^"; revision c]) s with
  | (s1, Raise e) => ((s1, c), Raise e)
  | (s1, Ok out) =>
      match split_ws out with
      | _ :: _ => ((s1, c), Raise IndexError)
      | [] =>
          match run ["git"; "log"; "--pretty=%s"; "-1"; revision c] s1 with
          | (s2, Raise e) => ((s2, c), Raise e)
          | (s2, Ok summary) =>
              match run ["git"; "log"; "--pretty=%b"; "-1"; revision c] s2 with
              | (s3, Raise e) => ((s3, set_summary summary c), Raise e)
              | (s3, Ok description) =>
                  ((s3,
                    set_revision_link
                      ("https://chromium.googlesource.com/angle/angle" +:+ "/+/"
                       +:+ revision c)
                      (set_description description (set_summary summary c))),
                   Ok tt)
              end
          end
      end
  end.
Proof.
unfold populate_details.
unfold bind at 1. unfold self_get at 1. cbn [snd].
unfold bind at 1. unfold calling at 1. cbn [fst snd].
destruct (run _ s) as [s1 [out|e]]; [|reflexivity].
unfold bind at 1. rewrite for_each_changed_file.
destruct (split_ws out) as [|f fs]; [|reflexivity].
unfold bind at 1. unfold self_get at 1. cbn [snd].
unfold bind at 1. unfold calling at 1. cbn [fst snd].
destruct (run _ s1) as [s2 [summary|e]]; [|reflexivity].
unfold bind at 1. unfold self_set at 1. cbn [fst snd].
unfold bind at 1. unfold self_get at 1. cbn [snd].
unfold bind at 1. unfold calling at 1. cbn [fst snd].
change (revision (set_summary summary c)) with (revision c).
destruct (run _ s2) as [s3 [description|e]]; [|reflexivity].
reflexivity.
Qed.

Lemma populated_cases (s : State World) (c : Commit) :
  populated c s =
  match populate_details (s, c) with
  | (sc, Ok _) => (fst sc, Ok (snd sc))
  | (sc, Raise e) => (fst sc, Raise e)
  end.
Proof. reflexivity. Qed.

(** The answer of a command provider whose output is fixed depends on the
    command alone. *)
Lemma run_fixed_output :
  (forall w w' argv, snd (run_command w argv) = snd (run_command w' argv)) ->
  forall argv (s s' : State World), snd (run argv s) = snd (run argv s').
Proof.
intros Hfixed argv s s'. unfold run.
specialize (Hfixed (world s) (world s') argv).
destruct (run_command (world s) argv) as [w1 r1].
destruct (run_command (world s') argv) as [w2 r2].
simpl in Hfixed. subst r2. now destruct r1.
Qed.

(** In the second call, a command answers as it did in the first. *)
Ltac same_answer Hfixed E :=
  match type of E with
  | run ?argv ?s = (?s1, ?r) =>
      match goal with
      | |- context [run argv ?s'] =>
          let Heq := fresh "Heq" in
          let s2 := fresh "s" in
          let r2 := fresh "r" in
          pose proof (run_fixed_output Hfixed argv s' s) as Heq;
          rewrite E in Heq;
          destruct (run argv s') as [s2 r2];
          cbn [snd] in Heq; subst r2
      end
  end.

(** C6.  With a version-control collaborator whose output is fixed, a
    second call of [populate_details] leaves the commit as the first call
    left it, and ends as the first call ended. *)
Theorem populate_details_idempotent :
  (forall w w' argv, snd (run_command w argv) = snd (run_command w' argv)) ->
  forall (s : State World) (c : Commit),
    let once := populate_details (s, c) in
    let twice := populate_details (fst once) in
    snd (fst twice) = snd (fst once) /\ snd twice = snd once.
Proof.
intros Hfixed s c once twice. subst twice once.
rewrite (populate_details_cases s c).
destruct (run _ s) as [s1 [out|e]] eqn:E1.
2:{ cbn [fst]. rewrite populate_details_cases.
    same_answer Hfixed E1. split; reflexivity. }
destruct (split_ws out) as [|f fs] eqn:Eout.
2:{ cbn [fst]. rewrite populate_details_cases.
    same_answer Hfixed E1. rewrite Eout. split; reflexivity. }
destruct (run _ s1) as [s2 [summary|e]] eqn:E2.
2:{ cbn [fst]. rewrite populate_details_cases.
    same_answer Hfixed E1. rewrite Eout.
    same_answer Hfixed E2. split; reflexivity. }
destruct (run _ s2) as [s3 [description|e]] eqn:E3.
- cbn [fst]. rewrite populate_details_cases.
  cbn [revision set_revision_link set_description set_summary].
  same_answer Hfixed E1. rewrite Eout.
  same_answer Hfixed E2. same_answer Hfixed E3.
  split; reflexivity.
- cbn [fst]. rewrite populate_details_cases.
  cbn [revision set_summary].
  same_answer Hfixed E1. rewrite Eout.
  same_answer Hfixed E2. same_answer Hfixed E3.
  split; reflexivity.
Qed.

(** *** The history of a call *)

Lemma fetches_app evs evs' : fetches (evs ++ evs') = fetches evs + fetches evs'.
Proof. unfold fetches. now rewrite filter_app, length_app. Qed.

Lemma same_fetches_refl (s : State World) : same_fetches s s.
Proof. reflexivity. Qed.

Lemma same_fetches_trans (s1 s2 s3 : State World) :
  same_fetches s1 s2 -> same_fetches s2 s3 -> same_fetches s1 s3.
Proof. unfold same_fetches. congruence. Qed.

Lemma run_events argv (s : State World) :
  events (fst (run argv s)) = events s ++ [Ran argv].
Proof.
unfold run. destruct (run_command (world s) argv) as [w [out|detail]]; reflexivity.
Qed.

Lemma run_same_fetches argv :
  is_commits_since argv = false -> preserves same_fetches (run argv).
Proof.
intros Hargv s. unfold same_fetches. rewrite run_events, fetches_app.
unfold fetches at 2. simpl. rewrite Hargv. simpl. lia.
Qed.

Lemma log_same_fetches msg level :
  preserves (St:=State World) same_fetches (log msg level).
Proof.
intros s. unfold same_fetches, log. simpl. rewrite fetches_app.
unfold fetches at 2. simpl. lia.
Qed.

Lemma run_raises argv :
  raises_only (fun e => exists detail, e = CommandError detail) (run argv).
Proof.
intros s s' e. unfold run.
destruct (run_command (world s) argv) as [w [out|detail]]; [discriminate|].
intros [= _ <-]. now exists detail.
Qed.

Lemma log_raises P msg level : raises_only (St:=State World) P (log msg level).
Proof. intros s s' e [=]. Qed.

(** Logging a line for each element of a list does not fail. *)
Lemma for_each_log_ok {A} (xs : list A) (line : A -> string) level :
  forall s : State World, snd (for_each xs (fun x => log (line x) level) s) = Ok tt.
Proof.
induction xs as [|x xs IH]; intros s; [reflexivity|].
simpl. unfold bind at 1. unfold log at 1. apply IH.
Qed.

Lemma for_each_log_events {A} (xs : list A) (line : A -> string) level :
  forall s : State World,
    events (fst (for_each xs (fun x => log (line x) level) s))
    = events s ++ map (fun x => Logged (line x) level) xs.
Proof.
induction xs as [|x xs IH]; intros s; simpl.
- now rewrite app_nil_r.
- unfold bind at 1. unfold log at 1. rewrite IH. simpl.
  now rewrite <- app_assoc.
Qed.

Lemma contains_In x xs : contains x xs = true <-> In x xs.
Proof.
unfold contains. rewrite existsb_exists. split.
- intros [y [Hy E]]. apply String.eqb_eq in E. now subst.
- intros Hx. exists x. split; [assumption|apply String.eqb_refl].
Qed.

(** *** Step 6: the details *)

Lemma diff_is_no_fetch r :
  is_commits_since (["git"; "diff"; "--name-status"] ++ [r +:+ "^"; r]) = false.
Proof. reflexivity. Qed.

Lemma populated_same_commit c (s s' : State World) c' :
  populated c s = (s', Ok c') -> same_commit c c'.
Proof.
rewrite populated_cases, populate_details_cases.
destruct (run _ s) as [s1 [out|e]]; [|discriminate].
destruct (split_ws out); [|discriminate].
destruct (run _ s1) as [s2 [summary|e]]; [|discriminate].
destruct (run _ s2) as [s3 [description|e]]; [|discriminate].
intros [= _ <-]. repeat split.
Qed.

Lemma populated_same_fetches c : preserves same_fetches (populated c).
Proof.
intros s. rewrite populated_cases, populate_details_cases.
pose proof (run_same_fetches _ (diff_is_no_fetch (revision c)) s) as H1.
destruct (run _ s) as [s1 [out|e]]; [|exact H1].
destruct (split_ws out); [|exact H1].
assert (E2 : is_commits_since ["git"; "log"; "--pretty=%s"; "-1"; revision c] = false)
  by reflexivity.
pose proof (run_same_fetches _ E2 s1) as H2.
destruct (run _ s1) as [s2 [summary|e]];
  [|exact (same_fetches_trans _ _ _ H1 H2)].
assert (E3 : is_commits_since ["git"; "log"; "--pretty=%b"; "-1"; revision c] = false)
  by reflexivity.
pose proof (run_same_fetches _ E3 s2) as H3.
destruct (run _ s2) as [s3 [description|e]];
  exact (same_fetches_trans _ _ _ H1 (same_fetches_trans _ _ _ H2 H3)).
Qed.

Lemma populated_raises c : raises_only reconciliation_error (populated c).
Proof.
intros s s' e. rewrite populated_cases, populate_details_cases.
pose proof (run_raises (["git"; "diff"; "--name-status"]
                          ++ [revision c +:+ "^"; revision c]) s) as H1.
destruct (run _ s) as [s1 [out|e1]].
2:{ intros [= _ <-]. right; left. eapply H1. reflexivity. }
destruct (split_ws out).
2:{ intros [= _ <-]. now left. }
pose proof (run_raises ["git"; "log"; "--pretty=%s"; "-1"; revision c] s1) as H2.
destruct (run _ s1) as [s2 [summary|e2]].
2:{ intros [= _ <-]. right; left. eapply H2. reflexivity. }
pose proof (run_raises ["git"; "log"; "--pretty=%b"; "-1"; revision c] s2) as H3.
destruct (run _ s2) as [s3 [description|e3]]; [discriminate|].
intros [= _ <-]. right; left. eapply H3. reflexivity.
Qed.

Lemma populate_all_same_commits cs (s s' : State World) cs' :
  populate_all cs s = (s', Ok cs') -> Forall2 same_commit cs cs'.
Proof.
apply comprehension_Forall2. intros c s1 s2 c'. apply populated_same_commit.
Qed.

Lemma populate_all_same_fetches cs : preserves same_fetches (populate_all cs).
Proof.
apply preserves_comprehension;
  [exact same_fetches_refl|exact same_fetches_trans|exact populated_same_fetches].
Qed.

Lemma populate_all_raises cs : raises_only reconciliation_error (populate_all cs).
Proof. apply raises_only_comprehension. exact populated_raises. Qed.

Lemma same_commit_revisions cs cs' :
  Forall2 same_commit cs cs' -> map revision cs' = map revision cs.
Proof.
induction 1 as [|c c' cs cs' [Hc _] _ IH]; simpl; [reflexivity|]. congruence.
Qed.

(** *** Steps 2 and 4: the commit ranges *)

Lemma _commits_since_raises r : raises_only reconciliation_error (_commits_since r).
Proof.
unfold _commits_since. apply raises_only_bind.
- eapply raises_only_weaken; [|apply run_raises]. intros e He. right; now left.
- intros out. apply raises_only_comprehension. intros line.
  apply raises_only_lift. intros e He. left.
  exact (Commit__init__raises _ _ He).
Qed.

Lemma clean_field_nonspace f : clean_field f -> all_chars nonspace f.
Proof.
apply all_chars_weaken. intros c Hc. now apply andb_true_iff in Hc.
Qed.

Lemma clean_field_no_bar f :
  clean_field f -> all_chars (fun c => negb (Ascii.eqb c "|")) f.
Proof.
apply all_chars_weaken. intros c Hc. now apply andb_true_iff in Hc.
Qed.

Lemma Commit__init__entry entry :
  clean_entry entry -> Commit__init__ (entry_line entry) = Ok (entry_commit entry).
Proof.
destruct entry as [[r a] c]. intros (Hr & Ha & Hc).
unfold Commit__init__, entry_line. simpl append.
rewrite (split_on_field "|" r _ (clean_field_no_bar _ Hr)).
rewrite (split_on_field "|" a _ (clean_field_no_bar _ Ha)).
now rewrite (split_on_absent "|" c (clean_field_no_bar _ Hc)).
Qed.

Lemma entry_line_field entry :
  clean_entry entry ->
  truthy (entry_line entry) = true /\ all_chars nonspace (entry_line entry).
Proof.
destruct entry as [[r a] c]. intros (Hr & Ha & Hc).
unfold entry_line. split; [apply truthy_append_bar|].
apply all_chars_append; [now apply clean_field_nonspace|].
simpl. split; [reflexivity|].
apply all_chars_append; [now apply clean_field_nonspace|].
simpl. split; [reflexivity|]. now apply clean_field_nonspace.
Qed.

(** X1.  What [_commits_since] does return: when no field of the log holds
    whitespace or a bar, the commits of the log lines, oldest first. *)
Lemma commits_since_on_clean_log revision (s : State World) w entries :
  Forall clean_entry entries ->
  run_command (world s)
    ["git"; "log"; "--pretty=%H|%ai|%ci"; revision +:+ "..HEAD"]
    = (w, Stdout (unlines (map entry_line entries))) ->
  snd (_commits_since revision s) = Ok (rev (map entry_commit entries)).
Proof.
intros Hclean Hrun. unfold _commits_since, bind, run. rewrite Hrun.
assert (Hfields : Forall (fun l => truthy l = true /\ all_chars nonspace l)
                    (map entry_line entries)).
{ apply Forall_map. revert Hclean. apply Forall_impl. exact entry_line_field. }
rewrite (split_ws_unlines _ Hfields).
assert (Hstrip : map strip (map entry_line entries) = map entry_line entries).
{ rewrite <- (map_id (map entry_line entries)) at 2.
  apply map_ext_Forall. revert Hfields. apply Forall_impl.
  intros l [_ Hl]. now apply strip_nonspace. }
rewrite Hstrip, <- map_rev.
assert (Hfilter : filter truthy (map entry_line (rev entries))
                  = map entry_line (rev entries)).
{ apply forallb_filter_id. apply forallb_forall. intros l Hl.
  apply in_map_iff in Hl as (e & <- & He). apply in_rev in He.
  rewrite Forall_forall in Hclean. exact (proj1 (entry_line_field e (Hclean e He))). }
rewrite Hfilter.
set (parsed l := match Commit__init__ l with
                 | Ok c => c
                 | Raise _ => entry_commit ("", "", "")
                 end).
rewrite (comprehension_lift_ok Commit__init__ parsed).
- cbn [snd]. f_equal. rewrite map_map, <- map_rev.
  apply map_ext_Forall. apply Forall_rev. revert Hclean. apply Forall_impl.
  intros e He. unfold parsed. now rewrite (Commit__init__entry e He).
- apply Forall_map. apply Forall_rev. revert Hclean. apply Forall_impl.
  intros e He. unfold parsed. now rewrite (Commit__init__entry e He).
Qed.

(** *** Step 5: the check *)

Lemma _print_differing_commit_lists_raises list_a a list_b b problem
    (s : State World) :
  snd (_print_differing_commit_lists list_a a list_b b problem s)
  = Raise (Exception problem).
Proof.
unfold _print_differing_commit_lists.
unfold bind at 1. unfold log at 1.
unfold bind at 1. unfold log at 1.
unfold bind at 1.
pose proof (for_each_log_ok list_a (fun c => "  - " +:+ Commit__str__ c) Error) as Ha.
match goal with |- context [for_each list_a ?f ?st] =>
  specialize (Ha st); destruct (for_each list_a f st) as [sa ra] end.
simpl in Ha. subst ra.
unfold bind at 1. unfold log at 1.
unfold bind at 1.
pose proof (for_each_log_ok list_b (fun c => "  - " +:+ Commit__str__ c) Error) as Hb.
match goal with |- context [for_each list_b ?f ?st] =>
  specialize (Hb st); destruct (for_each list_b f st) as [sb rb] end.
simpl in Hb. subst rb. reflexivity.
Qed.

Lemma offsetIndex_below_length (all_new unseen : list Commit) :
  unseen <> [] ->
  (offsetIndex all_new unseen =? Z.of_nat (length all_new))%Z = false.
Proof.
intros Hunseen. apply Z.eqb_neq. unfold offsetIndex.
destruct unseen; [contradiction|]. simpl length. lia.
Qed.

(** How step 5 ends, the unseen list not being empty. *)
Lemma check_strict_ordered_subset_result all_new unseen (s : State World) :
  unseen <> [] ->
  snd (check_strict_ordered_subset all_new unseen s) =
  if (offsetIndex all_new unseen <? 0)%Z then Raise (Exception more_unseen_message)
  else if negb (commits_eq (slice_from (offsetIndex all_new unseen) all_new) unseen)
       then Raise (Exception not_subset_message)
       else Ok tt.
Proof.
intros Hunseen. unfold check_strict_ordered_subset.
unfold bind at 1. unfold log at 1.
rewrite (offsetIndex_below_length all_new unseen Hunseen). cbn [negb].
unfold bind at 1. unfold ret at 1.
unfold bind at 1.
destruct (offsetIndex all_new unseen <? 0)%Z.
- match goal with |- context [_print_differing_commit_lists ?a ?b ?c ?d ?e ?st] =>
    pose proof (_print_differing_commit_lists_raises a b c d e st) as Hp;
    destruct (_print_differing_commit_lists a b c d e st) as [sp rp] end.
  simpl in Hp. subst rp. reflexivity.
- unfold ret at 1.
  destruct (negb (commits_eq _ unseen)); [|reflexivity].
  apply _print_differing_commit_lists_raises.
Qed.

(** *** check_for_update, step by step *)

Lemma classification_result jobs all_new (s : State World) :
  snd (most_recent_job_newer_than_library_rev jobs all_new s)
  = Ok (newer_than_library_rev jobs all_new).
Proof.
destruct jobs as [|job rest]; simpl; [reflexivity|].
destruct (contains _ _); reflexivity.
Qed.

Lemma classification_same_fetches jobs all_new :
  preserves (St:=State World) same_fetches
    (most_recent_job_newer_than_library_rev jobs all_new).
Proof.
intros s. destruct jobs as [|job rest]; simpl.
- apply (log_same_fetches _ _ s).
- destruct (contains _ _); unfold bind, ret; simpl; apply (log_same_fetches _ _ s).
Qed.

(** Steps 2 to 6, case by case. *)
Lemma unseen_upstream_commits_cases library jobs all_new (s : State World) :
  unseen_upstream_commits library jobs all_new s =
  match all_new with
  | [] =>
      (fst (log ("Checking for updates to " +:+ name library
                 +:+ " but no new upstream commits were found from our current in-tree revision "
                 +:+ lib_revision library +:+ ".") Info s), Ok [])
  | _ :: _ =>
      let s3 := fst (most_recent_job_newer_than_library_rev jobs all_new s) in
      match jobs with
      | most_recent_job :: _ =>
          if contains (version most_recent_job) (map revision all_new) then
            match _commits_since (version most_recent_job) s3 with
            | (s4, Raise e) => (s4, Raise e)
            | (s4, Ok []) =>
                (fst (log (already_processed_message most_recent_job) Info s4), Ok [])
            | (s4, Ok (c :: unseen)) =>
                (check_strict_ordered_subset all_new (c :: unseen) ;;;
                 populate_all (c :: unseen)) s4
            end
          else populate_all all_new s3
      | [] => populate_all all_new s3
      end
  end.
Proof.
unfold unseen_upstream_commits.
destruct all_new as [|c0 all_new]; [reflexivity|].
unfold bind at 1.
pose proof (classification_result jobs (c0 :: all_new) s) as Hn.
destruct (most_recent_job_newer_than_library_rev jobs (c0 :: all_new) s)
  as [s3 r]. simpl in Hn. subst r. cbn [fst].
destruct jobs as [|job rest]; [reflexivity|].
cbn [newer_than_library_rev].
destruct (contains (version job) _); [|reflexivity].
unfold bind at 1.
destruct (_commits_since (version job) s3) as [s4 [[|c unseen]|e]]; reflexivity.
Qed.

(** The [try] block runs in a fresh directory; the [finally] block leaves
    it, whatever the [try] block did. *)
Lemma check_for_update_cases library task jobs (s0 : State World) :
  check_for_update library task jobs s0 =
  let (s, r) :=
    (all_new <- all_new_upstream_commits library task ;;
     unseen_upstream_commits library jobs all_new) (entered s0) in
  (cleaned_up s0 s, r).
Proof.
unfold check_for_update, cleaned_up, entered.
unfold bind at 1. unfold os_getcwd at 1.
unfold bind at 1. unfold tempfile_mkdtemp at 1.
destruct (mkdtemp (world s0)) as [w dir].
unfold bind at 1. unfold os_chdir at 1. unfold try_finally.
cbn [world cwd events].
match goal with |- context [Py.bind ?m ?f ?st] =>
  destruct (Py.bind m f st) as [s r] end.
reflexivity.
Qed.

Lemma check_for_update_after_all_new library task jobs (s0 s2 : State World) all_new :
  all_new_upstream_commits library task (entered s0) = (s2, Ok all_new) ->
  check_for_update library task jobs s0 =
  let (s, r) := unseen_upstream_commits library jobs all_new s2 in
  (cleaned_up s0 s, r).
Proof.
intros Hall. rewrite check_for_update_cases. unfold bind at 1. now rewrite Hall.
Qed.

(** *** What check_for_update can raise *)

Lemma unseen_upstream_commits_raises library jobs all_new :
  raises_only (St:=State World) reconciliation_error
    (unseen_upstream_commits library jobs all_new).
Proof.
intros s s' e. rewrite unseen_upstream_commits_cases.
destruct all_new as [|c0 all_new]; [discriminate|]. cbv zeta.
destruct jobs as [|job rest]; [apply populate_all_raises|].
destruct (contains _ _); [|apply populate_all_raises].
destruct (_commits_since _ _) as [s4 [[|c unseen]|e1]] eqn:E.
- discriminate.
- unfold bind at 1.
  assert (Hne : c :: unseen <> []) by discriminate.
  pose proof (check_strict_ordered_subset_result (c0 :: all_new) _ s4 Hne) as Hc.
  destruct (check_strict_ordered_subset _ _ s4) as [s5 r5]. cbn [snd] in Hc.
  subst r5. destruct (_ <? 0)%Z.
  + intros [= _ <-]. right; right; now left.
  + destruct (negb _); [|apply populate_all_raises].
    intros [= _ <-]. right; right; now right.
- intros [= _ <-]. exact (_commits_since_raises _ _ _ _ E).
Qed.

Lemma clone_and_checkout_raises library task :
  raises_only (fun e => exists detail, e = CommandError detail)
    (clone_and_checkout library task).
Proof.
unfold clone_and_checkout. apply raises_only_bind; [apply run_raises|].
intros _. destruct (branch task) as [b|]; [|apply raises_only_ret].
destruct (truthy b); [|apply raises_only_ret].
apply raises_only_bind; [apply run_raises|]. intros _. apply raises_only_ret.
Qed.

Lemma branches_raises library :
  raises_only (fun e => exists detail, e = CommandError detail) (branches library).
Proof.
unfold branches. apply raises_only_bind; [apply run_raises|]. intros out.
apply raises_only_bind; [apply log_raises|]. intros _.
apply raises_only_bind; [apply run_raises|]. intros out'.
apply raises_only_bind; [apply log_raises|]. intros _. apply raises_only_ret.
Qed.

Lemma require_containment_events library current containing (s : State World) :
  contains current containing = false ->
  snd (require_containment library current containing s)
  = Raise (Exception (not_contained_message (lib_revision library) current))
  /\ events (fst (require_containment library current containing s))
     = events s
       ++ [Logged ("Current Branch: " +:+ current) Error;
           Logged ("Branches (" +:+ str_of_int (Z.of_nat (length containing)) +:+ "):")
             Error]
       ++ map (fun b => Logged ("  - " +:+ b) Error) containing.
Proof.
intros Hc.
destruct (require_containment library current containing s) as [s' r] eqn:E.
revert E. unfold require_containment. rewrite Hc. cbn [negb].
unfold bind at 1. unfold log at 1.
unfold bind at 1. unfold log at 1. cbn [world cwd events].
unfold bind at 1.
match goal with |- context [for_each containing ?f ?st] =>
  pose proof (for_each_log_ok containing (fun b => "  - " +:+ b) Error st) as Hok;
  pose proof (for_each_log_events containing (fun b => "  - " +:+ b) Error st) as Hev;
  destruct (for_each containing f st) as [sf rf] end.
cbn [fst snd] in Hok, Hev. subst rf. cbn [events] in Hev.
unfold raise. intros [= <- <-]. cbn [fst snd]. split; [reflexivity|].
rewrite Hev. now rewrite <- !app_assoc.
Qed.

Lemma require_containment_passes library current containing (s : State World) :
  contains current containing = true ->
  require_containment library current containing s = (s, Ok tt).
Proof. intros Hc. unfold require_containment. now rewrite Hc. Qed.

Lemma require_containment_raises library current containing :
  raises_only (St:=State World) check_for_update_error
    (require_containment library current containing).
Proof.
intros s s' e E. destruct (contains current containing) eqn:Hc.
- rewrite (require_containment_passes _ _ _ _ Hc) in E. discriminate.
- destruct (require_containment_events library _ _ s Hc) as [Hr _].
  rewrite E in Hr. injection Hr as ->. right. eauto.
Qed.

Lemma all_new_upstream_commits_raises library task :
  raises_only check_for_update_error (all_new_upstream_commits library task).
Proof.
unfold all_new_upstream_commits. apply raises_only_bind.
- eapply raises_only_weaken; [|apply clone_and_checkout_raises].
  intros e He. left; right; now left.
- intros _. apply raises_only_bind.
  + eapply raises_only_weaken; [|apply branches_raises].
    intros e He. left; right; now left.
  + intros bs. apply raises_only_bind; [apply require_containment_raises|].
    intros _. eapply raises_only_weaken; [|apply _commits_since_raises].
    intros e He. now left.
Qed.

Lemma check_for_update_raises library task jobs :
  raises_only check_for_update_error (check_for_update library task jobs).
Proof.
intros s0 s' e. rewrite check_for_update_cases.
destruct (Py.bind _ _ (entered s0)) as [s r] eqn:E.
intros [= _ ->]. revert E. apply raises_only_bind.
- apply all_new_upstream_commits_raises.
- intros all_new. eapply raises_only_weaken;
    [|apply unseen_upstream_commits_raises]. intros e' He'. now left.
Qed.

(** C10.  The assertion of step 5 cannot fail.  Where it stands, the unseen
    list is not empty, so the offset is below the number of new commits;
    and no call of [check_for_update] ends in an assertion error. *)
Theorem offset_assertion_never_fails :
  (forall all_new unseen : list Commit,
      unseen <> [] ->
      offsetIndex all_new unseen <> Z.of_nat (length all_new))
  /\ (forall library task jobs (s0 : State World) msg,
        snd (check_for_update library task jobs s0) <> Raise (AssertionError msg)).
Proof.
split.
- intros all_new unseen Hne. apply Z.eqb_neq.
  now apply offsetIndex_below_length.
- intros library task jobs s0 msg E.
  destruct (check_for_update library task jobs s0) as [s' r] eqn:Er.
  cbn [snd] in E. subst r.
  destruct (check_for_update_raises _ _ _ _ _ _ Er)
    as [[E|[[d E]|[E|E]]]|[r [b E]]]; discriminate.
Qed.

(** *** Step 1: the branch must contain the revision *)

Lemma events_entered (s0 : State World) : events (entered s0) = events s0.
Proof. unfold entered. now destruct (mkdtemp (world s0)). Qed.

Lemma fetches_cleaned_up (s0 s : State World) :
  fetches (events (cleaned_up s0 s)) = fetches (events s).
Proof.
unfold cleaned_up. cbn [events]. rewrite fetches_app.
unfold fetches at 2. simpl. lia.
Qed.

Lemma clone_and_checkout_same_fetches library task :
  preserves same_fetches (clone_and_checkout library task).
Proof.
unfold clone_and_checkout.
apply preserves_bind; [exact same_fetches_trans| |].
- now apply run_same_fetches.
- intros _. destruct (branch task) as [b|]; [|intros s; reflexivity].
  destruct (truthy b); [|intros s; reflexivity].
  apply preserves_bind; [exact same_fetches_trans| |].
  + now apply run_same_fetches.
  + intros _ s. reflexivity.
Qed.

Lemma branches_same_fetches library : preserves same_fetches (branches library).
Proof.
unfold branches.
apply preserves_bind; [exact same_fetches_trans| |].
{ now apply run_same_fetches. }
intros out.
apply preserves_bind; [exact same_fetches_trans| |].
{ apply log_same_fetches. }
intros _.
apply preserves_bind; [exact same_fetches_trans| |].
{ now apply run_same_fetches. }
intros out'.
apply preserves_bind; [exact same_fetches_trans| |].
{ apply log_same_fetches. }
intros _ s. reflexivity.
Qed.

Lemma fetches_logged {A} (line : A -> string) level (xs : list A) :
  fetches (map (fun x => Logged (line x) level) xs) = 0.
Proof. induction xs as [|x xs IH]; [reflexivity|exact IH]. Qed.

Lemma reconciliation_error_is_not_containment e revision branch :
  reconciliation_error e ->
  e <> Exception (not_contained_message revision branch).
Proof.
intros [-> | [[d ->] | [-> | ->]]]; try discriminate;
  unfold not_contained_message, more_unseen_message, not_subset_message;
  simpl; discriminate.
Qed.

(** C4.  Let the clone and the two branch queries succeed, and let them
    name [current] as the branch checked out and [containing] as the
    branches that hold the library's revision.  When [current] is not one
    of them, [check_for_update] raises an exception whose message names the
    revision and the branch, after logging the branch and each containing
    branch as errors, and no commit range has been fetched.  When it is one
    of them, no such exception is raised. *)
Theorem revision_must_be_in_branch
    library task jobs (s0 s1 : State World) current containing :
  (clone_and_checkout library task ;;; branches library) (entered s0)
    = (s1, Ok (current, containing)) ->
  (contains current containing = false ->
     snd (check_for_update library task jobs s0)
       = Raise (Exception (not_contained_message (lib_revision library) current))
     /\ substring_of (lib_revision library)
          (not_contained_message (lib_revision library) current) = true
     /\ substring_of current
          (not_contained_message (lib_revision library) current) = true
     /\ In (Logged ("Current Branch: " +:+ current) Error)
          (events (fst (check_for_update library task jobs s0)))
     /\ (forall b, In b containing ->
          In (Logged ("  - " +:+ b) Error)
             (events (fst (check_for_update library task jobs s0))))
     /\ fetches (events (fst (check_for_update library task jobs s0)))
        = fetches (events s0))
  /\ (contains current containing = true ->
      forall revision branch,
        snd (check_for_update library task jobs s0)
        <> Raise (Exception (not_contained_message revision branch))).
Proof.
intros Hq.
assert (Hf1 : fetches (events s1) = fetches (events s0)).
{ assert (Hp : preserves same_fetches
                 (clone_and_checkout library task ;;; branches library)).
  { apply preserves_bind; [exact same_fetches_trans| |].
    - apply clone_and_checkout_same_fetches.
    - intros _. apply branches_same_fetches. }
  specialize (Hp (entered s0)). rewrite Hq in Hp. unfold same_fetches in Hp.
  cbn [fst] in Hp. now rewrite events_entered in Hp. }
assert (Hbody : forall k : list Commit -> Run (list Commit),
  (all_new <- all_new_upstream_commits library task ;; k all_new) (entered s0)
  = (require_containment library current containing ;;;
     all_new <- _commits_since (lib_revision library) ;; k all_new) s1).
{ intros k. unfold all_new_upstream_commits.
  destruct (bind_ok_inv _ _ _ _ _ Hq) as (sa & u & Hclone & Hbranches).
  rewrite bind_assoc, (bind_ok _ _ _ _ _ Hclone).
  rewrite bind_assoc, (bind_ok _ _ _ _ _ Hbranches). cbn [fst snd].
  now rewrite bind_assoc. }
split.
- intros Hc.
  destruct (require_containment_events library current containing s1 Hc)
    as [Hr Hev].
  destruct (require_containment library current containing s1) as [sb rb] eqn:Erc.
  cbn [fst snd] in Hr, Hev. subst rb.
  assert (Hfin : check_for_update library task jobs s0
                 = (cleaned_up s0 sb,
                    Raise (Exception
                      (not_contained_message (lib_revision library) current)))).
  { rewrite check_for_update_cases, Hbody. unfold bind at 1. now rewrite Erc. }
  rewrite Hfin. cbn [fst snd].
  split; [reflexivity|].
  split; [apply substring_of_middle|].
  split.
  { unfold not_contained_message.
    apply (substring_of_later current ("The current revision " +:+ lib_revision library)).
    apply (substring_of_middle current " is not contained in the current branch " "."). }
  unfold cleaned_up. cbn [events]. rewrite Hev.
  split; [|split].
  + apply in_or_app. left. apply in_or_app. right. apply in_or_app. left.
    now left.
  + intros b Hb. apply in_or_app. left. apply in_or_app. right.
    apply in_or_app. right. apply in_map_iff. now exists b.
  + rewrite !fetches_app, fetches_logged, Hf1.
    unfold fetches at 2 3. simpl. lia.
- intros Hc revision branch.
  rewrite check_for_update_cases, Hbody. unfold bind at 1.
  rewrite (require_containment_passes library _ _ s1 Hc).
  destruct (Py.bind _ _ s1) as [s r] eqn:E. cbn [snd].
  destruct r as [ret|e]; [discriminate|].
  intros [= ->]. revert E.
  assert (Hr : raises_only reconciliation_error
                 (all_new <- _commits_since (lib_revision library) ;;
                  unseen_upstream_commits library jobs all_new)).
  { apply raises_only_bind; [apply _commits_since_raises|].
    intros all_new. apply unseen_upstream_commits_raises. }
  intros E. apply Hr in E.
  now apply (reconciliation_error_is_not_containment _ revision branch) in E.
Qed.

(** *** Steps 2 to 6: the unseen commits *)

Lemma Forall2_length_eq {A B} (Q : A -> B -> Prop) xs ys :
  Forall2 Q xs ys -> length ys = length xs.
Proof. induction 1; simpl; congruence. Qed.

(** C3.  [check_for_update] returns the empty list in two cases, and in no
    other: (a) no commit is new since the library's revision; (b) the
    version of the most recent job is one of the new commits and no commit
    is new since that version.  In case (b) the call ends right after the
    second range has been fetched: one line is logged, the directory is
    cleaned up, and step 5 has not run. *)
Theorem expected_empty_results library task jobs (s0 : State World) :
  (forall s2,
      all_new_upstream_commits library task (entered s0) = (s2, Ok []) ->
      exists s', check_for_update library task jobs s0 = (s', Ok []))
  /\ (forall s2 all_new most_recent_job rest s4,
        all_new_upstream_commits library task (entered s0) = (s2, Ok all_new) ->
        all_new <> [] ->
        jobs = most_recent_job :: rest ->
        In (version most_recent_job) (map revision all_new) ->
        _commits_since (version most_recent_job)
          (fst (most_recent_job_newer_than_library_rev jobs all_new s2))
          = (s4, Ok []) ->
        check_for_update library task jobs s0
        = (cleaned_up s0
             (fst (log (already_processed_message most_recent_job) Info s4)),
           Ok []))
  /\ (forall s',
        check_for_update library task jobs s0 = (s', Ok []) ->
        exists s2 all_new,
          all_new_upstream_commits library task (entered s0) = (s2, Ok all_new)
          /\ (all_new = []
              \/ exists most_recent_job rest s4,
                  jobs = most_recent_job :: rest
                  /\ In (version most_recent_job) (map revision all_new)
                  /\ _commits_since (version most_recent_job)
                       (fst (most_recent_job_newer_than_library_rev jobs all_new s2))
                     = (s4, Ok []))).
Proof.
split; [|split].
- intros s2 Hall.
  rewrite (check_for_update_after_all_new _ _ _ _ _ _ Hall).
  rewrite unseen_upstream_commits_cases. eauto.
- intros s2 all_new job rest s4 Hall Hne -> Hin Hsince.
  rewrite (check_for_update_after_all_new _ _ _ _ _ _ Hall).
  rewrite unseen_upstream_commits_cases.
  destruct all_new as [|c0 all_new]; [contradiction|]. cbv zeta.
  apply contains_In in Hin. rewrite Hin, Hsince. reflexivity.
- intros s' Hret. rewrite check_for_update_cases in Hret.
  unfold bind at 1 in Hret.
  destruct (all_new_upstream_commits library task (entered s0))
    as [s2 [all_new|e]] eqn:Hall.
  2:{ discriminate. }
  exists s2, all_new. split; [reflexivity|].
  rewrite unseen_upstream_commits_cases in Hret.
  destruct all_new as [|c0 all_new]; [now left|]. right.
  cbv zeta in Hret.
  assert (Hpop : forall s r,
            populate_all (c0 :: all_new) s = r -> snd r <> Ok []).
  { intros s [s5 [ret|e]] E; [|discriminate]. cbn [snd].
    apply populate_all_same_commits, Forall2_length_eq in E.
    destruct ret; [discriminate|]. discriminate. }
  destruct jobs as [|job rest].
  { destruct (populate_all (c0 :: all_new) _) as [s5 r5] eqn:E.
    apply Hpop in E. cbn [snd] in E. congruence. }
  destruct (contains (version job) _) eqn:Hin.
  2:{ destruct (populate_all (c0 :: all_new) _) as [s5 r5] eqn:E.
      apply Hpop in E. cbn [snd] in E. congruence. }
  destruct (_commits_since (version job) _) as [s4 [[|c unseen]|e]] eqn:Hsince.
  + exists job, rest, s4. apply contains_In in Hin. auto.
  + unfold bind at 1 in Hret.
    destruct (check_strict_ordered_subset _ _ s4) as [s5 [u|e]];
      [|discriminate].
    destruct (populate_all (c :: unseen) s5) as [s6 [ret|e]] eqn:E;
      [|discriminate].
    apply populate_all_same_commits, Forall2_length_eq in E.
    destruct ret; discriminate.
  + discriminate.
Qed.

Lemma classification_events jobs all_new (s : State World) :
  exists msg,
    events (fst (most_recent_job_newer_than_library_rev jobs all_new s))
    = events s ++ [Logged msg Debug].
Proof.
destruct jobs as [|job rest]; simpl.
- eexists. reflexivity.
- destruct (contains _ _); eexists; reflexivity.
Qed.

(** C2.  Let the new commits be [all_new], not empty, and let there be no
    job yet, or let the version of the most recent job be none of their
    revisions.  Then, once the classification has logged its line, the call
    only populates the commits of [all_new] and cleans up: no commit range
    is fetched again, step 5 does not run, and the list returned is
    [all_new], commit by commit. *)
Theorem first_run_or_older_job_returns_all_new
    library task jobs (s0 s2 : State World) all_new :
  all_new_upstream_commits library task (entered s0) = (s2, Ok all_new) ->
  all_new <> [] ->
  (jobs = []
   \/ exists most_recent_job rest,
        jobs = most_recent_job :: rest
        /\ ~ In (version most_recent_job) (map revision all_new)) ->
  let s3 := fst (most_recent_job_newer_than_library_rev jobs all_new s2) in
  check_for_update library task jobs s0
    = (let (s, r) := populate_all all_new s3 in (cleaned_up s0 s, r))
  /\ (exists msg, events s3 = events s2 ++ [Logged msg Debug])
  /\ fetches (events (fst (check_for_update library task jobs s0)))
     = fetches (events s2)
  /\ (forall ret,
        snd (check_for_update library task jobs s0) = Ok ret ->
        Forall2 same_commit all_new ret).
Proof.
intros Hall Hne Hjobs s3.
assert (Hnewer : newer_than_library_rev jobs all_new = false).
{ destruct Hjobs as [->|(job & rest & -> & Hnot)]; [reflexivity|].
  simpl. destruct (contains _ _) eqn:E; [|reflexivity].
  apply contains_In in E. contradiction. }
assert (Heq : check_for_update library task jobs s0
              = (let (s, r) := populate_all all_new s3 in (cleaned_up s0 s, r))).
{ rewrite (check_for_update_after_all_new _ _ _ _ _ _ Hall).
  rewrite unseen_upstream_commits_cases.
  destruct all_new as [|c0 all_new]; [contradiction|]. cbv zeta. fold s3.
  destruct jobs as [|job rest]; [reflexivity|].
  cbn [newer_than_library_rev] in Hnewer. now rewrite Hnewer. }
split; [exact Heq|].
split; [apply classification_events|].
rewrite Heq.
pose proof (populate_all_same_fetches all_new s3) as Hf.
pose proof (classification_same_fetches jobs all_new s2) as Hc. fold s3 in Hc.
destruct (populate_all all_new s3) as [s r] eqn:Hpop. cbn [fst snd] in *.
split.
- rewrite fetches_cleaned_up. unfold same_fetches in Hf, Hc. congruence.
- intros ret ->. exact (populate_all_same_commits _ _ _ _ Hpop).
Qed.

Lemma slice_from_offsetIndex (all_new unseen : list Commit) :
  (length unseen <= length all_new)%nat ->
  slice_from (offsetIndex all_new unseen) all_new
  = skipn (length all_new - length unseen) all_new.
Proof.
intros Hle. unfold slice_from, offsetIndex.
destruct (Z.ltb_spec (Z.of_nat (length all_new) - Z.of_nat (length unseen)) 0);
  [lia|].
f_equal. lia.
Qed.

(** C1.  Let the version of the most recent job be one of the new commits
    [all_new], and let [unseen], not empty, be the commits fetched since
    that version.  A list that [check_for_update] returns is [unseen], and
    it is the end of [all_new], revision by revision and in the same order.
    When [unseen] is longer than [all_new], or is not that end, the call
    raises instead. *)
Theorem unseen_is_suffix_of_all_new
    library task jobs (s0 s2 s4 : State World) all_new most_recent_job rest unseen :
  all_new_upstream_commits library task (entered s0) = (s2, Ok all_new) ->
  jobs = most_recent_job :: rest ->
  In (version most_recent_job) (map revision all_new) ->
  _commits_since (version most_recent_job)
    (fst (most_recent_job_newer_than_library_rev jobs all_new s2))
    = (s4, Ok unseen) ->
  unseen <> [] ->
  (forall ret,
      snd (check_for_update library task jobs s0) = Ok ret ->
      map revision ret = map revision unseen
      /\ (length ret <= length all_new)%nat
      /\ map revision (skipn (length all_new - length ret) all_new)
         = map revision ret)
  /\ ((length all_new < length unseen)%nat ->
      snd (check_for_update library task jobs s0)
      = Raise (Exception more_unseen_message))
  /\ ((length unseen <= length all_new)%nat ->
      map revision (skipn (length all_new - length unseen) all_new)
      <> map revision unseen ->
      snd (check_for_update library task jobs s0)
      = Raise (Exception not_subset_message)).
Proof.
intros Hall -> Hin Hsince Hne.
assert (Heq : snd (check_for_update library task (most_recent_job :: rest) s0)
              = snd ((check_strict_ordered_subset all_new unseen ;;;
                      populate_all unseen) s4)).
{ rewrite (check_for_update_after_all_new _ _ _ _ _ _ Hall).
  rewrite unseen_upstream_commits_cases.
  destruct all_new as [|c0 all_new]; [contradiction|]. cbv zeta.
  apply contains_In in Hin. rewrite Hin, Hsince.
  destruct unseen as [|c unseen]; [contradiction|].
  now destruct (Py.bind _ _ s4). }
rewrite Heq. clear Heq. unfold bind.
pose proof (check_strict_ordered_subset_result all_new unseen s4 Hne) as Hc.
destruct (check_strict_ordered_subset all_new unseen s4) as [s5 r5].
cbn [snd] in Hc. subst r5.
destruct (Z.ltb_spec (offsetIndex all_new unseen) 0) as [Hneg|Hpos].
- unfold offsetIndex in Hneg.
  split; [discriminate|]. split; [reflexivity|]. intros Hle. lia.
- assert (Hle : (length unseen <= length all_new)%nat)
    by (unfold offsetIndex in Hpos; lia).
  rewrite (slice_from_offsetIndex _ _ Hle).
  destruct (commits_eq _ unseen) eqn:Heqb; cbn [negb].
  + apply commits_eq_map_revision in Heqb.
    split; [|split].
    * intros ret Hret.
      destruct (populate_all unseen s5) as [s6 r6] eqn:Hpop.
      cbn [snd] in Hret. subst r6.
      pose proof (populate_all_same_commits _ _ _ _ Hpop) as Hsame.
      pose proof (same_commit_revisions _ _ Hsame) as Hrev.
      pose proof (Forall2_length_eq _ _ _ Hsame) as Hlen.
      rewrite Hlen, Hrev. auto.
    * intros Hlt. lia.
    * intros _ Hdiff. contradiction.
  + split; [discriminate|]. split; [intros Hlt; lia|]. reflexivity.
Qed.

(** [populate_details] never gets to list a file: the commit keeps the
    file lists it had. *)
Lemma populate_details_keeps_file_lists (s : State World) (c : Commit) :
  let c' := snd (fst (populate_details (s, c))) in
  files_modified c' = files_modified c /\ files_added c' = files_added c
  /\ files_deleted c' = files_deleted c /\ files_other c' = files_other c.
Proof.
cbv zeta. rewrite populate_details_cases.
destruct (run _ s) as [s1 [out|e]]; [|now repeat split].
destruct (split_ws out); [|now repeat split].
destruct (run _ s1) as [s2 [summary|e]]; [|now repeat split].
destruct (run _ s2) as [s3 [description|e]]; now repeat split.
Qed.

End Facts.

(** *** The scenarios *)

Import Scenarios.

(** A diff that lists one modified file makes [populate_details] raise. *)
Example populate_details_raises_on_a_changed_file :
  populate_details (H:=canned one_file_changed) (start, R1)
  = ((mkState tt "/builds/worker"
        [Ran ["git"; "diff"; "--name-status"; "R1^"; "R1"]], R1),
     Raise IndexError).
Proof. vm_compute. reflexivity. Qed.

(** C5.  [git log] prints the author date and the commit date with spaces
    in them; [split()] cuts each line there, and the first piece that has
    no two bars makes [Commit] raise: no commit is returned. *)
Theorem commits_since_fails_on_dated_log :
  _commits_since (H:=canned dated_history) "R0" start
  = (mkState tt "/builds/worker" [Ran (log_since "R0")], Raise IndexError).
Proof. vm_compute. reflexivity. Qed.

(** On log lines that hold no whitespace, the commits come back oldest
    first, each with the three fields of its line. *)
Example commits_since_without_spaces :
  snd (_commits_since (H:=canned history) "R0" start) = Ok [R1; R2; R3].
Proof. vm_compute. reflexivity. Qed.

(** Scenario B: the job ran at [R1]; the commits since [R1] are the last two
    of the commits since [R0]. *)
Lemma unseen_is_suffix_witness :
  exists ret,
    snd (check_for_update (H:=canned history) (H0:=tmp)
           (angle "R0") on_main [mkJob "R1" 17] start) = Ok ret
    /\ map revision ret = ["R2"; "R3"]
    /\ map revision (skipn (3 - length ret) [R1; R2; R3]) = map revision ret.
Proof.
eexists. split; [vm_compute; reflexivity|].
pose proof (@unseen_is_suffix_of_all_new unit (canned history) tmp
              (angle "R0") on_main [mkJob "R1" 17] start
              (after_first_fetch (angle "R0"))
              (after_second_fetch (angle "R0") [mkJob "R1" 17] [R1; R2; R3] "R1")
              [R1; R2; R3] (mkJob "R1" 17) [] [R2; R3]) as W.
destruct W as [W _].
- vm_compute. reflexivity.
- reflexivity.
- simpl. auto.
- vm_compute. reflexivity.
- discriminate.
- destruct (W _ ltac:(vm_compute; reflexivity)) as (Hrev & _ & Hsuffix).
  split; [exact Hrev|exact Hsuffix].
Defined.

(** Scenario A: no job has run yet; all the commits since [R0] are
    returned. *)
Lemma first_run_witness :
  exists ret,
    snd (check_for_update (H:=canned history) (H0:=tmp)
           (angle "R0") on_main [] start) = Ok ret
    /\ Forall2 same_commit [R1; R2; R3] ret
    /\ fetches (events (fst (check_for_update (H:=canned history) (H0:=tmp)
                               (angle "R0") on_main [] start))) = 1.
Proof.
eexists. split; [vm_compute; reflexivity|].
pose proof (@first_run_or_older_job_returns_all_new unit (canned history) tmp
              (angle "R0") on_main [] start
              (after_first_fetch (angle "R0")) [R1; R2; R3]) as W.
destruct W as (_ & _ & Hfetches & Hret).
- vm_compute. reflexivity.
- discriminate.
- now left.
- split; [apply Hret; vm_compute; reflexivity|].
  rewrite Hfetches. vm_compute. reflexivity.
Defined.

(** Scenario C: the job ran at the tip [R3]; nothing is returned, and
    step 5 has left no line in the history. *)
Lemma expected_empty_witness :
  check_for_update (H:=canned history) (H0:=tmp)
    (angle "R0") on_main [mkJob "R3" 17] start
  = (cleaned_up (H0:=tmp) start
       (fst (log (already_processed_message (mkJob "R3" 17)) Info
               (after_second_fetch (angle "R0") [mkJob "R3" 17] [R1; R2; R3] "R3"))),
     Ok []).
Proof.
pose proof (@expected_empty_results unit (canned history) tmp
              (angle "R0") on_main [mkJob "R3" 17] start) as (_ & W & _).
apply (W (after_first_fetch (angle "R0")) [R1; R2; R3] (mkJob "R3" 17) []).
- vm_compute. reflexivity.
- discriminate.
- reflexivity.
- simpl. auto.
- vm_compute. reflexivity.
Defined.

(** Scenario D: [R9] is on other branches than [main]. *)
Lemma revision_must_be_in_branch_witness :
  snd (check_for_update (H:=canned history) (H0:=tmp)
         (angle "R9") on_main [] start)
  = Raise (Exception
      "The current revision R9 is not contained in the current branch main.")
  /\ In (Logged "  - release" Error)
       (events (fst (check_for_update (H:=canned history) (H0:=tmp)
                       (angle "R9") on_main [] start)))
  /\ fetches (events (fst (check_for_update (H:=canned history) (H0:=tmp)
                             (angle "R9") on_main [] start))) = 0.
Proof.
pose proof (@revision_must_be_in_branch unit (canned history) tmp
              (angle "R9") on_main [] start
              (fst ((clone_and_checkout (H:=canned history) (angle "R9") on_main ;;;
                     branches (H:=canned history) (angle "R9"))
                      (entered (H0:=tmp) start)))
              "main" ["release"; "staging"]) as W.
destruct W as [W _]; [vm_compute; reflexivity|].
destruct (W eq_refl) as (Hr & _ & _ & _ & Hlines & Hf).
split; [exact Hr|]. split; [|exact Hf].
apply Hlines. simpl. auto.
Defined.

(** With the upstream of the scenarios, whose answers are fixed. *)
Lemma populate_details_idempotent_witness :
  snd (fst (populate_details (H:=canned history)
              (fst (populate_details (H:=canned history) (start, R1)))))
  = snd (fst (populate_details (H:=canned history) (start, R1)))
  /\ snd (populate_details (H:=canned history)
            (fst (populate_details (H:=canned history) (start, R1))))
     = snd (populate_details (H:=canned history) (start, R1)).
Proof.
apply (@populate_details_idempotent unit (canned history)).
intros w w' argv. reflexivity.
Defined.

End SCMFacts.

(** ** apis/taskcluster.py *)

Module TaskclusterFacts.
Import Py PyFacts Logging Taskcluster.

(** *** get_job_details: the property names of the pages *)

Lemma compare_each_agree property_names later url indices :
  compare_each property_names later url indices = Ok tt ->
  (indices <> [] -> length property_names = length later)
  /\ (forall i, In i indices ->
      i < length property_names ->
      nth_error later i = nth_error property_names i).
Proof.
induction indices as [|i indices IH]; simpl.
- intros _. split; [congruence|contradiction].
- destruct (Nat.eqb_spec (length property_names) (length later)) as [Hlen|Hlen];
    [|discriminate]. cbn [negb]. unfold index.
  destruct (nth_error property_names i) as [a|] eqn:Ea; [|discriminate].
  destruct (nth_error later i) as [b|] eqn:Eb; [|discriminate].
  destruct (String.eqb_spec a b) as [->|Hab]; [|discriminate]. cbn [negb].
  intros Hrest. destruct (IH Hrest) as [_ Hnth].
  split; [intros _; exact Hlen|].
  intros j [<-|Hj] Hlt; [congruence|now apply Hnth].
Qed.

(** The comparison passes only for the names already held. *)
Lemma compare_property_names_agree property_names later url :
  property_names <> [] ->
  compare_property_names property_names later url = Ok tt ->
  later = property_names.
Proof.
intros Hne Hcmp. unfold compare_property_names in Hcmp.
apply compare_each_agree in Hcmp as [Hlen Hnth].
assert (Hl : length property_names = length later).
{ apply Hlen. destruct property_names; [contradiction|discriminate]. }
apply nth_error_ext. intros i.
destruct (Nat.lt_ge_cases i (length property_names)) as [Hlt|Hge].
- apply Hnth; [|exact Hlt]. apply in_seq. lia.
- transitivity (@None string).
  + apply nth_error_None. lia.
  + symmetry. now apply nth_error_None.
Qed.

Section Facts.
Variable self : TaskclusterProvider.

(** With names in hand, the loop returns only when every page it gets to
    see has those names. *)
Lemma job_pages_agree pending : forall push_id url job_list property_names evs
    pending' evs' job_list' property_names',
  property_names <> [] ->
  job_pages self pending push_id url job_list property_names evs
    = (pending', evs', Ok (job_list', property_names')) ->
  property_names' = property_names
  /\ Forall (eq property_names) (names_seen pending).
Proof.
induction pending as [|r pending IH];
  intros push_id url job_list property_names evs pending' evs' job_list'
    property_names' Hne; simpl; [discriminate|].
destruct (json r) as [j|]; [|discriminate].
destruct property_names as [|n names]; [contradiction|].
destruct (compare_property_names (n :: names) (job_property_names j) url)
  as [u|e] eqn:Hcmp; [|discriminate].
destruct u. apply compare_property_names_agree in Hcmp; [|exact Hne].
destruct (next j) as [next_url|].
- destruct (truthy next_url).
  + intros Hloop. destruct (IH _ _ _ _ _ _ _ _ _ Hne Hloop) as [Hn Hall].
    split; [exact Hn|]. constructor; [now symmetry|exact Hall].
  + intros [= _ _ _ <-]. split; [reflexivity|].
    constructor; [now symmetry|constructor].
- intros [= _ _ _ <-]. split; [reflexivity|].
  constructor; [now symmetry|constructor].
Qed.

(** From the first page on: when its property names are not empty, the loop
    returns them, and only when every later page it gets to see has the
    same. *)
Lemma job_pages_agree_with_first pending push_id url job_list evs
    pending' evs' job_list' property_names' first later :
  job_pages self pending push_id url job_list [] evs
    = (pending', evs', Ok (job_list', property_names')) ->
  names_seen pending = first :: later ->
  first <> [] ->
  property_names' = first /\ Forall (eq first) later.
Proof.
destruct pending as [|r pending]; simpl; [discriminate|].
destruct (json r) as [j|]; [|discriminate].
destruct (next j) as [next_url|].
- destruct (truthy next_url).
  + intros Hloop [= <- <-] Hne. exact (job_pages_agree _ _ _ _ _ _ _ _ _ _ Hne Hloop).
  + intros [= _ _ _ <-] [= <- <-] _. split; [reflexivity|constructor].
- intros [= _ _ _ <-] [= <- <-] _. split; [reflexivity|constructor].
Qed.

(** A call that returns has seen, after a first page with property names,
    only pages with the same property names; so a later page that differs
    makes the call raise. *)
Lemma later_pages_must_agree revision (s : State) first later :
  names_seen (jobs s) = first :: later ->
  first <> [] ->
  (forall s' job_list,
      get_job_details self revision s = (s', Ok job_list) ->
      Forall (eq first) later)
  /\ (Exists (fun names => names <> first) later ->
      exists e, snd (get_job_details self revision s) = Raise e).
Proof.
intros Hseen Hne.
assert (Hok : forall s' job_list,
          get_job_details self revision s = (s', Ok job_list) ->
          Forall (eq first) later).
{ intros s' job_list. unfold get_job_details.
  intros Hret.
  apply bind_ok_inv in Hret as (s1 & u & Hlog & Hret).
  apply bind_ok_inv in Hret as (s2 & r & Hget & Hret).
  apply bind_ok_inv in Hret as (s3 & push_list & Hjson & Hret).
  apply bind_ok_inv in Hret as (s4 & push_id & Hid & Hret).
  apply bind_ok_inv in Hret as (s5 & fetched & Hloop & _).
  assert (Hjobs : jobs s4 = jobs s).
  { unfold log in Hlog. injection Hlog as <- _.
    unfold requests_get in Hget. cbn [others jobs events] in Hget.
    assert (jobs s2 = jobs s) as E2
      by (destruct (others s); injection Hget as <- _; reflexivity).
    assert (s3 = s2) as ->.
    { destruct (json r); [now injection Hjson|discriminate]. }
    unfold try_except in Hid.
    destruct (Py.bind _ _ s2) as [sx [rx|ex]] eqn:Ex; [|discriminate].
    injection Hid as <- _.
    apply bind_ok_inv in Ex as (sa & ra & [= <- _] & Ex).
    apply bind_ok_inv in Ex as (sb & rb & [= <- _] & Ex).
    unfold lift in Ex. now injection Ex as <- _. }
  unfold try_except in Hloop. rewrite Hjobs in Hloop.
  destruct (job_pages self (jobs s) _ _ [] [] (events s4))
    as [[pending' evs'] [[job_list' names']|e]] eqn:Epages; [|discriminate].
  exact (proj2 (job_pages_agree_with_first _ _ _ _ _ _ _ _ _ _ _
                  Epages Hseen Hne)). }
split; [exact Hok|].
intros Hdiff.
destruct (get_job_details self revision s) as [s' [job_list|e]] eqn:E.
- exfalso. specialize (Hok _ _ eq_refl).
  apply Exists_exists in Hdiff as (names & Hin & Hnames).
  rewrite Forall_forall in Hok. specialize (Hok _ Hin). congruence.
- now exists e.
Qed.

End Facts.

(** *** retrigger_jobs: the trigger request *)

Lemma posts_app evs evs' : posts (evs ++ evs') = posts evs + posts evs'.
Proof. unfold posts. now rewrite filter_app, length_app. Qed.

Lemma posts_nothing_count {A} (m : Run A) s :
  posts_nothing m -> posts (events (fst (m s))) = posts (events s).
Proof.
intros Hm. destruct (Hm s) as (evs & -> & Hevs).
rewrite posts_app. unfold posts at 2. rewrite Hevs. simpl. lia.
Qed.

Lemma posts_nothing_In {A} (m : Run A) s url data :
  posts_nothing m ->
  In (Post url data) (events (fst (m s))) -> In (Post url data) (events s).
Proof.
intros Hm. destruct (Hm s) as (evs & -> & Hevs). intros Hin.
apply in_app_or in Hin as [Hin|Hin]; [exact Hin|].
assert (Hf : In (Post url data) (filter is_post evs))
  by (apply filter_In; split; [exact Hin|reflexivity]).
rewrite Hevs in Hf. contradiction.
Qed.

Lemma posts_nothing_ret {A} (a : A) : posts_nothing (ret a).
Proof. intros s. exists []. now rewrite app_nil_r. Qed.

Lemma posts_nothing_raise {A} e : posts_nothing (A:=A) (raise e).
Proof. intros s. exists []. now rewrite app_nil_r. Qed.

Lemma posts_nothing_lift {A} (r : Result A) : posts_nothing (lift r).
Proof. intros s. exists []. now rewrite app_nil_r. Qed.

Lemma posts_nothing_log msg level : posts_nothing (log msg level).
Proof. intros s. now exists [Logged msg level]. Qed.

Lemma posts_nothing_get self url : posts_nothing (requests_get self url).
Proof.
intros s. exists [Get url (HEADERS self)]. unfold requests_get.
now destruct (others s).
Qed.

Lemma posts_nothing_bind {A B} (m : Run A) (f : A -> Run B) :
  posts_nothing m -> (forall a, posts_nothing (f a)) -> posts_nothing (bind m f).
Proof.
intros Hm Hf s. unfold bind. destruct (Hm s) as (evs & E & Hevs).
destruct (m s) as [s1 [a|e]]; cbn [fst] in *.
- destruct (Hf a s1) as (evs' & E' & Hevs'). exists (evs ++ evs').
  rewrite E', E, app_assoc, filter_app, Hevs, Hevs'. now split.
- now exists evs.
Qed.

Lemma posts_nothing_try_except {A} (m : Run A) handler :
  posts_nothing m -> posts_nothing (try_except m handler).
Proof.
intros Hm s. unfold try_except. destruct (Hm s) as (evs & E & Hevs).
exists evs. now destruct (m s) as [s1 [a|e]].
Qed.

(** Walks through a computation that makes no POST request. *)
Ltac quiet :=
  repeat first
    [ apply posts_nothing_ret
    | apply posts_nothing_raise
    | apply posts_nothing_lift
    | apply posts_nothing_log
    | apply posts_nothing_get
    | apply posts_nothing_try_except
    | apply posts_nothing_bind; [|intros ?]
    | match goal with
      | |- posts_nothing (if ?b then _ else _) => destruct b
      | |- posts_nothing (match ?x with _ => _ end) => destruct x
      end ].

Lemma post_events url data s :
  events (fst (requests_post url data s)) = events s ++ [Post url data].
Proof. unfold requests_post. now destruct (others s). Qed.

Lemma at_most_once_of_nothing {A} (m : Run A) :
  posts_nothing m -> posts_at_most_once m.
Proof. intros Hm s. rewrite (posts_nothing_count m s Hm). lia. Qed.

Lemma at_most_once_bind {A B} (m : Run A) (f : A -> Run B) :
  posts_nothing m -> (forall a, posts_at_most_once (f a)) ->
  posts_at_most_once (bind m f).
Proof.
intros Hm Hf s. unfold bind. pose proof (posts_nothing_count m s Hm) as E.
destruct (m s) as [s1 [a|e]]; cbn [fst] in *.
- specialize (Hf a s1). lia.
- lia.
Qed.

Lemma at_most_once_post {B} url data (f : Response Json -> Run B) :
  (forall r, posts_nothing (f r)) ->
  posts_at_most_once (bind (requests_post url data) f).
Proof.
intros Hf s. unfold bind. pose proof (post_events url data s) as E.
destruct (requests_post url data s) as [s1 [r|e]]; cbn [fst] in *.
- rewrite (posts_nothing_count (f r) s1 (Hf r)), E, posts_app.
  unfold posts at 2. simpl. lia.
- rewrite E, posts_app. unfold posts at 2. simpl. lia.
Qed.

Lemma once_to_return_raise {A} e : posts_once_to_return (A:=A) (raise e).
Proof. intros s s' a [=]. Qed.

Lemma once_to_return_bind {A B} (m : Run A) (f : A -> Run B) :
  posts_nothing m -> (forall a, posts_once_to_return (f a)) ->
  posts_once_to_return (bind m f).
Proof.
intros Hm Hf s s' b. unfold bind. pose proof (posts_nothing_count m s Hm) as E.
destruct (m s) as [s1 [a|e]]; cbn [fst] in *; [|discriminate].
intros Hret. rewrite (Hf _ _ _ _ Hret). lia.
Qed.

Lemma once_to_return_post {B} url data (f : Response Json -> Run B) :
  (forall r, posts_nothing (f r)) ->
  posts_once_to_return (bind (requests_post url data) f).
Proof.
intros Hf s s' b. unfold bind. pose proof (post_events url data s) as E.
destruct (requests_post url data s) as [s1 [r|e]]; cbn [fst] in *;
  [|discriminate].
intros Hret. pose proof (posts_nothing_count (f r) s1 (Hf r)) as E'.
rewrite Hret in E'. cbn [fst] in E'. rewrite E', E, posts_app.
unfold posts at 2. simpl. lia.
Qed.

Section Trigger.
Context `{Libraries}.
Variable self : TaskclusterProvider.
Variable retrigger_list : list Struct.

(** The context asks for three more runs of the tasks it is given. *)
Lemma retrigger_context_request taskGroupId retrigger_tasks :
  repeat_request (retrigger_context taskGroupId retrigger_tasks)
  = Ok (JArr retrigger_tasks, JInt 3).
Proof. reflexivity. Qed.

Lemma retrigger_jobs_at_most_once job_list :
  posts_at_most_once (retrigger_jobs self job_list retrigger_list).
Proof.
unfold retrigger_jobs.
repeat first
  [ apply at_most_once_post; intros; solve [quiet]
  | apply at_most_once_bind; [solve [quiet]|intros ?]
  | match goal with
    | |- posts_at_most_once (match ?x with _ => _ end) => destruct x
    end
  | apply at_most_once_of_nothing; solve [quiet] ].
Qed.

Lemma retrigger_jobs_once_to_return job_list :
  posts_once_to_return (retrigger_jobs self job_list retrigger_list).
Proof.
unfold retrigger_jobs.
repeat first
  [ apply once_to_return_post; intros; solve [quiet]
  | apply once_to_return_bind; [solve [quiet]|intros ?]
  | match goal with
    | |- posts_once_to_return (match ?x with _ => _ end) => destruct x
    end
  | apply once_to_return_raise ].
Qed.

(** Once the request is sent, nothing else is. *)
Lemma post_then_quiet {B} url data (f : Response Json -> Run B) (s : State) :
  (forall r, posts_nothing (f r)) ->
  exists after,
    events (fst (bind (requests_post url data) f s))
    = events s ++ [Post url data] ++ after
    /\ filter is_post after = [].
Proof.
intros Hf. unfold bind. pose proof (post_events url data s) as E.
destruct (requests_post url data s) as [s1 [r|e]]; cbn [fst] in *.
- destruct (Hf r s1) as (after & E' & Hafter). exists after.
  now rewrite E', E, <- app_assoc.
- exists []. now rewrite E.
Qed.

(** One step of a call, whose result is known. *)
Ltac known E :=
  unfold bind at 1; unfold lift at 1; rewrite E; cbv beta iota.

(** When the steps before the request succeed, the request is sent, and it
    is the only one, whatever the service answers. *)
Lemma retrigger_jobs_sends job_list (s : State) trigger_url data :
  trigger_request self job_list retrigger_list s trigger_url data ->
  exists before after,
    events (fst (retrigger_jobs self job_list retrigger_list s))
    = events s ++ before ++ [Post trigger_url data] ++ after
    /\ filter is_post before = [] /\ filter is_post after = [].
Proof.
intros (decision_task & task_id & r & rest & actions & actions_json
        & actions_list & retrigger_action & retrigger_tasks & template
        & decision & action & taskGroupId & payload & hookGroupId
        & quotedGroupId & hookId & quotedId
        & Edecision & Etask & Eothers & Ejson & Eactions & Elist & Eaction
        & Etasks & Etemplate & Edec & Eact & Egroup & Epayload & -> & EhookGroupId
        & EquotedGroupId & EhookId & EquotedId & ->).
unfold retrigger_jobs.
known Edecision. known Etask.
unfold bind at 1. unfold requests_get at 1. rewrite Eothers. cbv beta iota zeta.
unfold bind at 1. rewrite Ejson. unfold ret at 1. cbv beta iota.
known Eactions. known Elist. known Eaction. known Etasks.
known Etemplate. known Edec. known Eact. known Egroup.
unfold bind at 1. unfold lift at 1. cbv beta iota.
known Epayload. known EhookGroupId. known EquotedGroupId.
known EhookId. known EquotedId.
unfold bind at 1. unfold log at 1. cbv beta iota. cbn [jobs others events].
match goal with
| |- context [bind (requests_post ?url ?body) ?f ?st] =>
    destruct (post_then_quiet url body f st) as (after & E & Hafter);
      [intros; solve [quiet]|]
end.
rewrite E. cbn [events].
eexists [_; _], after. rewrite <- !app_assoc. cbn [app].
split; [reflexivity|]. split; [reflexivity|exact Hafter].
Qed.

(** The end of a call that has raised before the request. *)
Ltac ended :=
  right; match goal with P := _ |- _ => unfold P end; cbn [fst snd events];
  split; [eexists; reflexivity|];
  first [ exists []; split; [symmetry; apply app_nil_r|reflexivity]
        | eexists; split; reflexivity ].

(** One step of a call, whose result is not known: when it fails, the call
    ends there. *)
Ltac decided x E :=
  unfold bind at 1; unfold lift at 1; destruct x eqn:E; cbv beta iota;
  [|solve [ended]].

(** Every call either gets as far as the request, or raises without having
    sent any. *)
Lemma retrigger_jobs_sends_or_raises job_list (s : State) :
  (exists trigger_url data,
     trigger_request self job_list retrigger_list s trigger_url data)
  \/ ((exists e, snd (retrigger_jobs self job_list retrigger_list s) = Raise e)
      /\ (exists evs,
            events (fst (retrigger_jobs self job_list retrigger_list s))
            = events s ++ evs
            /\ filter is_post evs = [])).
Proof.
set (raised_quietly := fun res : State * Result Json =>
       (exists e, snd res = Raise e)
       /\ (exists evs,
             events (fst res) = events s ++ evs /\ filter is_post evs = [])).
change ((exists trigger_url data,
           trigger_request self job_list retrigger_list s trigger_url data)
        \/ raised_quietly (retrigger_jobs self job_list retrigger_list s)).
unfold retrigger_jobs.
decided (find_decision_task job_list) Edecision.
match goal with
| E : find_decision_task job_list = Ok ?found |- _ =>
    destruct found as [decision_task|]; [|solve [ended]]
end.
decided (getattr decision_task "task_id") Etask.
unfold bind at 1. unfold requests_get at 1.
destruct (others s) as [|r rest] eqn:Eothers; cbv beta iota zeta;
  [solve [ended]|].
unfold bind at 1.
destruct (json r) as [actions|] eqn:Ejson;
  [unfold ret at 1|unfold raise at 1]; cbv beta iota; [|solve [ended]].
decided (getitem actions "actions") Eactions.
match goal with
| E : getitem actions "actions" = Ok ?j |- _ => decided (iterate j) Elist
end.
match goal with
| E : iterate _ = Ok ?l |- _ => decided (find_retrigger_action l) Eaction
end.
match goal with
| E : find_retrigger_action _ = Ok ?found |- _ =>
    destruct found as [retrigger_action|]; [|solve [ended]]
end.
decided (job_type_names retrigger_list) Etasks.
decided (getitem retrigger_action "hookPayload") Etemplate.
match goal with
| E : getitem retrigger_action "hookPayload" = Ok ?t |- _ =>
    decided (getitem t "decision") Edec
end.
match goal with
| E : getitem _ "decision" = Ok ?d |- _ => decided (getitem d "action") Eact
end.
match goal with
| E : getitem _ "action" = Ok ?a |- _ => decided (getitem a "taskGroupId") Egroup
end.
unfold bind at 1. unfold lift at 1. cbv beta iota.
match goal with
| |- context [jsone_render ?t ?c] => decided (jsone_render t c) Epayload
end.
decided (getitem retrigger_action "hookGroupId") EhookGroupId.
match goal with
| E : getitem retrigger_action "hookGroupId" = Ok ?g |- _ =>
    decided (quoted g) EquotedGroupId
end.
decided (getitem retrigger_action "hookId") EhookId.
match goal with
| E : getitem retrigger_action "hookId" = Ok ?h |- _ =>
    decided (quoted h) EquotedId
end.
left. do 2 eexists. unfold trigger_request.
repeat eexists; try eassumption; reflexivity.
Qed.

(** C8, as the code has it.  A call of [retrigger_jobs] for which the
    steps before the request succeed (lines 166-202) makes exactly one POST
    request, whether it then returns or raises; any other call raises
    without making one.  So no call makes more than one, and a call that
    returns has made one.  The request goes to the trigger of the hook, and
    its body is the template, the [hookPayload] of the action, rendered in
    the context of lines 191-195, which asks for [TRIGGER_TOTAL - 1 = 3]
    more runs of the tasks named in the caller's list. *)
Theorem retrigger_jobs_trigger_request job_list (s : State) :
  TRIGGER_TOTAL = 4%Z
  /\ (forall taskGroupId retrigger_tasks,
        repeat_request (retrigger_context taskGroupId retrigger_tasks)
        = Ok (JArr retrigger_tasks, JInt (TRIGGER_TOTAL - 1))
        /\ (TRIGGER_TOTAL - 1 = 3)%Z)
  /\ (forall trigger_url data,
        trigger_request self job_list retrigger_list s trigger_url data ->
        (exists before after,
           events (fst (retrigger_jobs self job_list retrigger_list s))
           = events s ++ before ++ [Post trigger_url data] ++ after
           /\ filter is_post before = [] /\ filter is_post after = [])
        /\ posts (events (fst (retrigger_jobs self job_list retrigger_list s)))
           = posts (events s) + 1)
  /\ ((exists trigger_url data,
         trigger_request self job_list retrigger_list s trigger_url data)
      \/ ((exists e,
             snd (retrigger_jobs self job_list retrigger_list s) = Raise e)
          /\ (exists evs,
                events (fst (retrigger_jobs self job_list retrigger_list s))
                = events s ++ evs
                /\ filter is_post evs = [])))
  /\ posts (events (fst (retrigger_jobs self job_list retrigger_list s)))
     <= posts (events s) + 1
  /\ (forall taskId,
        snd (retrigger_jobs self job_list retrigger_list s) = Ok taskId ->
        posts (events (fst (retrigger_jobs self job_list retrigger_list s)))
        = posts (events s) + 1).
Proof.
split; [reflexivity|].
split; [intros; split; reflexivity|].
split.
{ intros trigger_url data Hrequest.
  destruct (retrigger_jobs_sends job_list s trigger_url data Hrequest)
    as (before & after & E & Hbefore & Hafter).
  split; [now exists before, after|].
  rewrite E, !posts_app. unfold posts at 2 3 4.
  rewrite Hbefore, Hafter. simpl. lia. }
split; [apply retrigger_jobs_sends_or_raises|].
split; [apply retrigger_jobs_at_most_once|].
intros taskId Hret.
destruct (retrigger_jobs self job_list retrigger_list s) as [s' r] eqn:E.
cbn [fst snd] in *. subst r.
exact (retrigger_jobs_once_to_return _ _ _ _ E).
Qed.

End Trigger.

(** *** The scenarios *)

Import Scenarios.

(** C7.  The first page has no property name, so its empty list is taken
    for "no names yet": the names of the second page are adopted without
    any comparison, and the call returns the jobs. *)
Theorem empty_first_page_is_not_compared :
  names_seen (jobs empty_first_page) = [[]; ["id"; "state"]]
  /\ snd (get_job_details treeherder "abc" empty_first_page)
     = Ok [[("id", JInt 1); ("state", JStr "completed")]].
Proof. split; vm_compute; reflexivity. Qed.

(** Scenario E: the second page has fewer property names than the first. *)
Example shorter_second_page_raises :
  exists e, snd (get_job_details treeherder "abc" shorter_second_page) = Raise e.
Proof.
apply (later_pages_must_agree treeherder "abc" shorter_second_page
         ["id"; "state"] [["id"]]).
- reflexivity.
- discriminate.
- constructor. discriminate.
Qed.

(** No decision task in the job list: the call fails its first assertion,
    and no POST request is made. *)
Lemma retrigger_without_decision_task :
  snd (retrigger_jobs (H:=stand_ins) treeherder [test_job] [test_job] taskcluster_up)
  = Raise (AssertionError "")
  /\ posts (events (fst (retrigger_jobs (H:=stand_ins) treeherder
                           [test_job] [test_job] taskcluster_up))) = 0.
Proof. split; vm_compute; reflexivity. Qed.

(** With the decision task in the job list, the request is sent once:
    when the service answers with the task, and when it refuses. *)
Lemma retrigger_jobs_trigger_request_witness :
  (snd (retrigger_jobs (H:=stand_ins) treeherder [test_job; decision_job]
          [test_job] taskcluster_up) = Ok (JStr "T99")
   /\ posts (events (fst (retrigger_jobs (H:=stand_ins) treeherder
                            [test_job; decision_job] [test_job] taskcluster_up)))
      = 1)
  /\ ((exists e,
         snd (retrigger_jobs (H:=stand_ins) treeherder [test_job; decision_job]
                [test_job] trigger_refused) = Raise e)
      /\ posts (events (fst (retrigger_jobs (H:=stand_ins) treeherder
                               [test_job; decision_job] [test_job]
                               trigger_refused)))
         = 1).
Proof.
split; (split; [vm_compute; eauto|]).
- destruct (retrigger_jobs_trigger_request (H:=stand_ins) treeherder [test_job]
              [test_job; decision_job] taskcluster_up) as (_ & _ & Hsends & _).
  edestruct Hsends as [_ Hposts]; [|exact Hposts].
  unfold trigger_request. repeat eexists; reflexivity.
- destruct (retrigger_jobs_trigger_request (H:=stand_ins) treeherder [test_job]
              [test_job; decision_job] trigger_refused) as (_ & _ & Hsends & _).
  edestruct Hsends as [_ Hposts]; [|exact Hposts].
  unfold trigger_request. repeat eexists; reflexivity.
Defined.

(** With the decision task in the job list, one POST request is made. *)
Example retrigger_posts_once :
  snd (retrigger_jobs (H:=stand_ins) treeherder [test_job; decision_job]
         [test_job] taskcluster_up) = Ok (JStr "T99")
  /\ posts (events (fst (retrigger_jobs (H:=stand_ins) treeherder
                           [test_job; decision_job] [test_job] taskcluster_up)))
     = 1.
Proof. split; vm_compute; reflexivity. Qed.

End TaskclusterFacts.

(* ================================================================== *)
(** * Part III: further properties of the two files                    *)
(* ================================================================== *)

(** Properties of the functions that Part II does not reach, and further
    properties of the ones it does. *)

(** ** More about Python *)

Module PyMoreFacts.
Import Py PyMore PyFacts.

Lemma split_on_length sep s : length (split_on sep s) = S (count_char sep s).
Proof.
induction s as [|c s IH]; simpl; [reflexivity|].
destruct (Ascii.eqb c sep); simpl; [now rewrite IH|].
destruct (split_on sep s) as [|field fields]; [discriminate|]. exact IH.
Qed.

(** [split()] finds no field exactly in a text of whitespace. *)
Lemma split_ws_from_nil s : forall cur,
  split_ws_from cur s = [] <-> truthy cur = false /\ blank s.
Proof.
unfold blank. induction s as [|c s IH]; intros cur; simpl.
- destruct (truthy cur); split.
  + discriminate.
  + intros [E _]. discriminate.
  + now split.
  + reflexivity.
- destruct (isspace c) eqn:Ec.
  + destruct (truthy cur) eqn:Ecur.
    * split; [discriminate|]. intros [E _]. discriminate.
    * rewrite IH. simpl. intuition.
  + rewrite IH, truthy_snoc. split; intros [E E']; [discriminate|].
    destruct E' as [E' _]. discriminate.
Qed.

Lemma split_ws_nil s : split_ws s = [] <-> blank s.
Proof. unfold split_ws. rewrite split_ws_from_nil. simpl. intuition. Qed.

Lemma prefix_split needle haystack :
  String.prefix needle haystack = true ->
  haystack = needle +:+ drop (String.length needle) haystack.
Proof.
revert haystack. induction needle as [|c needle IH]; intros [|a haystack]; simpl;
  try reflexivity; try discriminate.
destruct (ascii_dec c a) as [->|]; [|discriminate].
intros E. f_equal. now apply IH.
Qed.

Lemma drop_append pre s : drop (String.length pre) (pre +:+ s) = s.
Proof. induction pre as [|c pre IH]; simpl; [now destruct s|exact IH]. Qed.

Lemma drop_add n m s : drop (n + m) s = drop m (drop n s).
Proof.
revert s. induction n as [|n IH]; intros s; simpl; [reflexivity|].
destruct s as [|c s]; [now destruct m|]. apply IH.
Qed.

Lemma find_nil needle :
  find needle "" = if String.prefix needle "" then Some 0 else None.
Proof. reflexivity. Qed.

Lemma find_cons needle c haystack :
  find needle (String c haystack)
  = if String.prefix needle (String c haystack) then Some 0
    else option_map S (find needle haystack).
Proof. reflexivity. Qed.

(** Where [find] finds the needle, the haystack is some text, the needle,
    and the rest. *)
Lemma find_split needle haystack : forall i,
  find needle haystack = Some i ->
  exists pre,
    String.length pre = i
    /\ haystack = pre +:+ needle +:+ drop (i + String.length needle) haystack.
Proof.
induction haystack as [|c haystack IH]; intros i.
- rewrite find_nil. destruct (String.prefix needle "") eqn:E; [|discriminate].
  intros [= <-]. exists "". split; [reflexivity|]. now apply prefix_split.
- rewrite find_cons.
  destruct (String.prefix needle (String c haystack)) eqn:E.
  + intros [= <-]. exists "". split; [reflexivity|]. now apply prefix_split.
  + destruct (find needle haystack) as [j|]; [|discriminate].
    intros [= <-]. destruct (IH j eq_refl) as (pre & Hlen & Hh).
    exists (String c pre). split; [simpl; congruence|].
    simpl. f_equal. exact Hh.
Qed.

Lemma substring_of_find needle haystack :
  substring_of needle haystack = true -> exists i, find needle haystack = Some i.
Proof.
induction haystack as [|c haystack IH].
- rewrite find_nil.
  change (substring_of needle "") with (String.prefix needle "" || false).
  rewrite orb_false_r. intros ->. now exists 0.
- rewrite find_cons.
  change (substring_of needle (String c haystack))
    with (String.prefix needle (String c haystack) || substring_of needle haystack).
  destruct (String.prefix needle (String c haystack)); [now exists 0|].
  cbn [orb]. intros E. destruct (IH E) as [i ->]. now exists (S i).
Qed.

End PyMoreFacts.

(** ** More about components/scmprovider.py *)

Module SCMCoverage.
Import Py PyMore PyFacts PyMoreFacts Logging SCM SCMMore SCMFacts Scenarios.

(** *** Commit *)

(** X2.  A line makes a commit exactly when it has two bars or more; the commit
    has the first three fields of the line and no details. *)
Theorem Commit__init__needs_two_bars (pretty_line : string) :
  (count_char "|" pretty_line < 2 ->
   Commit__init__ pretty_line = Raise IndexError)
  /\ (2 <= count_char "|" pretty_line ->
      exists revision author_date commit_date rest,
        split_on "|" pretty_line = revision :: author_date :: commit_date :: rest
        /\ Commit__init__ pretty_line
           = Ok (entry_commit (revision, author_date, commit_date))).
Proof.
pose proof (split_on_length "|" pretty_line) as Hlen.
unfold Commit__init__, index.
destruct (split_on "|" pretty_line) as [|r [|a [|c rest]]]; simpl in *.
- discriminate.
- split; [reflexivity|]. intros Hc. lia.
- split; [reflexivity|]. intros Hc. lia.
- split; [intros Hc; lia|]. intros _. now exists r, a, c, rest.
Qed.

(** X3.  Writing the three fields of a commit with bars between them and
    reading the line back gives the commit, the fields holding no bar. *)
Theorem Commit__init__reads_its_line (revision author_date commit_date : string) :
  all_chars (fun c => negb (Ascii.eqb c "|")) revision ->
  all_chars (fun c => negb (Ascii.eqb c "|")) author_date ->
  all_chars (fun c => negb (Ascii.eqb c "|")) commit_date ->
  Commit__init__ (entry_line (revision, author_date, commit_date))
  = Ok (entry_commit (revision, author_date, commit_date)).
Proof.
intros Hr Ha Hc. unfold Commit__init__, entry_line. simpl append.
rewrite (split_on_field "|" revision _ Hr).
rewrite (split_on_field "|" author_date _ Ha).
now rewrite (split_on_absent "|" commit_date Hc).
Qed.

Lemma Commit__init__reads_its_line_witness :
  Commit__init__ "3b1f|2020-01-02 03:04:05 +0000|2020-01-03 00:00:00 +0000"
  = Ok (fetched "3b1f" "2020-01-02 03:04:05 +0000" "2020-01-03 00:00:00 +0000").
Proof.
apply (Commit__init__reads_its_line
         "3b1f" "2020-01-02 03:04:05 +0000" "2020-01-03 00:00:00 +0000");
  vm_compute; intuition.
Defined.

(** The three commits of the scenarios, read from a log without spaces. *)
Lemma commits_since_on_clean_log_witness :
  snd (_commits_since (H:=canned history) "R0" start) = Ok [R1; R2; R3].
Proof.
apply (commits_since_on_clean_log (H:=canned history) "R0" start tt
         [("R3", "a3", "c3"); ("R2", "a2", "c2"); ("R1", "a1", "c1")]).
- repeat constructor.
- reflexivity.
Defined.

Section Coverage.
Context {World : Type} `{CommandProvider World} `{TempFiles World}.

(** *** populate_details *)

(** X4.  When the diff prints anything but whitespace, [populate_details]
    raises [IndexError]: the commit is as it was and no other command has
    run. *)
Theorem populate_details_fails_on_any_change (s : State World) (c : Commit) w out :
  run_command (world s)
    (["git"; "diff"; "--name-status"] ++ [revision c +:+ "^"; revision c])
    = (w, Stdout out) ->
  ~ blank out ->
  populate_details (s, c)
  = ((mkState w (cwd s)
        (events s
         ++ [Ran (["git"; "diff"; "--name-status"]
                  ++ [revision c +:+ "^"; revision c])]),
      c),
     Raise IndexError).
Proof.
intros Hrun Hout. rewrite populate_details_cases. unfold run at 1.
rewrite Hrun. destruct (split_ws out) eqn:E; [|reflexivity].
apply split_ws_nil in E. contradiction.
Qed.

(** X5.  When the diff prints nothing and the two logs answer, the commit gets
    its summary, its description and its link; its file lists stay as they
    were. *)
Theorem populate_details_without_changes
    (s : State World) (c : Commit) w1 w2 w3 out summary description :
  run_command (world s)
    (["git"; "diff"; "--name-status"] ++ [revision c +:+ "^"; revision c])
    = (w1, Stdout out) ->
  blank out ->
  run_command w1 ["git"; "log"; "--pretty=%s"; "-1"; revision c]
    = (w2, Stdout summary) ->
  run_command w2 ["git"; "log"; "--pretty=%b"; "-1"; revision c]
    = (w3, Stdout description) ->
  populate_details (s, c)
  = ((mkState w3 (cwd s)
        (events s
         ++ [Ran (["git"; "diff"; "--name-status"]
                  ++ [revision c +:+ "^"; revision c])]
         ++ [Ran ["git"; "log"; "--pretty=%s"; "-1"; revision c]]
         ++ [Ran ["git"; "log"; "--pretty=%b"; "-1"; revision c]]),
      mkCommit (revision c) (author_date c) (commit_date c)
        (files_modified c) (files_added c) (files_deleted c) (files_other c)
        (Some summary) (Some description)
        (Some ("https://chromium.googlesource.com/angle/angle/+/" +:+ revision c))),
     Ok tt).
Proof.
intros Hdiff Hout Hsummary Hdescription. rewrite populate_details_cases.
unfold run at 1. rewrite Hdiff.
apply split_ws_nil in Hout. rewrite Hout.
unfold run at 1. cbn [world cwd events]. rewrite Hsummary.
unfold run at 1. cbn [world cwd events]. rewrite Hdescription.
rewrite <- !app_assoc. reflexivity.
Qed.

(** *** _print_differing_commit_lists *)

Lemma for_each_log_state {A} (xs : list A) (line : A -> string) level :
  forall s : State World,
    for_each xs (fun x => log (line x) level) s
    = (mkState (world s) (cwd s)
         (events s ++ map (fun x => Logged (line x) level) xs), Ok tt).
Proof.
induction xs as [|x xs IH]; intros s; simpl.
- rewrite app_nil_r. now destruct s.
- unfold bind at 1. unfold log at 1. rewrite IH. cbn [world cwd events].
  now rewrite <- app_assoc.
Qed.

(** X6.  [_print_differing_commit_lists] always raises the problem it is given,
    after logging the problem, the two names with the lengths, and one
    line for every commit of either list, in order. *)
Theorem _print_differing_commit_lists_reports
    list_a list_a_name list_b list_b_name problem (s : State World) :
  _print_differing_commit_lists list_a list_a_name list_b list_b_name problem s
  = (mkState (world s) (cwd s)
       (events s
        ++ differing_lists_lines list_a list_a_name list_b list_b_name problem),
     Raise (Exception problem)).
Proof.
unfold _print_differing_commit_lists, differing_lists_lines.
unfold bind at 1. unfold log at 1.
unfold bind at 1. unfold log at 1. cbn [world cwd events].
unfold bind at 1.
rewrite (for_each_log_state list_a (fun c => "  - " +:+ Commit__str__ c) Error).
cbn [world cwd events].
unfold bind at 1. unfold log at 1. cbn [world cwd events].
unfold bind at 1.
rewrite (for_each_log_state list_b (fun c => "  - " +:+ Commit__str__ c) Error).
cbn [world cwd events]. unfold raise.
repeat rewrite <- app_assoc. reflexivity.
Qed.

(** *** check_for_update *)

(** X7.  Only the most recent job counts: the jobs behind the first one change
    nothing, neither in what is returned nor in what is done. *)
Theorem check_for_update_reads_first_job_only
    library task most_recent_job older_jobs (s0 : State World) :
  check_for_update library task (most_recent_job :: older_jobs) s0
  = check_for_update library task [most_recent_job] s0.
Proof.
rewrite !check_for_update_cases. unfold bind.
destruct (all_new_upstream_commits library task (entered s0))
  as [s2 [all_new|e]]; [|reflexivity].
rewrite !unseen_upstream_commits_cases. reflexivity.
Qed.

(** *** What a call leaves behind *)

Lemma removals_app evs evs' : removals (evs ++ evs') = removals evs + removals evs'.
Proof. unfold removals. now rewrite filter_app, length_app. Qed.

Lemma same_removals_refl (s : State World) : same_removals s s.
Proof. reflexivity. Qed.

Lemma same_removals_trans (s1 s2 s3 : State World) :
  same_removals s1 s2 -> same_removals s2 s3 -> same_removals s1 s3.
Proof. unfold same_removals. congruence. Qed.

Lemma run_same_removals argv : preserves same_removals (run argv).
Proof.
intros s. unfold same_removals. rewrite run_events, removals_app.
unfold removals at 2. simpl. lia.
Qed.

Lemma log_same_removals msg level :
  preserves (St:=State World) same_removals (log msg level).
Proof.
intros s. unfold same_removals, log. simpl. rewrite removals_app.
unfold removals at 2. simpl. lia.
Qed.

Lemma populated_same_removals c : preserves same_removals (populated c).
Proof.
intros s. rewrite populated_cases, populate_details_cases.
pose proof (run_same_removals
              (["git"; "diff"; "--name-status"] ++ [revision c +:+ "^"; revision c])
              s) as H1.
destruct (run _ s) as [s1 [out|e]]; [|exact H1].
destruct (split_ws out); [|exact H1].
pose proof (run_same_removals ["git"; "log"; "--pretty=%s"; "-1"; revision c] s1)
  as H2.
destruct (run _ s1) as [s2 [summary|e]];
  [|exact (same_removals_trans _ _ _ H1 H2)].
pose proof (run_same_removals ["git"; "log"; "--pretty=%b"; "-1"; revision c] s2)
  as H3.
destruct (run _ s2) as [s3 [description|e]];
  exact (same_removals_trans _ _ _ H1 (same_removals_trans _ _ _ H2 H3)).
Qed.

(** Walks through a computation, step by step, for a relation that every
    step keeps. *)
Ltac keeps refl trans step :=
  cbv zeta;
  repeat first
    [ step
    | apply preserves_ret; exact refl
    | apply preserves_raise; exact refl
    | apply preserves_lift; exact refl
    | apply preserves_bind; [exact trans| |intros ?]
    | apply preserves_for_each; [exact refl|exact trans|intros ?]
    | apply preserves_comprehension; [exact refl|exact trans|intros ?]
    | match goal with
      | |- preserves _ (if ?b then _ else _) => destruct b
      | |- preserves _ (match ?x with _ => _ end) => destruct x
      end ].

Ltac keeps_removals :=
  keeps same_removals_refl same_removals_trans
    ltac:(first [ apply run_same_removals
                | apply log_same_removals
                | apply populated_same_removals ]).

Lemma try_block_same_removals library task jobs :
  preserves same_removals
    (all_new <- all_new_upstream_commits library task ;;
     unseen_upstream_commits library jobs all_new).
Proof.
unfold all_new_upstream_commits, unseen_upstream_commits, clone_and_checkout,
  branches, require_containment, _commits_since,
  most_recent_job_newer_than_library_rev, check_strict_ordered_subset,
  _print_differing_commit_lists, populate_all.
keeps_removals.
Qed.

(** X8.  Whatever happens in between, a call ends in the directory it started
    in, and its last act is to remove the directory it made: that one and
    no other. *)
Theorem check_for_update_cleans_up library task jobs (s0 : State World) :
  cwd (fst (check_for_update library task jobs s0)) = cwd s0
  /\ (exists evs,
        events (fst (check_for_update library task jobs s0))
        = evs ++ [Removed (snd (mkdtemp (world s0)))])
  /\ removals (events (fst (check_for_update library task jobs s0)))
     = removals (events s0) + 1.
Proof.
rewrite check_for_update_cases.
pose proof (try_block_same_removals library task jobs (entered s0)) as Hsame.
destruct (Py.bind _ _ (entered s0)) as [s r]. cbn [fst] in *.
unfold same_removals in Hsame. rewrite events_entered in Hsame.
unfold cleaned_up. cbn [cwd events].
split; [reflexivity|]. split.
- exists (events s). unfold entered. now destruct (mkdtemp (world s0)).
- rewrite removals_app, Hsame. reflexivity.
Qed.

(** *** What a call can raise *)

Lemma update_error_of_reconciliation library e :
  reconciliation_error e -> update_error library e.
Proof. intros [-> | [[d ->] | [-> | ->]]]; unfold update_error; eauto 6. Qed.

Lemma update_error_of_command library e :
  (exists detail, e = CommandError detail) -> update_error library e.
Proof. intros He. unfold update_error. auto. Qed.

Lemma require_containment_refuses library current containing :
  raises_only (St:=State World) (update_error library)
    (require_containment library current containing).
Proof.
intros s s' e E. destruct (contains current containing) eqn:Hc.
- rewrite (require_containment_passes _ _ _ _ Hc) in E. discriminate.
- destruct (require_containment_events library _ _ s Hc) as [Hr _].
  rewrite E in Hr. injection Hr as ->. unfold update_error. eauto 8.
Qed.

Lemma try_block_raises library task jobs :
  raises_only (update_error library)
    (all_new <- all_new_upstream_commits library task ;;
     unseen_upstream_commits library jobs all_new).
Proof.
apply raises_only_bind.
- unfold all_new_upstream_commits. apply raises_only_bind.
  + eapply raises_only_weaken; [|apply clone_and_checkout_raises].
    apply update_error_of_command.
  + intros _. apply raises_only_bind.
    * eapply raises_only_weaken; [|apply branches_raises].
      apply update_error_of_command.
    * intros bs. apply raises_only_bind; [apply require_containment_refuses|].
      intros _. eapply raises_only_weaken; [|apply _commits_since_raises].
      apply update_error_of_reconciliation.
- intros all_new. eapply raises_only_weaken;
    [|apply unseen_upstream_commits_raises].
  apply update_error_of_reconciliation.
Qed.

(** X9.  The exceptions of class [Exception] that a call raises are the
    ones of lines 109 and 197: the message is one of the two problems of
    step 5, or the refusal of a branch that does not contain the library's
    revision. *)
Theorem check_for_update_own_exceptions library task jobs (s0 : State World) msg :
  snd (check_for_update library task jobs s0) = Raise (Exception msg) ->
  msg = more_unseen_message
  \/ msg = not_subset_message
  \/ (exists current_branch,
        msg = not_contained_message (lib_revision library) current_branch).
Proof.
rewrite check_for_update_cases.
destruct (Py.bind _ _ (entered s0)) as [s r] eqn:E. cbn [snd].
intros ->.
destruct (try_block_raises library task jobs _ _ _ E)
  as [He|[[detail He]|[He|[He|[current_branch He]]]]];
  try discriminate He; injection He as ->; eauto.
Qed.

(** *** How often a call fetches a commit range *)

Lemma fetches_at_most_of_same {A} (m : M (State World) A) :
  preserves same_fetches m -> fetches_at_most 0 m.
Proof. intros Hm s. specialize (Hm s). unfold same_fetches in Hm. lia. Qed.

Lemma fetches_at_most_bind {A B} a b
    (m : M (State World) A) (f : A -> M (State World) B) :
  fetches_at_most a m -> (forall x, fetches_at_most b (f x)) ->
  fetches_at_most (a + b) (bind m f).
Proof.
intros Hm Hf s. unfold bind. specialize (Hm s).
destruct (m s) as [s1 [x|e]]; cbn [fst] in *.
- specialize (Hf x s1). lia.
- lia.
Qed.

Ltac keeps_fetches :=
  keeps (@same_fetches_refl World) (@same_fetches_trans World)
    ltac:(first [ apply log_same_fetches
                | apply populated_same_fetches
                | apply run_same_fetches; reflexivity ]).

Lemma _commits_since_fetches_once revision :
  fetches_at_most 1 (_commits_since revision).
Proof.
unfold _commits_since. apply (fetches_at_most_bind 1 0).
- intros s. rewrite run_events, fetches_app. unfold fetches at 2. simpl. lia.
- intros out. apply fetches_at_most_of_same. keeps_fetches.
Qed.

Lemma all_new_upstream_commits_fetches_once library task :
  fetches_at_most 1 (all_new_upstream_commits library task).
Proof.
unfold all_new_upstream_commits. apply (fetches_at_most_bind 0 1).
{ apply fetches_at_most_of_same, clone_and_checkout_same_fetches. }
intros _. apply (fetches_at_most_bind 0 1).
{ apply fetches_at_most_of_same, branches_same_fetches. }
intros bs. apply (fetches_at_most_bind 0 1).
{ apply fetches_at_most_of_same. unfold require_containment. keeps_fetches. }
intros _. apply _commits_since_fetches_once.
Qed.

Lemma unseen_upstream_commits_fetches_once library jobs all_new :
  fetches_at_most 1 (unseen_upstream_commits library jobs all_new).
Proof.
unfold unseen_upstream_commits. destruct all_new as [|c0 all_new].
{ intros s. unfold bind, log, ret. cbn [fst events]. rewrite fetches_app.
  unfold fetches at 2. simpl. lia. }
apply (fetches_at_most_bind 0 1).
{ apply fetches_at_most_of_same, classification_same_fetches. }
intros newer. destruct newer.
- destruct jobs as [|job rest].
  { intros s. simpl. lia. }
  apply (fetches_at_most_bind 1 0); [apply _commits_since_fetches_once|].
  intros unseen. apply fetches_at_most_of_same.
  unfold check_strict_ordered_subset, _print_differing_commit_lists, populate_all.
  keeps_fetches.
- intros s. pose proof (populate_all_same_fetches (c0 :: all_new) s) as Hp.
  unfold same_fetches in Hp. lia.
Qed.

(** X10.  A call fetches a commit range twice at most. *)
Theorem check_for_update_fetches_at_most_twice library task jobs (s0 : State World) :
  fetches (events (fst (check_for_update library task jobs s0)))
  <= fetches (events s0) + 2.
Proof.
rewrite check_for_update_cases.
pose proof (fetches_at_most_bind 1 1 _ _
              (all_new_upstream_commits_fetches_once library task)
              (unseen_upstream_commits_fetches_once library jobs) (entered s0))
  as Hb.
destruct (Py.bind _ _ (entered s0)) as [s r]. cbn [fst] in *.
rewrite fetches_cleaned_up. rewrite events_entered in Hb. exact Hb.
Qed.

End Coverage.

(** Upstream has rewritten [R2]: the call raises the second problem of
    step 5. *)
Lemma check_for_update_own_exceptions_witness :
  not_subset_message = more_unseen_message
  \/ not_subset_message = not_subset_message
  \/ (exists current_branch,
        not_subset_message = not_contained_message "R0" current_branch).
Proof.
apply (@check_for_update_own_exceptions unit (canned rewritten_history) tmp
         (angle "R0") on_main [mkJob "R1" 17] start).
vm_compute. reflexivity.
Defined.

Lemma populate_details_fails_on_any_change_witness :
  snd (populate_details (H:=canned one_file_changed) (start, R1))
  = Raise IndexError.
Proof.
rewrite (@populate_details_fails_on_any_change unit (canned one_file_changed)
           start R1 tt (lines ["M" +:+ String TAB "src/a.c"])).
- reflexivity.
- reflexivity.
- intros Hblank. vm_compute in Hblank. destruct Hblank as [E _]. discriminate.
Defined.

Lemma populate_details_without_changes_witness :
  snd (populate_details (H:=canned history) (start, R1)) = Ok tt
  /\ summary (snd (fst (populate_details (H:=canned history) (start, R1))))
     = Some "".
Proof.
rewrite (@populate_details_without_changes unit (canned history)
           start R1 tt tt tt "" "" "").
- split; reflexivity.
- reflexivity.
- exact I.
- reflexivity.
- reflexivity.
Defined.

End SCMCoverage.

(** ** More about apis/taskcluster.py *)

Module TaskclusterCoverage.
Import Py PyMore PyFacts PyMoreFacts Logging Taskcluster TaskclusterRest
  TaskclusterFacts Scenarios.

(** *** _transform_job_list *)

Lemma dict_set_fresh key value (d : Struct) :
  ~ In key (map fst d) -> dict_set key value d = d ++ [(key, value)].
Proof.
induction d as [|[k v] d IH]; simpl; [reflexivity|].
intros Hnot. destruct (String.eqb_spec key k) as [->|Hk].
- exfalso. apply Hnot. now left.
- rewrite IH; [reflexivity|]. intros Hin. apply Hnot. now right.
Qed.

Lemma skipn_nth_error {A} (xs : list A) : forall i x,
  nth_error xs i = Some x -> skipn i xs = x :: skipn (S i) xs.
Proof.
induction xs as [|y xs IH]; intros [|i] x; simpl; try discriminate.
- now intros [= ->].
- intros E. now rewrite (IH _ _ E).
Qed.

Lemma fill_struct_distinct property_names : forall i j d,
  NoDup property_names ->
  (forall name, In name property_names -> ~ In name (map fst d)) ->
  i + length property_names <= length j ->
  fill_struct property_names i j d = Ok (d ++ combine property_names (skipn i j)).
Proof.
induction property_names as [|name names IH]; intros i j d Hnodup Hfresh Hlen;
  simpl.
- now rewrite app_nil_r.
- inversion Hnodup as [|? ? Hname Hnames]; subst. simpl in Hlen.
  unfold index. destruct (nth_error j i) as [v|] eqn:E.
  2:{ apply nth_error_None in E. lia. }
  rewrite (skipn_nth_error _ _ _ E).
  rewrite dict_set_fresh by (apply Hfresh; now left).
  rewrite IH; [now rewrite <- app_assoc| assumption | | lia].
  intros n Hn Hin. rewrite map_app in Hin. apply in_app_or in Hin as [Hin|Hin].
  + exact (Hfresh n (or_intror Hn) Hin).
  + simpl in Hin. destruct Hin as [<-|[]]. contradiction.
Qed.

(** X11.  With property names that are all different, and rows that are long
    enough, every row becomes the job that has each property name for an
    attribute, with the value at the same place in the row. *)
Theorem _transform_job_list_pairs_names_with_values property_names job_list :
  NoDup property_names ->
  Forall (fun j => length property_names <= length j) job_list ->
  _transform_job_list property_names job_list
  = Ok (map (fun j => combine property_names j) job_list).
Proof.
intros Hnodup Hrows. induction Hrows as [|j job_list Hj _ IH]; simpl.
- reflexivity.
- rewrite (fill_struct_distinct property_names 0 j []); auto.
  now rewrite IH.
Qed.

Lemma _transform_job_list_pairs_witness :
  _transform_job_list ["id"; "state"]
    [[JInt 1; JStr "completed"; JNull]; [JInt 2; JStr "running"]]
  = Ok [[("id", JInt 1); ("state", JStr "completed")];
        [("id", JInt 2); ("state", JStr "running")]].
Proof.
apply (_transform_job_list_pairs_names_with_values ["id"; "state"]).
- repeat constructor; simpl; intuition discriminate.
- repeat constructor.
Defined.

Lemma fill_struct_short property_names : forall i j d,
  i <= length j -> length j < i + length property_names ->
  fill_struct property_names i j d = Raise IndexError.
Proof.
induction property_names as [|name names IH]; intros i j d Hi Hlen; simpl in *.
- lia.
- unfold index. destruct (nth_error j i) as [v|] eqn:E; [|reflexivity].
  apply IH; [|lia].
  assert (i < length j) by (apply nth_error_Some; congruence). lia.
Qed.

Lemma fill_struct_raises property_names : forall i j d e,
  fill_struct property_names i j d = Raise e -> e = IndexError.
Proof.
induction property_names as [|name names IH]; intros i j d e; simpl.
- discriminate.
- unfold index. destruct (nth_error j i) as [v|]; [apply IH|].
  now intros [= <-].
Qed.

(** X12.  A row with fewer values than there are property names makes the whole
    transformation raise [IndexError]: no job is returned. *)
Theorem _transform_job_list_short_row property_names job_list :
  Exists (fun j => length j < length property_names) job_list ->
  _transform_job_list property_names job_list = Raise IndexError.
Proof.
induction job_list as [|j job_list IH]; intros Hshort.
- inversion Hshort.
- simpl. destruct (fill_struct property_names 0 j []) as [d|e] eqn:E.
  + inversion Hshort as [? ? Hj|? ? Hrest]; subst.
    * rewrite (fill_struct_short property_names 0 j []) in E by lia.
      discriminate.
    * now rewrite (IH Hrest).
  + now rewrite (fill_struct_raises _ _ _ _ _ E).
Qed.

Lemma _transform_job_list_short_row_witness :
  _transform_job_list ["id"; "state"] [[JInt 1; JStr "completed"]; [JInt 2]]
  = Raise IndexError.
Proof.
apply _transform_job_list_short_row. right. left. simpl. lia.
Defined.

(** *** get_job_details *)

Lemma gets_app evs evs' : gets (evs ++ evs') = gets evs + gets evs'.
Proof. unfold gets. now rewrite filter_app, length_app. Qed.

Lemma compare_each_same names url indices :
  Forall (fun i => i < length names) indices ->
  compare_each names names url indices = Ok tt.
Proof.
induction 1 as [|i indices Hi _ IH]; simpl; [reflexivity|].
rewrite Nat.eqb_refl. cbn [negb]. unfold index.
destruct (nth_error names i) as [a|] eqn:E.
- rewrite String.eqb_refl. exact IH.
- apply nth_error_None in E. lia.
Qed.

Lemma compare_property_names_same names url :
  compare_property_names names names url = Ok tt.
Proof.
apply compare_each_same, Forall_forall. intros i Hi. apply in_seq in Hi. lia.
Qed.

Lemma push_id_lookup push_list (s : State) :
  (results <- lift (getitem push_list "results") ;;
   first <- lift (getitem_at results 0) ;;
   lift (getitem first "id")) s
  = (s, first_push_id push_list).
Proof.
unfold bind, lift, first_push_id.
destruct (getitem push_list "results") as [results|e]; [|reflexivity].
destruct (getitem_at results 0); reflexivity.
Qed.

Section Details.
Variable self : TaskclusterProvider.

(** With names in hand and pages that all have them, the loop gathers the
    rows of every page. *)
Lemma job_pages_complete pending : forall push_id url job_list names evs,
  complete pending = true -> names <> [] ->
  Forall (eq names) (names_seen pending) ->
  exists pending' evs',
    job_pages self pending push_id url job_list names evs
    = (pending', evs', Ok (job_list ++ rows_seen pending, names))
    /\ gets evs' = gets evs + length (names_seen pending).
Proof.
induction pending as [|r pending IH]; intros push_id url job_list names evs
  Hc Hne Hall; cbn [job_pages complete names_seen rows_seen length] in *;
  [discriminate|].
destruct (json r) as [j|]; [|discriminate].
destruct names as [|n names]; [contradiction|].
inversion Hall as [|? ? Hj Hrest]; subst. rewrite <- Hj.
rewrite compare_property_names_same.
destruct (next j) as [next_url|].
- destruct (truthy next_url).
  + destruct (IH push_id next_url (job_list ++ results j) (n :: names)
                (evs ++ [Logged ("Requesting push id " +:+ push_id +:+ " from "
                                 +:+ url) Info;
                         Get url (HEADERS self)]) Hc Hne Hrest)
      as (pending' & evs' & E & Hgets).
    exists pending', evs'. rewrite E, Hgets, gets_app, <- app_assoc.
    split; [reflexivity|]. unfold gets at 2. simpl. lia.
  + eexists _, _. rewrite app_nil_r. split; [reflexivity|].
    rewrite gets_app. unfold gets at 2. simpl. lia.
- eexists _, _. rewrite app_nil_r. split; [reflexivity|].
  rewrite gets_app. unfold gets at 2. simpl. lia.
Qed.

Lemma job_pages_complete_from_first pending push_id url evs first later :
  complete pending = true ->
  names_seen pending = first :: later ->
  first <> [] ->
  Forall (eq first) later ->
  exists pending' evs',
    job_pages self pending push_id url [] [] evs
    = (pending', evs', Ok (rows_seen pending, first))
    /\ gets evs' = gets evs + S (length later).
Proof.
destruct pending as [|r pending];
  cbn [job_pages complete names_seen rows_seen length app]; [discriminate|].
destruct (json r) as [j|]; [|discriminate].
destruct (next j) as [next_url|].
- destruct (truthy next_url).
  + intros Hc [= <- <-] Hne Hall.
    destruct (job_pages_complete pending push_id next_url (results j)
                (job_property_names j)
                (evs ++ [Logged ("Requesting push id " +:+ push_id +:+ " from "
                                 +:+ url) Info;
                         Get url (HEADERS self)]) Hc Hne Hall)
      as (pending' & evs' & E & Hgets).
    exists pending', evs'. rewrite E, Hgets, gets_app.
    split; [reflexivity|]. unfold gets at 2. simpl. lia.
  + intros _ [= <- <-] _ _. eexists _, _. rewrite app_nil_r.
    split; [reflexivity|]. rewrite gets_app. unfold gets at 2. simpl. lia.
- intros _ [= <- <-] _ _. eexists _, _. rewrite app_nil_r.
  split; [reflexivity|]. rewrite gets_app. unfold gets at 2. simpl. lia.
Qed.

(** The call, once the push list has been answered. *)
Lemma get_job_details_cases revision (s : State) r rest :
  others s = r :: rest ->
  get_job_details self revision s
  = let push_list_url :=
      url_treeherder self +:+ "api/project/try/push/?revision=" +:+ revision in
    let s1 :=
      mkState (jobs s) rest
        (events s
         ++ [Logged ("Requesting revision " +:+ revision +:+ " from "
                     +:+ push_list_url) Info;
             Get push_list_url (HEADERS self)]) in
    match json r with
    | None =>
        (s1, Raise (Exception
           ("Could not parse the result of the push_list as json. Url: "
            +:+ push_list_url +:+ " Response:" +:+ String LF (text r))))
    | Some push_list =>
        match first_push_id push_list with
        | Raise e =>
            (s1, Raise (ExceptionFrom
               ("Could not find the expected ['results'][0]['id'] from "
                +:+ text r) e))
        | Ok push_id =>
            match job_pages self (jobs s) (json_str push_id)
                    (url_treeherder self +:+ "api/jobs/?push_id="
                     +:+ json_str push_id) [] [] (events s1) with
            | (pending, evs, Ok fetched) =>
                (mkState pending rest evs,
                 _transform_job_list (snd fetched) (fst fetched))
            | (pending, evs, Raise e) =>
                (mkState pending rest evs,
                 Raise (ExceptionFrom
                   ("Could not obtain all the job results for push id "
                    +:+ json_str push_id) e))
            end
        end
    end.
Proof.
intros Hothers. unfold get_job_details. cbv zeta.
unfold bind at 1. unfold log at 1.
unfold bind at 1. unfold requests_get at 1. cbn [others jobs events].
rewrite Hothers, <- app_assoc. cbn [app].
destruct (json r) as [push_list|]; [|reflexivity].
unfold bind at 1, ret at 1.
unfold bind at 1, try_except at 1. rewrite push_id_lookup.
destruct (first_push_id push_list) as [push_id|e]; [|reflexivity].
unfold bind at 1, try_except at 1. cbn [jobs others events].
destruct (job_pages _ _ _ _ _ _ _) as [[pending evs] [fetched|e]]; reflexivity.
Qed.

(** X13.  When the push cannot be found, the call raises before it asks for any
    job: a body that is not JSON gives the parse error, and a push list
    without [results][0][id] gives the error that carries the failed
    lookup as its cause.  The pages of jobs are untouched. *)
Theorem get_job_details_needs_the_push revision (s : State) r rest :
  others s = r :: rest ->
  let push_list_url :=
    url_treeherder self +:+ "api/project/try/push/?revision=" +:+ revision in
  let s1 :=
    mkState (jobs s) rest
      (events s
       ++ [Logged ("Requesting revision " +:+ revision +:+ " from "
                   +:+ push_list_url) Info;
           Get push_list_url (HEADERS self)]) in
  (json r = None ->
   get_job_details self revision s
   = (s1, Raise (Exception
        ("Could not parse the result of the push_list as json. Url: "
         +:+ push_list_url +:+ " Response:" +:+ String LF (text r)))))
  /\ (forall push_list e,
        json r = Some push_list ->
        first_push_id push_list = Raise e ->
        get_job_details self revision s
        = (s1, Raise (ExceptionFrom
             ("Could not find the expected ['results'][0]['id'] from "
              +:+ text r) e))).
Proof.
intros Hothers. cbv zeta. rewrite (get_job_details_cases _ _ _ _ Hothers).
cbv zeta. split.
- intros ->. reflexivity.
- intros push_list e -> ->. reflexivity.
Qed.

(** X14.  When the push is found and the pages come to an end, all with the
    property names of the first (which has some), the call returns the
    transformation of the rows of all the pages, in order, under those
    names; it has made one request for the push and one for each page. *)
Theorem get_job_details_returns_every_row
    revision (s : State) r rest push_list push_id first later :
  others s = r :: rest ->
  json r = Some push_list ->
  first_push_id push_list = Ok push_id ->
  complete (jobs s) = true ->
  names_seen (jobs s) = first :: later ->
  first <> [] ->
  Forall (eq first) later ->
  snd (get_job_details self revision s)
  = _transform_job_list first (rows_seen (jobs s))
  /\ gets (events (fst (get_job_details self revision s)))
     = gets (events s) + 1 + length (names_seen (jobs s)).
Proof.
intros Hothers Hjson Hid Hc Hseen Hne Hall.
rewrite (get_job_details_cases _ _ _ _ Hothers). cbv zeta.
rewrite Hjson, Hid. cbn [events].
destruct (job_pages_complete_from_first (jobs s) (json_str push_id)
            (url_treeherder self +:+ "api/jobs/?push_id=" +:+ json_str push_id)
            (events s
             ++ [Logged ("Requesting revision " +:+ revision +:+ " from "
                         +:+ (url_treeherder self
                              +:+ "api/project/try/push/?revision="
                              +:+ revision)) Info;
                 Get (url_treeherder self +:+ "api/project/try/push/?revision="
                      +:+ revision) (HEADERS self)])
            first later Hc Hseen Hne Hall) as (pending' & evs' & E & Hgets).
rewrite E. cbn [fst snd events]. split; [reflexivity|].
rewrite Hgets, gets_app, Hseen. unfold gets at 2. simpl. lia.
Qed.

(** X15.  After a first page with property names, a page with other names makes
    the call raise: no job is returned. *)
Theorem get_job_details_refuses_other_names revision (s : State) first later :
  names_seen (jobs s) = first :: later ->
  first <> [] ->
  Exists (fun names => names <> first) later ->
  exists e, snd (get_job_details self revision s) = Raise e.
Proof.
intros Hseen Hne Hdiff.
exact (proj2 (later_pages_must_agree self revision s first later Hseen Hne) Hdiff).
Qed.

End Details.

Lemma get_job_details_needs_the_push_witness :
  (exists msg,
     snd (get_job_details treeherder "abc"
            (mkState [] [mkResponse 502 "Bad Gateway" None] []))
     = Raise (Exception msg))
  /\ (exists msg,
        snd (get_job_details treeherder "abc"
               (mkState [] [mkResponse 200 "{}" (Some (JObj []))] []))
        = Raise (ExceptionFrom msg (KeyError "results"))).
Proof.
split.
- rewrite (proj1 (get_job_details_needs_the_push treeherder "abc"
                    (mkState [] [mkResponse 502 "Bad Gateway" None] [])
                    (mkResponse 502 "Bad Gateway" None) [] eq_refl) eq_refl).
  eexists. reflexivity.
- rewrite (proj2 (get_job_details_needs_the_push treeherder "abc"
                    (mkState [] [mkResponse 200 "{}" (Some (JObj []))] [])
                    (mkResponse 200 "{}" (Some (JObj []))) [] eq_refl)
             (JObj []) (KeyError "results") eq_refl eq_refl).
  eexists. reflexivity.
Defined.

Lemma get_job_details_returns_every_row_witness :
  snd (get_job_details treeherder "abc" two_pages)
  = Ok [[("id", JInt 1); ("state", JStr "completed")];
        [("id", JInt 2); ("state", JStr "running")]]
  /\ gets (events (fst (get_job_details treeherder "abc" two_pages))) = 3.
Proof.
destruct (get_job_details_returns_every_row treeherder "abc" two_pages
            push_list [] (JObj [("results", JArr [JObj [("id", JInt 7)]])])
            (JInt 7) ["id"; "state"] [["id"; "state"]]) as [Hjobs Hgets].
- reflexivity.
- reflexivity.
- reflexivity.
- reflexivity.
- reflexivity.
- discriminate.
- repeat constructor.
- split; [exact Hjobs|exact Hgets].
Defined.

Lemma get_job_details_refuses_other_names_witness :
  exists e, snd (get_job_details treeherder "abc" shorter_second_page) = Raise e.
Proof.
apply (get_job_details_refuses_other_names treeherder "abc" shorter_second_page
         ["id"; "state"] [["id"]]).
- reflexivity.
- discriminate.
- constructor. discriminate.
Defined.

(** *** retrigger_jobs *)

Lemma find_decision_task_none job_list :
  Forall other_job job_list -> find_decision_task job_list = Ok None.
Proof.
induction 1 as [|j job_list (job_type_name & Hname & Hother) _ IH]; simpl.
- reflexivity.
- now rewrite Hname, Hother.
Qed.

(** Takes one step of a call that has returned. *)
Ltac returned H s a E :=
  apply bind_ok_inv in H as (s & a & E & H).

Ltac looked_up H a E :=
  let s := fresh "s" in
  apply bind_ok_inv in H as (s & a & E & H);
  unfold lift in E; injection E as <- E.

Section Retrigger.
Context `{Libraries}.
Variable self : TaskclusterProvider.

(** X16.  Without a decision task among the jobs (every job has a type name, and
    none is the decision task's), the call fails its first assertion
    before it requests anything. *)
Theorem retrigger_jobs_needs_decision_task job_list retrigger_list (s : State) :
  Forall other_job job_list ->
  retrigger_jobs self job_list retrigger_list s = (s, Raise (AssertionError "")).
Proof.
intros Hjobs. unfold retrigger_jobs, bind, lift.
now rewrite (find_decision_task_none _ Hjobs).
Qed.

(** X17.  A call that returns has consumed two responses, the action catalogue
    and the answer to the trigger; the answer had status 200, and what is
    returned is its [status][taskId]. *)
Theorem retrigger_jobs_returns_task_id job_list retrigger_list (s s' : State) taskId :
  retrigger_jobs self job_list retrigger_list s = (s', Ok taskId) ->
  exists catalogue answer rest output status,
    others s = catalogue :: answer :: rest
    /\ others s' = rest
    /\ jobs s' = jobs s
    /\ status_code answer = 200%Z
    /\ json answer = Some output
    /\ getitem output "status" = Ok status
    /\ getitem status "taskId" = Ok taskId.
Proof.
intros Hret. unfold retrigger_jobs in Hret.
looked_up Hret decision_task Edecision.
destruct decision_task as [decision_task|]; [|discriminate].
looked_up Hret task_id Etask.
returned Hret s1 catalogue Ecatalogue.
unfold requests_get in Ecatalogue.
destruct (others s) as [|r0 others1] eqn:Eothers; [discriminate|].
injection Ecatalogue as <- <-.
returned Hret s2 actions Eactions.
assert (s2 = mkState (jobs s) others1
                 (events s
                  ++ [Get (url_taskcluster self +:+ "api/queue/v1/task/"
                           +:+ json_str task_id
                           +:+ "/runs/0/artifacts/public/actions.json")
                        (HEADERS self)])) as ->.
{ destruct (json r0); [now injection Eactions|discriminate]. }
clear Eactions.
looked_up Hret actions_obj Eobj.
looked_up Hret actions_list Elist.
looked_up Hret retrigger_action Eaction.
destruct retrigger_action as [retrigger_action|]; [|discriminate].
looked_up Hret retrigger_tasks Etasks.
looked_up Hret hookPayload EhookPayload.
looked_up Hret decision Edec.
looked_up Hret action Eact.
looked_up Hret taskGroupId Egroup.
looked_up Hret template Etemplate.
looked_up Hret payload Epayload.
looked_up Hret hookGroupId EhookGroupId.
looked_up Hret hookGroupId' EhookGroupId'.
looked_up Hret hookId EhookId.
looked_up Hret hookId' EhookId'.
returned Hret s3 u Elog. unfold log in Elog. injection Elog as <- _.
cbn [jobs others events] in Hret.
returned Hret s4 reply Ereply.
unfold requests_post in Ereply. cbn [jobs others events] in Ereply.
destruct others1 as [|r1 rest]; [discriminate|].
injection Ereply as <- <-.
unfold try_except in Hret.
match type of Hret with
| (match ?body ?st with _ => _ end) = _ =>
    destruct (body st) as [s5 [a|e]] eqn:Ebody; [|discriminate]
end.
injection Hret as <- <-.
destruct (Z.eqb_spec (status_code r1) 200) as [Hstatus|Hstatus]; [|discriminate].
returned Ebody s6 output Eoutput.
destruct (json r1) as [j|] eqn:Hjson; [|discriminate].
unfold ret in Eoutput. injection Eoutput as <- <-.
looked_up Ebody status Estatus.
looked_up Ebody logged_id Elogged.
returned Ebody s7 u' Elog. unfold log in Elog. injection Elog as <- _.
looked_up Ebody status' Estatus'.
unfold lift in Ebody. injection Ebody as <- Eid.
exists r0, r1, rest, j, status'.
repeat split; try assumption; reflexivity.
Qed.

End Retrigger.

Lemma retrigger_jobs_needs_decision_task_witness :
  retrigger_jobs (H:=stand_ins) treeherder [test_job; test_job] [test_job]
    taskcluster_up
  = (taskcluster_up, Raise (AssertionError "")).
Proof.
apply (retrigger_jobs_needs_decision_task (H:=stand_ins)).
repeat constructor; exists (JStr "test-linux64/opt-mochitest"); split; reflexivity.
Defined.

Lemma retrigger_jobs_returns_task_id_witness :
  exists output status,
    json triggered = Some output
    /\ getitem output "status" = Ok status
    /\ getitem status "taskId" = Ok (JStr "T99").
Proof.
destruct (retrigger_jobs_returns_task_id (H:=stand_ins) treeherder
            [test_job; decision_job] [test_job] taskcluster_up
            (fst (retrigger_jobs (H:=stand_ins) treeherder
                    [test_job; decision_job] [test_job] taskcluster_up))
            (JStr "T99"))
  as (catalogue & answer & rest & output & status
      & Hothers & _ & _ & _ & Hjson & Hstatus & Hid).
- vm_compute. reflexivity.
- injection Hothers as _ <- _. now exists output, status.
Defined.

(** *** failure_classifications *)

Lemma table_set_fresh key value d :
  Forall (fun entry => key_eqb (fst entry) key = false) d ->
  table_set key value d = d ++ [(key, value)].
Proof.
induction 1 as [|[k v] d Hk _ IH]; simpl; [reflexivity|].
simpl in Hk. now rewrite Hk, IH.
Qed.

Lemma fill_table_distinct items : forall entries d,
  Forall2 classification items entries ->
  distinct_keys entries ->
  Forall (fun old =>
            Forall (fun entry => key_eqb (fst old) (fst entry) = false) entries) d ->
  fill_table items d = Ok (d ++ entries).
Proof.
induction items as [|f items IH]; intros entries d Hitems Hdistinct Hfresh;
  inversion Hitems as [|? [k v] ? entries' [Hid Hname] Hrest]; subst; simpl.
- now rewrite app_nil_r.
- simpl in Hid, Hname. rewrite Hname, Hid.
  destruct Hdistinct as (Hk & Hlater & Hdistinct). rewrite Hk.
  rewrite table_set_fresh.
  + rewrite (IH entries'); [now rewrite <- app_assoc|assumption|assumption|].
    apply Forall_app. split.
    * revert Hfresh. apply Forall_impl. intros old Hold. now inversion Hold.
    * constructor; [exact Hlater|constructor].
  + revert Hfresh. apply Forall_impl. intros old Hold. now inversion Hold.
Qed.

Section Classified.
Variable self : TaskclusterProvider.

Lemma _get_failure_classifications_held (p : Provider) v :
  snd p = Some v -> held v = true ->
  _get_failure_classifications self p = (p, Ok v).
Proof.
intros Hp Hv. unfold _get_failure_classifications, bind, attribute, ret.
rewrite Hp, Hv. cbn [negb]. now rewrite Hp.
Qed.

(** The call, when the cache holds nothing and the service answers. *)
Lemma _get_failure_classifications_cases (s : State) cached r rest :
  held cached = false ->
  others s = r :: rest ->
  _get_failure_classifications self (s, Some cached)
  = let s1 :=
      mkState (jobs s) rest
        (events s
         ++ [Logged "Requesting failure classifications" Info;
             Get (classifications_url self) (HEADERS self)]) in
    match json r with
    | None =>
        ((s1, Some cached),
         Raise (Exception
           ("Could not parse the result of the failureclassification request as json. Response:"
            +:+ String LF (text r))))
    | Some j =>
        match iterate j with
        | Raise e => ((s1, Some cached), Raise e)
        | Ok items =>
            match fill_table items [] with
            | Raise e => ((s1, Some cached), Raise e)
            | Ok failureclassifications =>
                ((s1, Some (Table failureclassifications)),
                 Ok (Table failureclassifications))
            end
        end
    end.
Proof.
intros Hcached Hothers.
unfold _get_failure_classifications, bind, attribute, calling, log,
  requests_get, ret, raise, lift, _set_failure_classifications.
cbn [fst snd]. rewrite Hcached. cbn [negb fst snd jobs others events].
rewrite Hothers, <- app_assoc. cbn [app fst snd].
destruct (json r) as [j|]; [|reflexivity].
destruct (iterate j) as [items|e]; [|reflexivity].
destruct (fill_table items []) as [t|e]; reflexivity.
Qed.

(** What the call does to the provider, whatever the cache holds and
    whatever the service answers. *)
Lemma _get_failure_classifications_outcome (p : Provider) :
  match _get_failure_classifications self p with
  | (p', Ok v) =>
      snd p' = Some v
      /\ (snd p = Some v /\ held v = true /\ p' = p
          \/ exists entries, v = Table entries
               /\ gets (events (fst p')) = gets (events (fst p)) + 1)
  | (p', Raise e) => snd p' = snd p
  end.
Proof.
destruct p as [s [cached|]]; [|reflexivity].
destruct (held cached) eqn:Hcached.
- rewrite (_get_failure_classifications_held (s, Some cached) cached eq_refl Hcached).
  split; [reflexivity|]. left. now split.
- destruct (others s) as [|r rest] eqn:Hothers.
  + unfold _get_failure_classifications, bind, attribute, calling, log,
      requests_get. cbn [fst snd]. rewrite Hcached.
    cbn [negb fst snd jobs others events]. rewrite Hothers. reflexivity.
  + rewrite (_get_failure_classifications_cases s cached r rest Hcached Hothers).
    cbv zeta. destruct (json r) as [j|]; [|reflexivity].
    destruct (iterate j) as [items|e]; [|reflexivity].
    destruct (fill_table items []) as [t|e]; [|reflexivity].
    split; [reflexivity|]. right. exists t. split; [reflexivity|].
    cbn [fst events]. rewrite gets_app. unfold gets at 2. simpl. lia.
Qed.

(** X18.  Once a call has returned a table that is not empty, the next call
    returns the same table and asks for nothing. *)
Theorem failure_classifications_are_cached (p p' : Provider) v :
  _get_failure_classifications self p = (p', Ok v) ->
  held v = true ->
  _get_failure_classifications self p' = (p', Ok v).
Proof.
intros Hget Hv. pose proof (_get_failure_classifications_outcome p) as Hout.
rewrite Hget in Hout. destruct Hout as [Hp' _].
exact (_get_failure_classifications_held p' v Hp' Hv).
Qed.

(** X19.  An empty table is never served from the cache.  A call that returns a
    value that is not held has asked the service and got no
    classification, and the next call asks again. *)
Theorem empty_classifications_are_requested_again (p p' : Provider) v :
  _get_failure_classifications self p = (p', Ok v) ->
  held v = false ->
  v = Table []
  /\ gets (events (fst p')) = gets (events (fst p)) + 1
  /\ gets (events (fst (fst (_get_failure_classifications self p'))))
     = gets (events (fst p')) + 1.
Proof.
intros Hget Hv. pose proof (_get_failure_classifications_outcome p) as Hout.
rewrite Hget in Hout.
destruct Hout as [Hp' [(_ & Hheld & _)|(entries & -> & Hgets)]]; [congruence|].
assert (entries = []) as -> by (destruct entries; [reflexivity|discriminate]).
split; [reflexivity|]. split; [exact Hgets|].
destruct p' as [s' cache]. cbn [snd] in Hp'. subst cache.
unfold _get_failure_classifications, bind, attribute, calling, log,
  requests_get, ret, raise, lift, _set_failure_classifications.
cbn [fst snd jobs others events held negb].
destruct (others s') as [|r rest]; cbn [fst snd events].
- rewrite <- app_assoc, gets_app. unfold gets at 2. simpl. lia.
- destruct (json r) as [j|]; cbn [fst snd events].
  2:{ rewrite <- app_assoc, gets_app. unfold gets at 2. simpl. lia. }
  destruct (iterate j) as [items|e]; cbn [fst snd events].
  2:{ rewrite <- app_assoc, gets_app. unfold gets at 2. simpl. lia. }
  destruct (fill_table items []) as [t|e]; cbn [fst snd events];
    rewrite <- app_assoc, gets_app; unfold gets at 2; simpl; lia.
Qed.

(** X20.  A call that raises leaves the cache as it was. *)
Theorem failed_classifications_keep_the_cache (p : Provider) e :
  snd (_get_failure_classifications self p) = Raise e ->
  snd (fst (_get_failure_classifications self p)) = snd p.
Proof.
intros Hraise. pose proof (_get_failure_classifications_outcome p) as Hout.
destruct (_get_failure_classifications self p) as [p' [v|e']];
  [discriminate|exact Hout].
Qed.

(** X21.  Setting a table that is not empty and reading it back gives that
    table, with no request; once the attribute is deleted, reading raises
    [AttributeError], again with no request, and so does deleting it a
    second time. *)
Theorem failure_classifications_set_and_deleted (s : State) cache :
  (forall v, held v = true ->
     (_set_failure_classifications v ;;; _get_failure_classifications self)
       (s, cache)
     = ((s, Some v), Ok v))
  /\ (forall v,
        (_del_failure_classifications ;;; _get_failure_classifications self)
          (s, Some v)
        = ((s, None), Raise (AttributeError "_failure_classifications")))
  /\ (forall v,
        (_del_failure_classifications ;;; _del_failure_classifications)
          (s, Some v)
        = ((s, None), Raise (AttributeError "_failure_classifications"))).
Proof.
split; [|split; reflexivity].
intros v Hv. unfold bind at 1, _set_failure_classifications at 1. cbn [fst].
exact (_get_failure_classifications_held (s, Some v) v eq_refl Hv).
Qed.

(** X22.  With nothing held, and an answer that lists classifications whose
    identifiers are hashable and all different, the call returns the table
    of the identifiers and names, in the order of the answer, and holds it
    from then on. *)
Theorem failure_classifications_reads_the_table
    (s : State) cached r rest items entries :
  held cached = false ->
  others s = r :: rest ->
  json r = Some (JArr items) ->
  Forall2 classification items entries ->
  distinct_keys entries ->
  _get_failure_classifications self (s, Some cached)
  = ((mkState (jobs s) rest
        (events s
         ++ [Logged "Requesting failure classifications" Info;
             Get (classifications_url self) (HEADERS self)]),
      Some (Table entries)),
     Ok (Table entries)).
Proof.
intros Hcached Hothers Hjson Hitems Hdistinct.
rewrite (_get_failure_classifications_cases s cached r rest Hcached Hothers).
cbv zeta. rewrite Hjson. cbn [iterate].
now rewrite (fill_table_distinct items entries [] Hitems Hdistinct (Forall_nil _)).
Qed.

End Classified.

Lemma failure_classifications_are_cached_witness :
  _get_failure_classifications treeherder
    (fst (_get_failure_classifications treeherder
            (mkState [] [classifications] [], Some NoTable)))
  = (fst (_get_failure_classifications treeherder
            (mkState [] [classifications] [], Some NoTable)),
     Ok (Table [(JInt 1, JStr "not classified"); (JInt 4, JStr "intermittent")])).
Proof.
apply (failure_classifications_are_cached treeherder
         (mkState [] [classifications] [], Some NoTable)).
- vm_compute. reflexivity.
- reflexivity.
Defined.

Lemma empty_classifications_are_requested_again_witness :
  gets (events (fst (fst (_get_failure_classifications treeherder
    (fst (_get_failure_classifications treeherder
            (mkState [] [no_classification; no_classification] [],
             Some NoTable)))))))
  = 2.
Proof.
destruct (empty_classifications_are_requested_again treeherder
            (mkState [] [no_classification; no_classification] [], Some NoTable)
            (fst (_get_failure_classifications treeherder
                    (mkState [] [no_classification; no_classification] [],
                     Some NoTable)))
            (Table [])) as (_ & Hfirst & Hsecond).
- vm_compute. reflexivity.
- reflexivity.
- rewrite Hsecond, Hfirst. reflexivity.
Defined.

Lemma failed_classifications_keep_the_cache_witness :
  snd (fst (_get_failure_classifications treeherder
              (mkState [] [bad_gateway] [], Some (Table []))))
  = Some (Table []).
Proof.
eapply (failed_classifications_keep_the_cache treeherder
          (mkState [] [bad_gateway] [], Some (Table []))).
vm_compute. reflexivity.
Defined.

Lemma failure_classifications_reads_the_table_witness :
  snd (_get_failure_classifications treeherder
         (mkState [] [classifications] [], Some NoTable))
  = Ok (Table [(JInt 1, JStr "not classified"); (JInt 4, JStr "intermittent")]).
Proof.
rewrite (failure_classifications_reads_the_table treeherder
           (mkState [] [classifications] []) NoTable classifications []
           [JObj [("id", JInt 1); ("name", JStr "not classified")];
            JObj [("id", JInt 4); ("name", JStr "intermittent")]]
           [(JInt 1, JStr "not classified"); (JInt 4, JStr "intermittent")]).
- reflexivity.
- reflexivity.
- reflexivity.
- reflexivity.
- repeat constructor.
- simpl. repeat split; repeat constructor.
Defined.

(** *** submit_to_try *)

Lemma scan_lines_without_header lines :
  Forall (fun l => substring_of TRY_HEADER l = false) lines ->
  scan_lines false lines = None.
Proof.
induction 1 as [|l lines Hl _ IH]; cbn [scan_lines]; [reflexivity|].
now rewrite Hl.
Qed.

Lemma scan_lines_header_last before header :
  Forall (fun l => substring_of TRY_HEADER l = false) before ->
  scan_lines false (before ++ [header]) = None.
Proof.
induction 1 as [|l lines Hl _ IH]; cbn [app scan_lines].
- now destruct (substring_of TRY_HEADER header).
- now rewrite Hl.
Qed.

Lemma scan_lines_after_header before header line after :
  Forall (fun l => substring_of TRY_HEADER l = false) before ->
  substring_of TRY_HEADER header = true ->
  scan_lines false (before ++ header :: line :: after)
  = Some (strip (replace "remote:" "" line)).
Proof.
intros Hbefore Hheader.
induction Hbefore as [|l lines Hl _ IH]; cbn [app scan_lines].
- now rewrite Hheader.
- now rewrite Hl.
Qed.

Lemma find_here needle haystack :
  String.prefix needle haystack = true -> find needle haystack = Some 0.
Proof.
destruct haystack; [rewrite find_nil|rewrite find_cons]; now intros ->.
Qed.

(** The marker is found right after a text that has no [#]. *)
Lemma find_marker pre link :
  all_chars (fun c => negb (Ascii.eqb c "#")) pre ->
  find TRY_MARKER (pre +:+ TRY_MARKER +:+ link) = Some (String.length pre).
Proof.
induction pre as [|c pre IH]; intros Hpre.
- apply find_here. exact (prefix_append TRY_MARKER link).
- destruct Hpre as [Hc Hpre].
  change (String c pre +:+ TRY_MARKER +:+ link)
    with (String c (pre +:+ TRY_MARKER +:+ link)).
  rewrite find_cons, (IH Hpre).
  unfold TRY_MARKER at 1. cbn [String.prefix].
  destruct (ascii_dec "#" c) as [<-|_]; [discriminate Hc|reflexivity].
Qed.

Section Tries.
Context {World : Type} `{SCM.CommandProvider World}.

(** X23.  When the output has a line with the header, and the line after the
    first such line holds the marker after a text without [#] (once
    [remote:] is taken out and the ends are stripped), the call returns
    what follows the marker on that line. *)
Theorem submit_to_try_returns_the_revision
    library (s : SCM.State World) w output before header line after pre link :
  SCM.run_command (SCM.world s) ["./mach"; "try"; "auto"]
    = (w, SCM.Stdout output) ->
  split_on LF output = before ++ header :: line :: after ->
  Forall (fun l => substring_of TRY_HEADER l = false) before ->
  substring_of TRY_HEADER header = true ->
  strip (replace "remote:" "" line) = pre +:+ TRY_MARKER +:+ link ->
  all_chars (fun c => negb (Ascii.eqb c "#")) pre ->
  submit_to_try library s
  = (SCM.mkState w (SCM.cwd s)
       (SCM.events s ++ [SCM.Ran ["./mach"; "try"; "auto"]]),
     Ok link).
Proof.
intros Hrun Hsplit Hbefore Hheader Hline Hpre.
unfold submit_to_try. unfold bind at 1. unfold SCM.run. rewrite Hrun. cbv zeta.
rewrite Hsplit, (scan_lines_after_header _ _ _ _ Hbefore Hheader), Hline.
assert (truthy (pre +:+ TRY_MARKER +:+ link) = true) as -> by now destruct pre.
rewrite substring_of_middle. cbn [negb orb].
unfold bind, lift, str_index, ret. rewrite (find_marker _ _ Hpre).
now rewrite drop_add, drop_append, drop_append.
Qed.

(** X24.  The call raises, with the whole output in the message, when no line
    has the header, when the only line that has it is the last one, and
    when the line after the first header does not hold the marker. *)
Theorem submit_to_try_needs_the_link library (s : SCM.State World) w output :
  SCM.run_command (SCM.world s) ["./mach"; "try"; "auto"]
    = (w, SCM.Stdout output) ->
  let failed :=
    (SCM.mkState w (SCM.cwd s)
       (SCM.events s ++ [SCM.Ran ["./mach"; "try"; "auto"]]),
     Raise (Exception
       ("Could not find the try link in output:" +:+ String LF output))) in
  (Forall (fun l => substring_of TRY_HEADER l = false) (split_on LF output) ->
   submit_to_try library s = failed)
  /\ (forall before header,
        split_on LF output = before ++ [header] ->
        Forall (fun l => substring_of TRY_HEADER l = false) before ->
        submit_to_try library s = failed)
  /\ (forall before header line after,
        split_on LF output = before ++ header :: line :: after ->
        Forall (fun l => substring_of TRY_HEADER l = false) before ->
        substring_of TRY_HEADER header = true ->
        substring_of TRY_MARKER (strip (replace "remote:" "" line)) = false ->
        submit_to_try library s = failed).
Proof.
intros Hrun. cbv zeta.
split; [|split]; intros; unfold submit_to_try; unfold bind at 1;
  unfold SCM.run; rewrite Hrun; cbv zeta.
- now rewrite scan_lines_without_header.
- match goal with E : split_on LF output = _ |- _ => rewrite E end.
  now rewrite scan_lines_header_last.
- match goal with E : split_on LF output = _ |- _ => rewrite E end.
  rewrite scan_lines_after_header by assumption.
  match goal with E : substring_of TRY_MARKER _ = false |- _ => rewrite E end.
  now rewrite orb_true_r.
Qed.

End Tries.

Lemma submit_to_try_returns_the_revision_witness :
  snd (submit_to_try (H:=canned try_pushed) (angle "R0") start) = Ok "f1d2d2f9".
Proof.
rewrite (@submit_to_try_returns_the_revision unit (canned try_pushed)
           (angle "R0") start tt try_output
           ["remote: View your changes here:";
            "remote:   https://hg.mozilla.org/try/rev/f1d2d2f9"]
           "remote: Follow the progress of your build on Treeherder:"
           "remote:   https://treeherder.mozilla.org/#/jobs?repo=try&revision=f1d2d2f9"
           ["remote: recorded changegroup in replication log"; ""]
           "https://treeherder.mozilla.org/" "f1d2d2f9").
- reflexivity.
- reflexivity.
- reflexivity.
- repeat constructor.
- reflexivity.
- reflexivity.
- vm_compute. intuition.
Defined.

Lemma submit_to_try_needs_the_link_witness :
  snd (submit_to_try (H:=canned history) (angle "R0") start)
  = Raise (Exception ("Could not find the try link in output:" +:+ String LF "")).
Proof.
rewrite (proj1 (@submit_to_try_needs_the_link unit (canned history)
                  (angle "R0") start tt "" eq_refl)).
- reflexivity.
- repeat constructor.
Defined.

End TaskclusterCoverage.
